(** * Variable similarity matching engine (AppDiabetes)

    Shallow embedding of [utils/text_utils.py] and
    [services/similarity_engine.py], together with the part of CPython's
    [difflib.SequenceMatcher] that [calcular_similitud] runs.

    Conventions.
    - A Python [str] is a Rocq [string]; a character is a code point below
      256 (ASCII and Latin-1), which covers the Spanish and English
      terminology the engine is configured with.
    - A Python [float] is a rational number in [Q].  A score is kept as
      the exact quotient [2 * matches / length] and a rounded value as the
      exact decimal; either stands for the binary64 number nearest to it,
      which [Py.fl] computes.  Where the code rounds, adds, multiplies or
      divides floats, the model first takes these binary64 numbers, so
      that it rounds as the code does (the score 102/160 to 0.637, its
      binary64 number lying below 0.6375).
    - Python indices and lengths are natural numbers. *)

From Stdlib Require Import ZArith QArith Qround Qpower Lqa String Ascii.
From stdpp Require Import gmap strings list sorting pretty.

Local Open Scope nat_scope.

(** ** difflib.SequenceMatcher *)

Module Difflib.

(** [Match(a, b, size)]. *)
Definition Match : Type := nat * nat * nat.

Definition match_size (m : Match) : nat := m.2.

(** Python compares tuples lexicographically; this is the order used by
    [matching_blocks.sort()]. *)
Definition match_le (x y : Match) : Prop :=
  let '(i1, j1, k1) := x in
  let '(i2, j2, k2) := y in
  i1 < i2 ∨ (i1 = i2 ∧ (j1 < j2 ∨ (j1 = j2 ∧ k1 ≤ k2))).

#[global] Instance match_le_dec : RelDecision match_le.
Proof. intros [[i1 j1] k1] [[i2 j2] k2]; unfold match_le; apply _. Defined.

Section SequenceMatcher.
Context {A : Type} `{Countable A}.

(** [x == y] on two subscripted elements.  Both subscripts are in range
    wherever the code evaluates the comparison. *)
Definition elem_eqb (x y : option A) : bool :=
  match x, y with
  | Some u, Some v => bool_decide (u = v)
  | _, _ => false
  end.

(** *** __chain_b *)

(** [for i, elt in enumerate(b): b2j.setdefault(elt, []).append(i)],
    started at index [i]. *)
Fixpoint chain_b_index (i : nat) (b : list A) (b2j : gmap A (list nat))
    : gmap A (list nat) :=
  match b with
  | [] => b2j
  | elt :: b' =>
      chain_b_index (S i) b' (<[elt := default [] (b2j !! elt) ++ [i]]> b2j)
  end.

(** The popular elements: with [autojunk] on (the default, which
    [calcular_similitud] keeps) and [len(b) >= 200], every element that
    occurs more than [len(b) // 100 + 1] times. *)
Definition is_popular (n : nat) (idxs : list nat) : bool :=
  (200 <=? n) && (n / 100 + 1 <? length idxs).

(** [isjunk] is [None] in [calcular_similitud], so no junk is purged and
    [bjunk] stays empty; the popular elements are deleted from [b2j]. *)
Definition chain_b (b : list A) : gmap A (list nat) :=
  let b2j := chain_b_index 0 b ∅ in
  filter (λ kv, is_popular (length b) kv.2 = false) b2j.

Definition bjunk : gset A := ∅.

Definition isbjunk (x : option A) : bool :=
  match x with
  | Some u => bool_decide (u ∈ bjunk)
  | None => false
  end.

(** *** find_longest_match *)

Section FindLongestMatch.
Variables (a b : list A) (b2j : gmap A (list nat)).
Variables (alo ahi blo bhi : nat).

(** [j2lenget(j-1, 0)]: the key [-1] is never present. *)
Definition j2lenget_pred (j2len : gmap nat nat) (j : nat) : nat :=
  match j with
  | 0 => 0
  | S j' => default 0 (j2len !! j')
  end.

(** The inner [for j in b2j.get(a[i], nothing)] loop, with its
    [continue] and [break]. *)
Fixpoint row_loop (i : nat) (js : list nat) (j2len newj2len : gmap nat nat)
    (best : Match) : gmap nat nat * Match :=
  match js with
  | [] => (newj2len, best)
  | j :: js' =>
      if j <? blo then row_loop i js' j2len newj2len best
      else if bhi <=? j then (newj2len, best)
      else
        let k := j2lenget_pred j2len j + 1 in
        let best' :=
          if match_size best <? k then (i + 1 - k, j + 1 - k, k) else best in
        row_loop i js' j2len (<[j := k]> newj2len) best'
  end.

(** One iteration of [for i in range(alo, ahi)]. *)
Definition row_step (st : gmap nat nat * Match) (i : nat)
    : gmap nat nat * Match :=
  let js := match a !! i with
            | Some x => default [] (b2j !! x)
            | None => []
            end in
  row_loop i js st.1 ∅ st.2.

Definition main_loop : gmap nat nat * Match :=
  foldl row_step (∅, (alo, blo, 0)) (seq alo (ahi - alo)).

(** [while besti > alo and bestj > blo and P(b[bestj-1]) and
    a[besti-1] == b[bestj-1]]: the first and third [while] loops, with
    [P] the junk test or its negation. *)
Fixpoint extend_left (P : option A → bool) (besti bestj bestsize : nat)
    {struct besti} : Match :=
  match besti, bestj with
  | S i', S j' =>
      if (alo <? besti) && (blo <? bestj) && P (b !! j')
         && elem_eqb (a !! i') (b !! j')
      then extend_left P i' j' (S bestsize)
      else (besti, bestj, bestsize)
  | _, _ => (besti, bestj, bestsize)
  end.

(** [while besti+bestsize < ahi and bestj+bestsize < bhi and
    P(b[bestj+bestsize]) and a[besti+bestsize] == b[bestj+bestsize]]:
    the second and fourth loops.  [gap] is [ahi - (besti+bestsize)],
    which every iteration lowers by one. *)
Fixpoint extend_right (P : option A → bool) (gap besti bestj bestsize : nat)
    : Match :=
  match gap with
  | 0 => (besti, bestj, bestsize)
  | S gap' =>
      if (besti + bestsize <? ahi) && (bestj + bestsize <? bhi)
         && P (b !! (bestj + bestsize))
         && elem_eqb (a !! (besti + bestsize)) (b !! (bestj + bestsize))
      then extend_right P gap' besti bestj (S bestsize)
      else (besti, bestj, bestsize)
  end.

Definition extend (P : option A → bool) (m : Match) : Match :=
  let '(besti, bestj, bestsize) := m in
  let '(besti, bestj, bestsize) := extend_left P besti bestj bestsize in
  extend_right P (ahi - (besti + bestsize)) besti bestj bestsize.

Definition find_longest_match : Match :=
  let best := main_loop.2 in
  let best := extend (λ x, negb (isbjunk x)) best in
  extend isbjunk best.
End FindLongestMatch.

(** *** get_matching_blocks *)

(** The [while queue:] loop.  The Python list [queue] is used as a stack
    ([pop] and [append] both work at its end), so the head of the Rocq list
    is the end of the Python list.  [fuel] bounds the number of
    iterations; [None] means it ran out, which [queue_fuel] rules out (see
    [raw_matching_blocks_spec]). *)
Fixpoint queue_loop (a b : list A) (b2j : gmap A (list nat)) (fuel : nat)
    (queue : list (nat * nat * nat * nat)) (matching_blocks : list Match)
    : option (list Match) :=
  match queue with
  | [] => Some matching_blocks
  | (alo, ahi, blo, bhi) :: queue =>
      match fuel with
      | 0 => None
      | S fuel =>
          let '(i, j, k) := find_longest_match a b b2j alo ahi blo bhi in
          if k =? 0 then queue_loop a b b2j fuel queue matching_blocks
          else
            let queue :=
              if (alo <? i) && (blo <? j) then (alo, i, blo, j) :: queue
              else queue in
            let queue :=
              if (i + k <? ahi) && (j + k <? bhi)
              then (i + k, ahi, j + k, bhi) :: queue
              else queue in
            queue_loop a b b2j fuel queue (matching_blocks ++ [(i, j, k)])
      end
  end.

(** The [for i2, j2, k2 in matching_blocks] loop that merges adjacent
    blocks; the state is [(i1, j1, k1)] and [non_adjacent]. *)
Definition collapse_step (st : Match * list Match) (blk : Match)
    : Match * list Match :=
  let '((i1, j1, k1), non_adjacent) := st in
  let '(i2, j2, k2) := blk in
  if (i1 + k1 =? i2) && (j1 + k1 =? j2) then ((i1, j1, k1 + k2), non_adjacent)
  else
    let non_adjacent :=
      if k1 =? 0 then non_adjacent else non_adjacent ++ [(i1, j1, k1)] in
    ((i2, j2, k2), non_adjacent).

Definition collapse (matching_blocks : list Match) : list Match :=
  let '((i1, j1, k1), non_adjacent) :=
    foldl collapse_step ((0, 0, 0), []) matching_blocks in
  if k1 =? 0 then non_adjacent else non_adjacent ++ [(i1, j1, k1)].

Definition queue_fuel (a : list A) : nat := 2 * length a + 1.

Definition raw_matching_blocks (a b : list A) : option (list Match) :=
  queue_loop a b (chain_b b) (queue_fuel a)
    [(0, length a, 0, length b)] [].

Definition get_matching_blocks (a b : list A) : list Match :=
  let matching_blocks := default [] (raw_matching_blocks a b) in
  let matching_blocks := merge_sort match_le matching_blocks in
  collapse matching_blocks ++ [(length a, length b, 0)].

(** *** ratio *)

(** [sum(triple[-1] for triple in self.get_matching_blocks())]. *)
Definition matches (a b : list A) : nat :=
  foldr (λ triple acc, match_size triple + acc) 0 (get_matching_blocks a b).

(** [_calculate_ratio]: [2.0 * matches / length], and [1.0] when
    [length] is zero. *)
Definition calculate_ratio (matches length : nat) : Q :=
  if length =? 0 then 1%Q
  else Qred (Z.of_nat (2 * matches) # Pos.of_nat length).

Definition ratio (a b : list A) : Q :=
  calculate_ratio (matches a b) (length a + length b).
End SequenceMatcher.

End Difflib.

(** ** Python built-ins used by the engine *)

Module Py.

(** *** Floats *)

Definition Qlt_bool (x y : Q) : bool := negb (Qle_bool y x).

(** Nearest integer, ties to the even one. *)
Definition round_half_even (q : Q) : Z :=
  let f := Qfloor q in
  match (q - inject_Z f ?= 1 # 2)%Q with
  | Lt => f
  | Gt => (f + 1)%Z
  | Eq => if Z.even f then f else (f + 1)%Z
  end.

(** The binade of a positive rational [q]: the [E] with
    [2^E <= q < 2^(E+1)]. *)
Definition binade (q : Q) : Z :=
  let k := (Z.log2 (Qnum q) - Z.log2 (Zpos (Qden q)))%Z in
  if Qle_bool (2 ^ k) q then k else (k - 1)%Z.

(** The binary64 number nearest to a positive rational, ties to the even
    significand: a significand of 53 bits, and a last place [2^expo] of
    [2^-1074] at least.  Overflow is left out; no float of the program comes near
    [2^1024]. *)
Definition expo (q : Q) : Z := Z.max (binade q - 52) (-1074).

Definition fl_pos (q : Q) : Q :=
  (inject_Z (round_half_even (q / 2 ^ expo q)) * 2 ^ expo q)%Q.

(** The binary64 number nearest to a rational, in lowest terms. *)
Definition fl (q : Q) : Q :=
  match Qnum q with
  | Z0 => 0%Q
  | Zpos _ => Qred (fl_pos q)
  | Zneg _ => Qred (- fl_pos (- q))
  end.

(** [x + y], [x * y] and [x / y] on floats: the exact result on the two
    binary64 numbers, rounded to binary64.  An [int] operand is converted
    to the nearest float first, which [fl] does as well. *)
Definition fadd (x y : Q) : Q := fl (fl x + fl y).
Definition fmul (x y : Q) : Q := fl (fl x * fl y).
Definition fdiv (x y : Q) : Q := fl (fl x / fl y).

(** [a / b] on two [int]s: the quotient, rounded once. *)
Definition truediv (a b : nat) : Q :=
  fl (inject_Z (Z.of_nat a) / inject_Z (Z.of_nat b)).

(** The decimal with [ndigits] places nearest to [x], ties to the even
    one. *)
Definition round_decimal (x : Q) (ndigits : nat) : Q :=
  let p := Z.to_pos (10 ^ Z.of_nat ndigits) in
  Qred (round_half_even (x * inject_Z (Zpos p)) # p).

(** [round(x, ndigits)]: CPython rounds the value the float holds, its
    binary64 number, to the nearest decimal with [ndigits] places, ties
    to the even one.  The result is a float again; the model keeps the
    decimal, which stands for it. *)
Definition round (x : Q) (ndigits : nat) : Q := round_decimal (fl x) ndigits.

(** [sum(xs)] over floats: binary64 additions from left to right,
    starting from [0] (CPython 3.11). *)
Definition sum (xs : list Q) : Q := foldl fadd 0%Q xs.

(** *** Strings *)

Definition code (c : ascii) : nat := nat_of_ascii c.

(** [c.isspace()] for a code point below 256. *)
Definition isspace (c : ascii) : bool :=
  let n := code c in
  ((9 <=? n) && (n <=? 13)) || ((28 <=? n) && (n <=? 32))
  || (n =? 133) || (n =? 160).

Fixpoint lstrip (s : string) : string :=
  match s with
  | String c s' => if isspace c then lstrip s' else s
  | EmptyString => EmptyString
  end.

Fixpoint rstrip (s : string) : string :=
  match s with
  | String c s' =>
      match rstrip s' with
      | EmptyString => if isspace c then EmptyString else String c EmptyString
      | r => String c r
      end
  | EmptyString => EmptyString
  end.

(** [s.strip()]. *)
Definition strip (s : string) : string := rstrip (lstrip s).

(** [c.lower()] for a code point below 256: the letters A-Z and the
    accented capitals U+00C0-U+00DE (the multiplication sign U+00D7
    apart) move 32 places up. *)
Definition lower_char (c : ascii) : ascii :=
  let n := code c in
  if ((65 <=? n) && (n <=? 90))
     || ((192 <=? n) && (n <=? 222) && negb (n =? 215))
  then ascii_of_nat (n + 32) else c.

Fixpoint map_string (f : ascii → ascii) (s : string) : string :=
  match s with
  | String c s' => String (f c) (map_string f s')
  | EmptyString => EmptyString
  end.

(** [s.lower()]. *)
Definition lower (s : string) : string := map_string lower_char s.

(** [unicodedata.normalize("NFD", ch)] with the characters of category
    [Mn] dropped, for a code point below 256: an accented Latin letter
    decomposes into its base letter followed by combining marks, which are
    the only [Mn] characters that can appear; every other character is its
    own decomposition. *)
Definition strip_accents_char (c : ascii) : ascii :=
  let n := code c in
  let base (m : nat) : nat :=
    if (192 <=? m) && (m <=? 197) then 65
    else if m =? 199 then 67
    else if (200 <=? m) && (m <=? 203) then 69
    else if (204 <=? m) && (m <=? 207) then 73
    else if m =? 209 then 78
    else if (210 <=? m) && (m <=? 214) then 79
    else if (217 <=? m) && (m <=? 220) then 85
    else if m =? 221 then 89
    else m in
  if n =? 255 then "y"%char
  else if (224 <=? n) && (n <=? 253) && negb (base (n - 32) =? n - 32)
  then ascii_of_nat (base (n - 32) + 32)
  else ascii_of_nat (base n).

Definition strip_accents (s : string) : string :=
  map_string strip_accents_char s.

(** [re.sub(P+, " ", s)] for a character class [P]: every maximal run of
    characters in the class becomes one space.  [in_run] tells whether the
    previous character was in the class. *)
Fixpoint sub_runs (P : ascii → bool) (in_run : bool) (s : string) : string :=
  match s with
  | String c s' =>
      if P c then
        if in_run then sub_runs P true s' else String " " (sub_runs P true s')
      else String c (sub_runs P false s')
  | EmptyString => EmptyString
  end.

(** The class [[a-z0-9]]. *)
Definition is_az09 (c : ascii) : bool :=
  let n := code c in
  ((97 <=? n) && (n <=? 122)) || ((48 <=? n) && (n <=? 57)).

(** [needle in hay]. *)
Fixpoint contains (needle hay : string) : bool :=
  String.prefix needle hay
  || match hay with
     | String _ hay' => contains needle hay'
     | EmptyString => false
     end.

(** [sep.join(xs)]. *)
Fixpoint join (sep : string) (xs : list string) : string :=
  match xs with
  | [] => EmptyString
  | [x] => x
  | x :: xs' => x +:+ sep +:+ join sep xs'
  end.

(** [s.split(sep)] for a separator of one character: the pieces between
    the occurrences of [sep]; the empty string has the single piece [""]. *)
Fixpoint split (sep : ascii) (s : string) : list string :=
  match s with
  | EmptyString => [EmptyString]
  | String c s' =>
      if Ascii.eqb c sep then EmptyString :: split sep s'
      else match split sep s' with
           | pieza :: piezas => String c pieza :: piezas
           | [] => [String c EmptyString]
           end
  end.

(** *** Lists *)

(** [min(xs)] and [max(xs)] for the non-empty list [x :: xs] of floats,
    compared as binary64 numbers; of equal elements the first is kept. *)
Definition min (x : Q) (xs : list Q) : Q :=
  foldl (λ m y, if Qlt_bool (fl y) (fl m) then y else m) x xs.

Definition max (x : Q) (xs : list Q) : Q :=
  foldl (λ m y, if Qlt_bool (fl m) (fl y) then y else m) x xs.

(** [xs.remove(x)]: the list without the first occurrence of [x];
    [None] is the [ValueError] raised when there is none. *)
Fixpoint list_remove (x : string) (xs : list string) : option (list string) :=
  match xs with
  | [] => None
  | y :: ys =>
      if String.eqb y x then Some ys
      else match list_remove x ys with
           | Some ys' => Some (y :: ys')
           | None => None
           end
  end.

(** [str(x) if x else None] for an optional string [x]: [None] and the
    empty string are both false. *)
Definition str_if_truthy (x : option string) : option string :=
  match x with
  | Some EmptyString => None
  | Some s => Some s
  | None => None
  end.

End Py.

(** ** utils/text_utils.py *)

(** The argument is a [str] already; the [str(texto)] branch for numbers
    is outside the model. *)
Definition normalizar_texto (texto : string) : string :=
  let texto := Py.lower (Py.strip texto) in
  let texto := Py.strip_accents texto in
  let texto := Py.sub_runs (λ c, negb (Py.is_az09 c)) false texto in
  Py.strip (Py.sub_runs Py.isspace false texto).

Definition calcular_similitud (texto1 texto2 : string) : Q :=
  Difflib.ratio (list_ascii_of_string texto1) (list_ascii_of_string texto2).

Definition construir_candidatos (columnas : list string)
    : list (string * string) :=
  foldl (λ candidatos columna,
           candidatos ++ [(columna, normalizar_texto columna)])
        [] columnas.


Definition limpiar_lista_sinonimos (sinonimos_texto : string) : list string :=
  match sinonimos_texto with
  | EmptyString => []
  | _ =>
      let sinonimos := Py.split "," sinonimos_texto in
      foldl (λ sinonimos_limpios sinonimo,
               let sinonimo_limpio := Py.strip sinonimo in
               match sinonimo_limpio with
               | EmptyString => sinonimos_limpios
               | _ => sinonimos_limpios ++ [sinonimo_limpio]
               end)
            [] sinonimos
  end.

(** ** config/settings.py *)

Module Config.
Definition SIMILARITY_THRESHOLD : Q := 3 # 5.
End Config.

Definition DEFAULT_VARIABLES : list (string * list string) :=
  [("glucosa",
    ["glucosa"; "glucemia"; "glucose"; "blood glucose"; "glucosa mg dl";
     "fpg"; "fasting plasma glucose"; "azucar en sangre"; "glc";
     "glucose_mg_dl"; "Glucose"]);
   ("bmi",
    ["bmi"; "imc"; "indice de masa corporal"; "body mass index";
     "bmi_calculado"; "BMI"]);
   ("edad",
    ["edad"; "age"; "years"; "anios";
     String "a" (String "241" (String "o" (String "s" EmptyString)));
     "edad_paciente"; "patient_age"; "Age"]);
   ("hba1c",
    ["hba1c"; "hemoglobina glucosilada"; "hemoglobina glicosilada"; "a1c";
     "hemoglobina_a1c"; "glycated_hemoglobin"]);
   ("dieta",
    ["dieta"; "diet"; "vegetales"; "verduras"; "frutas"; "consumo de frutas";
     "consumo de vegetales"; "vegetable intake"; "fruit intake";
     "consumo_frutas_diario"; "consumo_vegetales_diario"]);
   ("obesidad",
    ["obesidad"; "obesity"; "obese"; "diagnostico obesidad";
     "diagnostico_obesidad"; "obesity_diagnosis"]);
   ("polidipsia",
    ["polidipsia"; "polydipsia"; "sed excesiva"; "excessive thirst";
     "sed_excesiva"; "excessive_thirst"]);
   ("embarazo",
    ["embarazo"; "pregnancy"; "pregnant"; "gestacion";
     "gestaci" +:+ String "243" (String "n" EmptyString);
     "estado_embarazo"; "pregnancy_status"])]%string.

(** ** services/similarity_engine.py *)

(** A [(column, score, synonym)] triple of the diet policy. *)
Definition Coincidencia : Type := string * Q * string.

Record Detalles := {
  frutas : list Coincidencia;
  vegetales : list Coincidencia;
  generales : list Coincidencia
}.

(** The dictionary a search returns.  The standard policy sets
    ['umbral_usado'] and leaves out ['notas'] and ['detalles']; the diet
    policy does the opposite.  An absent key is [None]; for ['columna'] and
    ['sinonimo_match'], which are always present, [None] is Python's
    [None]. *)
Record MatchResult := {
  encontrada : bool;
  columna : option string;
  confianza : Q;
  sinonimo_match : option string;
  umbral_usado : option Q;
  notas : option string;
  detalles : option Detalles
}.

Record SimilarityEngine := { umbral_similitud : Q }.

(** [__init__]: [umbral_similitud or Config.SIMILARITY_THRESHOLD], where
    both [None] and [0.0] are false. *)
Definition init (umbral : option Q) : SimilarityEngine :=
  {| umbral_similitud :=
       match umbral with
       | Some u => if Qeq_bool u 0 then Config.SIMILARITY_THRESHOLD else u
       | None => Config.SIMILARITY_THRESHOLD
       end |}.

(** [ajustar_umbral]: the engine afterwards and the returned flag. *)
Definition ajustar_umbral (self : SimilarityEngine) (nuevo_umbral : Q)
    : SimilarityEngine * bool :=
  if Qle_bool 0 nuevo_umbral && Qle_bool nuevo_umbral 1
  then ({| umbral_similitud := nuevo_umbral |}, true)
  else (self, false).

(** *** Standard policy *)

(** The state of the search: [(mejor_columna, mejor_score, mejor_sinonimo)]. *)
Definition Mejor : Type := option string * Q * option string.

(** Body of the inner loop over [zip(sinonimos, sinonimos_norm)]. *)
Definition simple_paso (original normalizado : string) (mejor : Mejor)
    (par : string * string) : Mejor :=
  let '(sinonimo, sinonimo_norm) := par in
  let score := calcular_similitud normalizado sinonimo_norm in
  if Py.Qlt_bool mejor.1.2 score then (Some original, score, Some sinonimo)
  else mejor.

(** Body of the outer loop over [candidatos]. *)
Definition simple_candidato (sinonimos sinonimos_norm : list string)
    (mejor : Mejor) (candidato : string * string) : Mejor :=
  let '(original, normalizado) := candidato in
  foldl (simple_paso original normalizado) mejor (zip sinonimos sinonimos_norm).

Definition buscar_variable_simple (self : SimilarityEngine)
    (variable_key : string) (sinonimos columnas : list string) : MatchResult :=
  let candidatos := construir_candidatos columnas in
  let sinonimos_norm := map normalizar_texto sinonimos in
  let '(mejor_columna, mejor_score, mejor_sinonimo) :=
    foldl (simple_candidato sinonimos sinonimos_norm) (None, 0%Q, None)
          candidatos in
  {| encontrada := Qle_bool (umbral_similitud self) mejor_score;
     columna := Py.str_if_truthy mejor_columna;
     confianza := Py.round mejor_score 3;
     sinonimo_match := Py.str_if_truthy mejor_sinonimo;
     umbral_usado := Some (umbral_similitud self);
     notas := None;
     detalles := None |}.

(** *** Diet policy *)

Definition palabras_frutas : list string := ["frut"; "fruit"]%string.
Definition palabras_vegetales : list string :=
  ["vegetal"; "verdura"; "vegetable"]%string.

(** The three lists [(coincidencias_frutas, coincidencias_vegetales,
    coincidencias_generales)]. *)
Definition Cubos : Type :=
  list Coincidencia * list Coincidencia * list Coincidencia.

(** Body of the inner loop over [sinonimos]. *)
Definition dieta_paso (self : SimilarityEngine) (original normalizado : string)
    (cubos : Cubos) (sinonimo : string) : Cubos :=
  let '(coincidencias_frutas, coincidencias_vegetales,
        coincidencias_generales) := cubos in
  let sinonimo_norm := normalizar_texto sinonimo in
  let score := calcular_similitud normalizado sinonimo_norm in
  if Qle_bool (umbral_similitud self) score then
    if existsb (λ palabra, Py.contains palabra normalizado) palabras_frutas
    then (coincidencias_frutas ++ [(original, score, sinonimo)],
          coincidencias_vegetales, coincidencias_generales)
    else if existsb (λ palabra, Py.contains palabra normalizado)
                    palabras_vegetales
    then (coincidencias_frutas,
          coincidencias_vegetales ++ [(original, score, sinonimo)],
          coincidencias_generales)
    else (coincidencias_frutas, coincidencias_vegetales,
          coincidencias_generales ++ [(original, score, sinonimo)])
  else cubos.

(** Body of the outer loop over [candidatos]. *)
Definition dieta_candidato (self : SimilarityEngine) (sinonimos : list string)
    (cubos : Cubos) (candidato : string * string) : Cubos :=
  let '(original, normalizado) := candidato in
  foldl (dieta_paso self original normalizado) cubos sinonimos.

(** [xs.sort(key=lambda x: x[1], reverse=True)]: a stable sort, highest
    score first; triples of equal score keep their order. *)
Fixpoint insertar_por_score (x : Coincidencia) (xs : list Coincidencia)
    : list Coincidencia :=
  match xs with
  | [] => [x]
  | y :: ys =>
      if Py.Qlt_bool x.1.2 y.1.2 then y :: insertar_por_score x ys
      else x :: y :: ys
  end.

Definition sort_por_score (xs : list Coincidencia) : list Coincidencia :=
  foldr insertar_por_score [] xs.

(** The f-string [f"{etiqueta}: {len(xs)} columna(s)"], added to [notas]
    when [xs] is not empty. *)
Definition nota_de (etiqueta : string) (xs : list Coincidencia)
    : list string :=
  match xs with
  | [] => []
  | _ => [etiqueta +:+ ": " +:+ pretty (length xs) +:+ " columna(s)"]
  end.

Definition buscar_variable_dieta_especial (self : SimilarityEngine)
    (sinonimos columnas : list string) : MatchResult :=
  let candidatos := construir_candidatos columnas in
  let '(coincidencias_frutas, coincidencias_vegetales,
        coincidencias_generales) :=
    foldl (dieta_candidato self sinonimos) ([], [], []) candidatos in
  let todas_coincidencias :=
    coincidencias_frutas ++ coincidencias_vegetales
      ++ coincidencias_generales in
  match sort_por_score todas_coincidencias with
  | mejor_match :: _ =>
      let notas :=
        nota_de "Frutas detectadas" coincidencias_frutas
          ++ nota_de "Vegetales detectados" coincidencias_vegetales
          ++ nota_de "Dieta general" coincidencias_generales in
      {| encontrada := true;
         columna := Some mejor_match.1.1;
         confianza := Py.round mejor_match.1.2 3;
         sinonimo_match := Some mejor_match.2;
         umbral_usado := None;
         notas := Some (Py.join "; " notas);
         detalles := Some {| frutas := coincidencias_frutas;
                             vegetales := coincidencias_vegetales;
                             generales := coincidencias_generales |} |}
  | [] =>
      {| encontrada := false;
         columna := None;
         confianza := 0;
         sinonimo_match := None;
         umbral_usado := None;
         notas := Some "No se encontraron coincidencias de dieta"%string;
         detalles := Some {| frutas := []; vegetales := []; generales := [] |} |}
  end.

(** *** Dispatch and orchestration *)

Definition buscar_variable (self : SimilarityEngine) (variable_key : string)
    (sinonimos columnas : list string) : MatchResult :=
  if bool_decide (Py.lower variable_key = "dieta"%string)
  then buscar_variable_dieta_especial self sinonimos columnas
  else buscar_variable_simple self variable_key sinonimos columnas.

(** A result after [resultado['variable'] = variable_key]. *)
Record Resultado := {
  variable : string;
  resultado : MatchResult
}.

(** [variables_config] is a [dict], iterated in insertion order: an
    association list. *)
Definition buscar_todas_variables (self : SimilarityEngine)
    (variables_config : list (string * list string)) (columnas : list string)
    : list Resultado :=
  foldl (λ resultados kv,
           resultados ++ [{| variable := kv.1;
                             resultado := buscar_variable self kv.1 kv.2 columnas |}])
        [] variables_config.

(** *** Statistics *)

(** The dictionary of statistics; its key ['umbral_usado'] is the field
    [stats_umbral_usado]. *)
Record SearchStatistics := {
  total_variables : nat;
  variables_encontradas : nat;
  variables_faltantes : list string;
  cobertura_porcentaje : Q;
  confianza_promedio : Q;
  stats_umbral_usado : Q
}.

Definition obtener_estadisticas_busqueda (self : SimilarityEngine)
    (resultados : list Resultado) : SearchStatistics :=
  let total_variables := length resultados in
  let variables_encontradas :=
    foldl (λ acc r, if encontrada (resultado r) then acc + 1 else acc)
          0 resultados in
  let variables_faltantes :=
    foldr (λ r acc, if negb (encontrada (resultado r)) then variable r :: acc
                    else acc)
          [] resultados in
  let confianzas :=
    foldr (λ r acc, if encontrada (resultado r)
                    then confianza (resultado r) :: acc else acc)
          [] resultados in
  let confianza_promedio :=
    match confianzas with
    | [] => 0%Q
    | _ => Py.round (Py.fdiv (Py.sum confianzas)
                             (inject_Z (Z.of_nat (length confianzas)))) 3
    end in
  let cobertura :=
    if 0 <? total_variables
    then Py.round (Py.fmul (Py.truediv variables_encontradas total_variables)
                           100) 1
    else 0%Q in
  {| total_variables := total_variables;
     variables_encontradas := variables_encontradas;
     variables_faltantes := variables_faltantes;
     cobertura_porcentaje := cobertura;
     confianza_promedio := confianza_promedio;
     stats_umbral_usado := umbral_similitud self |}.

(** *** Suggestions *)

(** The accented letters of the messages, as code points. *)
Definition a_aguda : string := String "225"%char EmptyString.
Definition e_aguda : string := String "233"%char EmptyString.
Definition i_aguda : string := String "237"%char EmptyString.
Definition o_aguda : string := String "243"%char EmptyString.

(** [columnas_usadas] holds the values of ['columna'], which can be
    [None]; the sets are sets of optional strings. *)
Definition obtener_sugerencias_mejora (self : SimilarityEngine)
    (resultados : list Resultado) (columnas : list string) : list string :=
  let sugerencias := [] in
  let no_encontradas :=
    map variable
        (List.filter (λ r, negb (encontrada (resultado r))) resultados) in
  let sugerencias :=
    match no_encontradas with
    | [] => sugerencias
    | _ => sugerencias
           ++ ["Considere agregar sin" +:+ o_aguda +:+ "nimos para: "
               +:+ Py.join ", " no_encontradas]
    end in
  let baja_confianza :=
    List.filter (λ r, encontrada (resultado r)
                      && Py.Qlt_bool (confianza (resultado r)) (9 # 10))
                resultados in
  let sugerencias :=
    match baja_confianza with
    | [] => sugerencias
    | _ =>
        let variables_bc := map variable baja_confianza in
        sugerencias
        ++ ["Revise las coincidencias con baja confianza: "
            +:+ Py.join ", " variables_bc]
    end in
  let columnas_usadas : gset (option string) :=
    list_to_set
      (map (λ r, columna (resultado r))
           (List.filter (λ r, encontrada (resultado r)) resultados)) in
  let columnas_no_usadas : gset (option string) :=
    list_to_set (map Some columnas) ∖ columnas_usadas in
  if Py.Qlt_bool (inject_Z (Z.of_nat (length columnas)) * (1 # 2))
                 (inject_Z (Z.of_nat (size columnas_no_usadas)))
  then sugerencias
       ++ ["Hay " +:+ pretty (size columnas_no_usadas)
           +:+ " columnas sin clasificar. "
           +:+ "Considere revisar si contienen informaci" +:+ o_aguda
           +:+ "n relevante."]
  else sugerencias.

(** ** services/report_generator.py *)

Module ReportGenerator.

Record ClasificacionConfianza := {
  alta : nat;
  media : nat;
  baja : nat
}.

(** The dictionary [_generar_resumen] returns; its key
    ['confianza_promedio'] is the field [resumen_confianza_promedio]. *)
Record Resumen := {
  cobertura_general : Q;
  variables_criticas_encontradas : nat;
  total_variables_criticas : nat;
  resumen_confianza_promedio : Q;
  clasificacion_confianza : ClasificacionConfianza;
  estado_general : string;
  principales_hallazgos : list string
}.

Definition variables_criticas : list string :=
  ["glucosa"; "bmi"; "edad"; "hba1c"]%string.

Definition _determinar_estado_general (estadisticas : SearchStatistics)
    : string :=
  let cobertura := cobertura_porcentaje estadisticas in
  let confianza := confianza_promedio estadisticas in
  if Qle_bool 80 cobertura && Qle_bool (9 # 10) confianza then "excelente"
  else if Qle_bool 60 cobertura && Qle_bool (8 # 10) confianza then "bueno"
  else if Qle_bool 40 cobertura && Qle_bool (7 # 10) confianza then "regular"
  else "deficiente".

Section Reporte.
(** The text an f-string gives for a float: Python's shortest decimal
    that reads back as the same float. *)
Variable float_str : Q → string.

Definition _generar_hallazgos_principales (resultados : list Resultado)
    (estadisticas : SearchStatistics) : list string :=
  let hallazgos := [] in
  let cobertura := cobertura_porcentaje estadisticas in
  let hallazgos :=
    if Qle_bool 80 cobertura
    then hallazgos ++ ["Excelente cobertura de variables ("
                       +:+ float_str cobertura +:+ "%)"]
    else if Qle_bool 60 cobertura
    then hallazgos ++ ["Buena cobertura de variables ("
                       +:+ float_str cobertura +:+ "%)"]
    else hallazgos ++ ["Cobertura limitada de variables ("
                       +:+ float_str cobertura +:+ "%)"] in
  let criticas_encontradas :=
    List.filter (λ r, bool_decide (variable r ∈ variables_criticas)
                      && encontrada (resultado r))
                resultados in
  let hallazgos :=
    if length criticas_encontradas =? length variables_criticas
    then hallazgos ++ ["Todas las variables cr" +:+ i_aguda +:+ "ticas est"
                       +:+ a_aguda +:+ "n presentes"]
    else if Qle_bool (inject_Z (Z.of_nat (length variables_criticas))
                      * (3 # 4))
                     (inject_Z (Z.of_nat (length criticas_encontradas)))
    then hallazgos ++ ["La mayor" +:+ i_aguda +:+ "a de variables cr"
                       +:+ i_aguda +:+ "ticas est" +:+ a_aguda
                       +:+ "n presentes"]
    else hallazgos ++ ["Faltan variables cr" +:+ i_aguda
                       +:+ "ticas importantes"] in
  let confianza_promedio := confianza_promedio estadisticas in
  let hallazgos :=
    if Qle_bool (9 # 10) confianza_promedio
    then hallazgos ++ ["Alta confianza en las coincidencias encontradas"]
    else if Qle_bool (8 # 10) confianza_promedio
    then hallazgos ++ ["Confianza moderada en las coincidencias"]
    else hallazgos ++ ["Baja confianza en algunas coincidencias"] in
  let dieta_resultado :=
    List.find (λ r, String.eqb (variable r) "dieta") resultados in
  match dieta_resultado with
  | Some dieta_resultado =>
      if encontrada (resultado dieta_resultado) then
        match notas (resultado dieta_resultado) with
        | Some (String _ _ as notas) =>
            hallazgos ++ ["Informaci" +:+ o_aguda +:+ "n diet" +:+ e_aguda
                          +:+ "tica detectada: " +:+ notas]
        | _ => hallazgos
        end
      else hallazgos
  | None => hallazgos
  end.

Definition _generar_resumen (resultados : list Resultado)
    (estadisticas : SearchStatistics) : Resumen :=
  let variables_criticas_encontradas :=
    map variable
        (List.filter (λ r, bool_decide (variable r ∈ variables_criticas)
                           && encontrada (resultado r))
                     resultados) in
  let alta_confianza :=
    List.filter (λ r, encontrada (resultado r)
                      && Qle_bool (9 # 10) (confianza (resultado r)))
                resultados in
  let media_confianza :=
    List.filter (λ r, encontrada (resultado r)
                      && (Qle_bool (7 # 10) (confianza (resultado r))
                          && Py.Qlt_bool (confianza (resultado r)) (9 # 10)))
                resultados in
  let baja_confianza :=
    List.filter (λ r, encontrada (resultado r)
                      && Py.Qlt_bool (confianza (resultado r)) (7 # 10))
                resultados in
  {| cobertura_general := cobertura_porcentaje estadisticas;
     variables_criticas_encontradas := length variables_criticas_encontradas;
     total_variables_criticas := length variables_criticas;
     resumen_confianza_promedio := confianza_promedio estadisticas;
     clasificacion_confianza :=
       {| alta := length alta_confianza;
          media := length media_confianza;
          baja := length baja_confianza |};
     estado_general := _determinar_estado_general estadisticas;
     principales_hallazgos :=
       _generar_hallazgos_principales resultados estadisticas |}.
End Reporte.





End ReportGenerator.

(** ** models/variable_manager.py *)

Module VariableManager.

(** *** Python dictionaries with string keys

    The entries in insertion order, no key twice. *)

Section Dict.
Context {V : Type}.

(** [d.get(k)]. *)
Fixpoint dict_get (k : string) (d : list (string * V)) : option V :=
  match d with
  | [] => None
  | (k', v) :: d' => if String.eqb k k' then Some v else dict_get k d'
  end.

(** [k in d]. *)
Definition dict_in (k : string) (d : list (string * V)) : bool :=
  match dict_get k d with
  | Some _ => true
  | None => false
  end.

(** [d[k] = v]: a key that is present keeps its place, a new key goes to
    the end. *)
Fixpoint dict_set (k : string) (v : V) (d : list (string * V))
    : list (string * V) :=
  match d with
  | [] => [(k, v)]
  | (k', v') :: d' =>
      if String.eqb k k' then (k, v) :: d' else (k', v') :: dict_set k v d'
  end.

(** [del d[k]], for a key that is present. *)
Fixpoint dict_del (k : string) (d : list (string * V)) : list (string * V) :=
  match d with
  | [] => []
  | (k', v') :: d' =>
      if String.eqb k k' then d' else (k', v') :: dict_del k d'
  end.
End Dict.

(** *** The state

    The synonym lists are Python list objects, which the code changes in
    place ([append], [remove]) and shares: [DEFAULT_VARIABLES.copy()] is a
    new dictionary holding the same lists as the module global.  So the
    lists live in a store, a dictionary maps a key to a reference (an
    index of the store), and the state holds the store, the global
    [DEFAULT_VARIABLES] and the manager's [self._variables]. *)
Record Mundo := {
  listas : list (list string);
  default_variables : list (string * nat);
  _variables : list (string * nat)
}.

(** The list a reference stands for.  Every reference of a dictionary is
    in the store. *)
Definition deref (m : Mundo) (l : nat) : list string :=
  default [] (listas m !! l).

(** A new list object. *)
Definition alloc (m : Mundo) (v : list string) : Mundo * nat :=
  ({| listas := listas m ++ [v];
      default_variables := default_variables m;
      _variables := _variables m |},
   length (listas m)).

(** [self._variables = d]. *)
Definition con_variables (m : Mundo) (d : list (string * nat)) : Mundo :=
  {| listas := listas m;
     default_variables := default_variables m;
     _variables := d |}.

(** The state once [config.settings] is imported: [DEFAULT_VARIABLES]
    with its eight lists, and no manager yet. *)
Definition mundo_inicial : Mundo :=
  {| listas := map snd DEFAULT_VARIABLES;
     default_variables := imap (λ i kv, (kv.1, i)) DEFAULT_VARIABLES;
     _variables := [] |}.

(** *** The manager

    [archivo] is the dictionary [json.load] reads from the configuration
    file, or [None] when the file does not exist or cannot be read. *)
Definition _cargar_variables (m : Mundo)
    (archivo : option (list (string * list string)))
    : Mundo * list (string * nat) :=
  match archivo with
  | Some contenido =>
      foldl (λ (st : Mundo * list (string * nat)) kv,
               let '(m, l) := alloc st.1 kv.2 in
               (m, dict_set kv.1 l st.2))
            (m, []) contenido
  | None => (m, default_variables m)
  end.

Definition init (m : Mundo) (archivo : option (list (string * list string)))
    : Mundo :=
  let '(m, variables) := _cargar_variables m archivo in
  con_variables m variables.

(** The dictionary returned holds the manager's own list objects; here
    with the contents they have at the time of the call. *)
Definition obtener_todas_variables (m : Mundo)
    : list (string * list string) :=
  map (λ kv, (kv.1, deref m kv.2)) (_variables m).

Definition obtener_variable (m : Mundo) (nombre : string)
    : option (list string) :=
  match dict_get (Py.lower nombre) (_variables m) with
  | Some l => Some (deref m l)
  | None => None
  end.

(** In the functions that write the file, [guardado] is what
    [_guardar_variables] returns: [True], or [False] on an [IOError]. *)
Definition crear_variable (m : Mundo) (nombre : string)
    (sinonimos : list string) (guardado : bool) : Mundo * bool :=
  let nombre_lower := Py.strip (Py.lower nombre) in
  if String.eqb nombre_lower "" || dict_in nombre_lower (_variables m)
  then (m, false)
  else
    let sinonimos_limpios :=
      map Py.strip
          (List.filter (λ s, negb (String.eqb (Py.strip s) "")) sinonimos) in
    match sinonimos_limpios with
    | [] => (m, false)
    | _ =>
        let '(m, l) := alloc m sinonimos_limpios in
        (con_variables m (dict_set nombre_lower l (_variables m)), guardado)
    end.

Definition actualizar_variable (m : Mundo) (nombre : string)
    (sinonimos : list string) (guardado : bool) : Mundo * bool :=
  let nombre_lower := Py.lower nombre in
  if negb (dict_in nombre_lower (_variables m)) then (m, false)
  else
    let sinonimos_limpios :=
      map Py.strip
          (List.filter (λ s, negb (String.eqb (Py.strip s) "")) sinonimos) in
    match sinonimos_limpios with
    | [] => (m, false)
    | _ =>
        let '(m, l) := alloc m sinonimos_limpios in
        (con_variables m (dict_set nombre_lower l (_variables m)), guardado)
    end.

Definition eliminar_variable (m : Mundo) (nombre : string) (guardado : bool)
    : Mundo * bool :=
  let nombre_lower := Py.lower nombre in
  if negb (dict_in nombre_lower (_variables m)) then (m, false)
  else (con_variables m (dict_del nombre_lower (_variables m)), guardado).

Definition existe_variable (m : Mundo) (nombre : string) : bool :=
  dict_in (Py.lower nombre) (_variables m).

Definition obtener_nombres_variables (m : Mundo) : list string :=
  map fst (_variables m).

Definition contar_variables (m : Mundo) : nat := length (_variables m).

Definition resetear_a_predeterminadas (m : Mundo) (guardado : bool)
    : Mundo * bool :=
  (con_variables m (default_variables m), guardado).

Definition agregar_sinonimo (m : Mundo) (nombre_variable sinonimo : string)
    (guardado : bool) : Mundo * bool :=
  let nombre_lower := Py.lower nombre_variable in
  let sinonimo_limpio := Py.strip sinonimo in
  match dict_get nombre_lower (_variables m) with
  | None => (m, false)
  | Some l =>
      if String.eqb sinonimo_limpio "" then (m, false)
      else if negb (bool_decide (sinonimo_limpio ∈ deref m l))
      then ({| listas := <[l := deref m l ++ [sinonimo_limpio]]> (listas m);
               default_variables := default_variables m;
               _variables := _variables m |},
            guardado)
      else (m, true)
  end.

Definition remover_sinonimo (m : Mundo) (nombre_variable sinonimo : string)
    (guardado : bool) : Mundo * bool :=
  let nombre_lower := Py.lower nombre_variable in
  match dict_get nombre_lower (_variables m) with
  | None => (m, false)
  | Some l =>
      match Py.list_remove sinonimo (deref m l) with
      | Some resto =>
          let m := {| listas := <[l := resto]> (listas m);
                      default_variables := default_variables m;
                      _variables := _variables m |} in
          match deref m l with
          | [] => (m, false)
          | _ => (m, guardado)
          end
      | None => (m, false)
      end
  end.

End VariableManager.

(** * Vocabulary of the properties *)

(** ** Matching blocks *)

Section MatchingVocabulary.
Context {A : Type} `{Countable A}.

(** The positions of [x] in [b], in increasing order, counted from [i]. *)
Fixpoint indices_from (i : nat) (x : A) (b : list A) : list nat :=
  match b with
  | [] => []
  | y :: b' =>
      if decide (x = y) then i :: indices_from (S i) x b'
      else indices_from (S i) x b'
  end.

(** [b2j] lists, for each key it has, every position of the key in [b]. *)
Definition b2j_ok (b : list A) (b2j : gmap A (list nat)) : Prop :=
  ∀ x js, b2j !! x = Some js → js = indices_from 0 x b.

Variables (a b : list A) (b2j : gmap A (list nat)).
Variables (alo ahi blo bhi : nat).

(** The inner loop of [find_longest_match] reaches the pair [(i, j)]:
    both indices lie in their windows, [a[i] == b[j]], and the element is
    a key of [b2j]. *)
Definition cell (i j : nat) : bool :=
  bool_decide (alo ≤ i < ahi ∧ blo ≤ j < bhi)
  && match a !! i, b !! j with
     | Some x, Some y => bool_decide (x = y) && bool_decide (is_Some (b2j !! x))
     | _, _ => false
     end.

(** Length of the longest run of consecutive cells that ends at
    [(i, j)]: the value the loop stores in [newj2len[j]] in row [i]. *)
Fixpoint run (i j : nat) : nat :=
  if cell i j then
    S (match i, j with
       | S i', S j' => run i' j'
       | _, _ => 0
       end)
  else 0.

(** The value [j2lenget(j-1, 0)] reads in row [i]. *)
Definition run_pred (i j : nat) : nat :=
  match i, j with
  | S i', S j' => run i' j'
  | _, _ => 0
  end.

(** [best] is the first longest run among the pairs in [seen], where
    pairs are ordered by row and then by column; with no run at all it is
    the empty match at the start of both windows. *)
Definition best_ok (seen : nat → nat → Prop) (best : Difflib.Match) : Prop :=
  let '(besti, bestj, bestsize) := best in
  (∀ i j, seen i j → run i j ≤ bestsize)
  ∧ (bestsize = 0 → besti = alo ∧ bestj = blo)
  ∧ (0 < bestsize →
     ∃ i j, seen i j ∧ run i j = bestsize
            ∧ besti = i + 1 - bestsize ∧ bestj = j + 1 - bestsize
            ∧ ∀ i' j', i' < i ∨ (i' = i ∧ j' < j) → run i' j' < bestsize).

(** The block [m] pairs equal elements: [a[i+t] == b[j+t]] for every
    [t] below its size. *)
Definition valid_match (m : Difflib.Match) : Prop :=
  let '(i, j, k) := m in
  ∀ t, t < k → is_Some (a !! (i + t)) ∧ a !! (i + t) = b !! (j + t).

(** What the main loop holds before row [i]: the previous row of runs in
    [j2len], and the first longest run of the rows above. *)
Definition rows_inv (i : nat) (st : gmap nat nat * Difflib.Match) : Prop :=
  (∀ j, Difflib.j2lenget_pred st.1 j = run_pred i j)
  ∧ best_ok (λ i' _, i' < i) st.2.

End MatchingVocabulary.

(** Total size of a list of blocks. *)
Definition sum_sizes (blocks : list Difflib.Match) : nat :=
  foldr (λ triple acc, Difflib.match_size triple + acc) 0 blocks.

(** What is left to compare in a queue of windows, on the side of [a]
    and on the side of [b], and a bound on the iterations it can cause. *)
Definition queue_a (queue : list (nat * nat * nat * nat)) : nat :=
  foldr (λ '(alo, ahi, blo, bhi) acc, (ahi - alo) + acc) 0 queue.

Definition queue_b (queue : list (nat * nat * nat * nat)) : nat :=
  foldr (λ '(alo, ahi, blo, bhi) acc, (bhi - blo) + acc) 0 queue.

Definition queue_steps (queue : list (nat * nat * nat * nat)) : nat :=
  foldr (λ '(alo, ahi, blo, bhi) acc, 2 * (ahi - alo) + 1 + acc) 0 queue.

Definition queue_min (queue : list (nat * nat * nat * nat)) : nat :=
  foldr (λ '(alo, ahi, blo, bhi) acc, (ahi - alo) `min` (bhi - blo) + acc)
        0 queue.

(** The slice [l[lo:hi]]. *)
Definition segment {A : Type} (l : list A) (lo hi : nat) : list A :=
  take (hi - lo) (drop lo l).

(** A window whose two sides are the same sequence. *)
Definition same_window {A : Type} (a b : list A)
    (w : nat * nat * nat * nat) : Prop :=
  let '(alo, ahi, blo, bhi) := w in
  ahi - alo = bhi - blo ∧ segment a alo ahi = segment b blo bhi.

(** ** The searches *)

(** Score of a column against a synonym, as both loops compute it. *)
Definition score_par (columna sinonimo : string) : Q :=
  calcular_similitud (normalizar_texto columna) (normalizar_texto sinonimo).

(** The (column, synonym) pairs in the order the nested loops visit them:
    columns in list order, and for each column the synonyms in list order. *)
Definition pares (sinonimos columnas : list string) : list (string * string) :=
  flat_map (λ c, map (λ s, (c, s)) sinonimos) columnas.

(** One step of the scan, on the pair [p]. *)
Definition paso_par (mejor : Mejor) (p : string * string) : Mejor :=
  if Py.Qlt_bool mejor.1.2 (score_par p.1 p.2)
  then (Some p.1, score_par p.1 p.2, Some p.2)
  else mejor.

(** [p] sits at index [n], no pair scores higher, and every earlier pair
    scores strictly lower: the winner of a strict [>] scan. *)
Definition primer_maximo (ps : list (string * string)) (n : nat)
    (p : string * string) : Prop :=
  ps !! n = Some p
  ∧ (∀ q, q ∈ ps → (score_par q.1 q.2 <= score_par p.1 p.2)%Q)
  ∧ (∀ m q, m < n → ps !! m = Some q →
            (score_par q.1 q.2 < score_par p.1 p.2)%Q).

(** What the scan holds after the pairs [ps]. *)
Definition scan_inv (ps : list (string * string)) (mejor : Mejor) : Prop :=
  (mejor = (None, 0%Q, None) ∧ ∀ q, q ∈ ps → (score_par q.1 q.2 <= 0)%Q)
  ∨ (∃ n c s, mejor = (Some c, score_par c s, Some s)
              ∧ (0 < score_par c s)%Q ∧ primer_maximo ps n (c, s)).

(** Every (column, score, synonym) triple, in the order the loops visit
    the pairs. *)
Definition coincidencias (sinonimos columnas : list string)
    : list Coincidencia :=
  flat_map (λ c, map (λ s, (c, score_par c s, s)) sinonimos) columnas.

(** The accepted triples: those whose score reaches the threshold. *)
Definition aceptada (self : SimilarityEngine) (x : Coincidencia) : bool :=
  Qle_bool (umbral_similitud self) x.1.2.

Definition aceptadas (self : SimilarityEngine)
    (sinonimos columnas : list string) : list Coincidencia :=
  List.filter (aceptada self) (coincidencias sinonimos columnas).

(** The three buckets of the diet policy. *)
Inductive Cubo := Fruta | Vegetal | General.

#[global] Instance Cubo_eq_dec : EqDecision Cubo.
Proof. solve_decision. Defined.

(** The bucket of a column: a fruit keyword in its normalized text is
    looked for first, then a vegetable keyword; otherwise the general
    bucket. *)
Definition cubo_de (columna : string) : Cubo :=
  let normalizado := normalizar_texto columna in
  if existsb (λ palabra, Py.contains palabra normalizado) palabras_frutas
  then Fruta
  else if existsb (λ palabra, Py.contains palabra normalizado)
                  palabras_vegetales
  then Vegetal
  else General.

(** The triple [x] belongs to bucket [k]. *)
Definition en_cubo (k : Cubo) (x : Coincidencia) : bool :=
  bool_decide (cubo_de x.1.1 = k).

(** The three lists a list of triples splits into, and their
    concatenation bucket by bucket. *)
Definition cubos_de (xs : list Coincidencia) : Cubos :=
  (List.filter (en_cubo Fruta) xs, List.filter (en_cubo Vegetal) xs,
   List.filter (en_cubo General) xs).

Definition cubos_app (x y : Cubos) : Cubos :=
  (x.1.1 ++ y.1.1, x.1.2 ++ y.1.2, x.2 ++ y.2).

(** The state of the standard scan after the last pair; it does not
    depend on the engine. *)
Definition mejor_simple (sinonimos columnas : list string) : Mejor :=
  foldl (simple_candidato sinonimos (map normalizar_texto sinonimos))
        (None, 0%Q, None) (construir_candidatos columnas).

(** The engine obtained from the default one by a call of
    [ajustar_umbral]. *)
Definition engine_con (umbral : Q) : SimilarityEngine :=
  (ajustar_umbral (init None) umbral).1.



(** The statistics in the words of the specification. *)
Definition encontrados (resultados : list Resultado) : list Resultado :=
  List.filter (λ r, encontrada (resultado r)) resultados.

Definition faltantes (resultados : list Resultado) : list Resultado :=
  List.filter (λ r, negb (encontrada (resultado r))) resultados.

(** The mean [sum(xs) / len(xs)] and the percentage
    [(found / total) * 100], evaluated on floats in this order. *)
Definition media (xs : list Q) : Q :=
  Py.fdiv (Py.sum xs) (inject_Z (Z.of_nat (length xs))).

Definition porcentaje (found total : nat) : Q :=
  Py.fmul (Py.truediv found total) 100.

(** Some character occurs in both strings. *)
Definition comparten_caracter (texto1 texto2 : string) : Prop :=
  ∃ c : ascii, c ∈ list_ascii_of_string texto1
               ∧ c ∈ list_ascii_of_string texto2.

(** [n] copies of the character [c]. *)
Fixpoint repetir (n : nat) (c : ascii) : string :=
  match n with
  | 0 => EmptyString
  | S n' => String c (repetir n' c)
  end.

(** ** Text utilities *)

(** The characters of [s] are of [a-z0-9] or single spaces; with
    [prev_space] set, the character before [s] was a space, so [s] does
    not start with one. *)
Fixpoint espaciado (prev_space : bool) (s : string) : bool :=
  match s with
  | EmptyString => true
  | String c s' =>
      if Py.is_az09 c then espaciado false s'
      else Ascii.eqb c " " && negb prev_space && espaciado true s'
  end.

(** As [espaciado], and [s] does not end with a space either. *)
Fixpoint palabras (prev_space : bool) (s : string) : bool :=
  match s with
  | EmptyString => negb prev_space
  | String c s' =>
      if Py.is_az09 c then palabras false s'
      else Ascii.eqb c " " && negb prev_space && palabras true s'
  end.

(** A normalized text: words of [a-z0-9] with one space between two
    words, and nothing else. *)
Definition es_normal (t : string) : bool :=
  match t with
  | EmptyString => true
  | _ => palabras true t
  end.

(** A synonym as [limpiar_lista_sinonimos] returns it: not empty, without
    white space at either end, and without a comma. *)
Definition sinonimo_limpio (x : string) : Prop :=
  x ≠ EmptyString ∧ Py.strip x = x ∧ ","%char ∉ list_ascii_of_string x.

(** The winner of a scan with a strict [>] over the scores [f]: [x] sits
    at index [n], nothing scores higher, and everything before scores
    strictly lower. *)
Definition es_primer_maximo {A : Type} (f : A → Q) (xs : list A) (n : nat)
    (x : A) : Prop :=
  xs !! n = Some x
  ∧ (∀ y, y ∈ xs → (f y <= f x)%Q)
  ∧ (∀ m y, m < n → xs !! m = Some y → (f y < f x)%Q).


(** ** The engine *)

(** A threshold that [ajustar_umbral] accepts. *)
Definition en_rango (u : Q) : bool := Qle_bool 0 u && Qle_bool u 1.

(** The engine after a sequence of calls of [ajustar_umbral]. *)
Definition ajustes (self : SimilarityEngine) (solicitudes : list Q)
    : SimilarityEngine :=
  foldl (λ e u, (ajustar_umbral e u).1) self solicitudes.

(** The score of a (column, score, synonym) triple. *)
Definition score_de (x : Coincidencia) : Q := x.1.2.

(** The accepted triples in the order the diet policy ranks them: fruit
    columns first, then vegetable columns, then the others. *)
Definition aceptadas_por_cubo (self : SimilarityEngine)
    (sinonimos columnas : list string) : list Coincidencia :=
  let acc := aceptadas self sinonimos columnas in
  List.filter (en_cubo Fruta) acc ++ List.filter (en_cubo Vegetal) acc
  ++ List.filter (en_cubo General) acc.

(** The suggestion that names the variables without a match. *)
Definition aviso_faltantes (variables : list string) : string :=
  "Considere agregar sin" +:+ o_aguda +:+ "nimos para: "
  +:+ Py.join ", " variables.

(** The suggestion about [n] columns that no variable uses. *)
Definition aviso_columnas (n : nat) : string :=
  "Hay " +:+ pretty n +:+ " columnas sin clasificar. "
  +:+ "Considere revisar si contienen informaci" +:+ o_aguda
  +:+ "n relevante.".

(** ** The report *)



(** The four states, from worst to best. *)
Definition rango_estado (estado : string) : nat :=
  if String.eqb estado "excelente" then 3
  else if String.eqb estado "bueno" then 2
  else if String.eqb estado "regular" then 1
  else 0.

(** ** The variable manager *)

Section GestorVocabulario.
Import VariableManager.

(** A dictionary of the state: no key twice, no list object under two
    keys, every reference in the store. *)
Definition dict_ok (m : Mundo) (d : list (string * nat)) : Prop :=
  NoDup (map fst d) ∧ NoDup (map snd d)
  ∧ Forall (λ kv, kv.2 < length (listas m)) d.

(** The states the program can be in. *)
Definition bien_formado (m : Mundo) : Prop :=
  dict_ok m (default_variables m) ∧ dict_ok m (_variables m).

(** [[s.strip() for s in sinonimos if s.strip()]], the list that
    [crear_variable] and [actualizar_variable] store. *)
Definition sinonimos_limpios (sinonimos : list string) : list string :=
  map Py.strip
      (List.filter (λ s, negb (String.eqb (Py.strip s) "")) sinonimos).

(** Every variable of the manager has at least one synonym. *)
Definition con_sinonimos (m : Mundo) : Prop :=
  Forall (λ kv, deref m kv.2 ≠ []) (_variables m).

(** The list objects of [DEFAULT_VARIABLES] hold what the source file
    gives them. *)
Definition predeterminadas_intactas (m : Mundo) : Prop :=
  map (λ kv, (kv.1, deref m kv.2)) (default_variables m) = DEFAULT_VARIABLES.
End GestorVocabulario.

(** * Properties *)

(** ** difflib: the index of [b] *)

Section ChainB.
Context {A : Type} `{Countable A}.

Lemma indices_from_elem (i : nat) (x : A) (b : list A) (j : nat) :
  j ∈ indices_from i x b ↔ i ≤ j ∧ b !! (j - i) = Some x.
Proof.
  revert i. induction b as [|y b IH]; intros i; cbn [indices_from].
  - rewrite elem_of_nil, lookup_nil. split; [done | by intros [_ ?]].
  - assert (Hstep : j ∈ indices_from (S i) x b
                    ↔ i < j ∧ (y :: b) !! (j - i) = Some x).
    { rewrite IH. split.
      - intros [Hle Hj]. split; [lia|].
        replace (j - i) with (S (j - S i)) by lia. done.
      - intros [Hlt Hj]. split; [lia|].
        replace (j - i) with (S (j - S i)) in Hj by lia. done. }
    destruct (decide (x = y)) as [Hxy|Hxy].
    + rewrite elem_of_cons, Hstep. split.
      * intros [-> | [Hlt Hj]]; [|split; [lia|done]].
        split; [lia|]. rewrite Nat.sub_diag. cbn. by rewrite Hxy.
      * intros [Hle Hj]. destruct (decide (j = i)) as [->|Hne]; [by left|].
        right. split; [lia|done].
    + rewrite Hstep. split.
      * intros [Hlt Hj]. split; [lia|done].
      * intros [Hle Hj]. destruct (decide (j = i)) as [->|Hne].
        -- rewrite Nat.sub_diag in Hj. cbn in Hj. congruence.
        -- split; [lia|done].
Qed.

Lemma indices_from_sorted (i : nat) (x : A) (b : list A) :
  StronglySorted lt (indices_from i x b).
Proof.
  revert i. induction b as [|y b IH]; intros i; cbn [indices_from].
  - constructor.
  - case_decide; [|apply IH]. constructor; [apply IH|].
    apply Forall_forall. intros j [Hj _]%indices_from_elem. lia.
Qed.

Lemma chain_b_index_lookup (i : nat) (b : list A) (b2j : gmap A (list nat))
    (x : A) :
  Difflib.chain_b_index i b b2j !! x
  = match indices_from i x b with
    | [] => b2j !! x
    | js => Some (default [] (b2j !! x) ++ js)
    end.
Proof.
  revert i b2j. induction b as [|y b IH]; intros i b2j;
    cbn [Difflib.chain_b_index indices_from]; [done|].
  rewrite IH. case_decide as Hxy.
  - subst y. rewrite lookup_insert_eq. cbn [default].
    destruct (indices_from (S i) x b); [done|].
    unfold id. by rewrite <- app_assoc.
  - by rewrite lookup_insert_ne.
Qed.

Lemma chain_b_ok (b : list A) : b2j_ok b (Difflib.chain_b b).
Proof.
  intros x js Hx. unfold Difflib.chain_b in Hx.
  apply map_lookup_filter_Some in Hx as [Hx _].
  rewrite chain_b_index_lookup, lookup_empty in Hx.
  destruct (indices_from 0 x b); [done|]. cbn in Hx. congruence.
Qed.

(** Below 200 elements nothing is popular: every element of [b] is a
    key. *)
Lemma chain_b_short (b : list A) (x : A) (j : nat) :
  length b < 200 → b !! j = Some x → is_Some (Difflib.chain_b b !! x).
Proof.
  intros Hlen Hj. exists (indices_from 0 x b).
  unfold Difflib.chain_b. apply map_lookup_filter_Some. split.
  - rewrite chain_b_index_lookup, lookup_empty.
    assert (Hin : j ∈ indices_from 0 x b)
      by (apply indices_from_elem; rewrite Nat.sub_0_r; split; [lia|done]).
    destruct (indices_from 0 x b); [by apply elem_of_nil in Hin|done].
  - cbn. unfold Difflib.is_popular.
    destruct (200 <=? length b) eqn:E; [|done].
    apply Nat.leb_le in E. lia.
Qed.

End ChainB.

(** ** difflib: the main loop of find_longest_match *)

Section MainLoop.
Context {A : Type} `{Countable A}.
Variables (a b : list A) (b2j : gmap A (list nat)).
Variables (alo ahi blo bhi : nat).
Hypothesis Hb2j : b2j_ok b b2j.

Local Abbreviation wcell := (cell a b b2j alo ahi blo bhi).
Local Abbreviation wrun := (run a b b2j alo ahi blo bhi).
Local Abbreviation wrun_pred := (run_pred a b b2j alo ahi blo bhi).
Local Abbreviation wbest_ok := (best_ok a b b2j alo ahi blo bhi).
Local Abbreviation rows_inv := (rows_inv a b b2j alo ahi blo bhi).

Lemma cell_spec (i j : nat) :
  wcell i j = true
  ↔ alo ≤ i < ahi ∧ blo ≤ j < bhi
    ∧ ∃ x, a !! i = Some x ∧ b !! j = Some x ∧ is_Some (b2j !! x).
Proof.
  unfold cell. rewrite andb_true_iff, bool_decide_eq_true.
  destruct (a !! i) as [x|], (b !! j) as [y|].
  - rewrite andb_true_iff, !bool_decide_eq_true. split.
    + intros [[Hi Hj] [-> Hkey]]. split; [done|]. split; [done|]. by exists y.
    + intros (Hi & Hj & z & [= ->] & [= ->] & Hkey). done.
  - split; [by intros [_ ?]|]. by intros (_ & _ & z & _ & ? & _).
  - split; [by intros [_ ?]|]. by intros (_ & _ & z & ? & _).
  - split; [by intros [_ ?]|]. by intros (_ & _ & z & ? & _).
Qed.

Lemma cell_false_other (i j : nat) (x : A) :
  a !! i = Some x → b !! j ≠ Some x → wcell i j = false.
Proof.
  intros Hi Hj. apply not_true_is_false.
  intros (_ & _ & y & Hy & Hy' & _)%cell_spec. congruence.
Qed.

Lemma run_unfold (i j : nat) :
  wrun i j = if wcell i j then S (wrun_pred i j) else 0.
Proof. by destruct i, j. Qed.

Lemma run_pos (i j : nat) : 0 < wrun i j ↔ wcell i j = true.
Proof. rewrite run_unfold. destruct (wcell i j); split; (done || lia). Qed.

Lemma run_no_cell (i j : nat) : wcell i j = false → wrun i j = 0.
Proof. intros Hc. by rewrite run_unfold, Hc. Qed.

Lemma run_bound (i j : nat) : wrun i j ≤ i + 1 - alo ∧ wrun i j ≤ j + 1 - blo.
Proof.
  revert j. induction i as [|i IH]; intros j; rewrite run_unfold;
    destruct (wcell _ j) eqn:Hc; try lia;
    apply cell_spec in Hc as (Hi & Hj & _); cbn [run_pred].
  - lia.
  - destruct j as [|j]; [lia|]. specialize (IH j).
    destruct (decide (0 < wrun i j)) as [Hpos|Hz]; [|lia].
    apply run_pos, cell_spec in Hpos as (Hi' & Hj' & _). lia.
Qed.

Lemma run_in_window (i j : nat) : 0 < wrun i j → i < ahi ∧ j < bhi.
Proof. intros (Hi & Hj & _)%run_pos%cell_spec. lia. Qed.

(** Pairs without a run do not matter to [best_ok]. *)
Lemma best_ok_extend (seen seen' : nat → nat → Prop) (best : Difflib.Match) :
  (∀ i j, seen i j → seen' i j) →
  (∀ i j, seen' i j → seen i j ∨ wrun i j = 0) →
  wbest_ok seen best → wbest_ok seen' best.
Proof.
  destruct best as [[bi bj] bs]. intros Hsub Hnew (Hmax & Hzero & Hpos).
  split; [|split].
  - intros i j [Hs | Hz]%Hnew; [by apply Hmax | lia].
  - done.
  - intros Hbs. destruct (Hpos Hbs) as (i & j & Hs & Hrest).
    exists i, j. split; [by apply Hsub | done].
Qed.

(** Recording the pair [(i, j)], whose run is [k]. *)
Lemma best_ok_record (lo i j : nat) (best : Difflib.Match) :
  lo ≤ j →
  (∀ j', lo ≤ j' < j → wrun i j' = 0) →
  wbest_ok (λ i' j', i' < i ∨ (i' = i ∧ j' < lo)) best →
  wbest_ok (λ i' j', i' < i ∨ (i' = i ∧ j' < S j))
    (if Difflib.match_size best <? wrun i j
     then (i + 1 - wrun i j, j + 1 - wrun i j, wrun i j) else best).
Proof.
  destruct best as [[bi bj] bs]. intros Hlo Hgap (Hmax & Hzero & Hpos).
  unfold Difflib.match_size; cbn [snd].
  assert (Hseen : ∀ i' j', i' < i ∨ (i' = i ∧ j' < S j) →
            (i' < i ∨ (i' = i ∧ j' < lo)) ∨ (i' = i ∧ lo ≤ j' < j)
            ∨ (i' = i ∧ j' = j)) by lia.
  destruct (bs <? wrun i j) eqn:E.
  - apply Nat.ltb_lt in E. split; [|split].
    + intros i' j' [Hs | [[-> Hg] | [-> ->]]]%Hseen.
      * specialize (Hmax _ _ Hs). lia.
      * rewrite (Hgap j' Hg). lia.
      * done.
    + lia.
    + intros _. exists i, j. split; [lia|]. split; [done|].
      split; [done|]. split; [done|].
      intros i' j' Hlt.
      assert (Hs : (i' < i ∨ (i' = i ∧ j' < lo)) ∨ (i' = i ∧ lo ≤ j' < j))
        by lia.
      destruct Hs as [Hs | [-> Hg]].
      * specialize (Hmax _ _ Hs). lia.
      * rewrite (Hgap j' Hg). lia.
  - apply Nat.ltb_ge in E. split; [|split].
    + intros i' j' [Hs | [[-> Hg] | [-> ->]]]%Hseen.
      * by apply Hmax.
      * rewrite (Hgap j' Hg). lia.
      * done.
    + done.
    + intros Hbs. destruct (Hpos Hbs) as (i0 & j0 & Hs & Hrest).
      exists i0, j0. split; [lia | done].
Qed.

(** The inner loop over the positions [js] of [x = a[i]] in [b] that are
    at or after [lo], knowing the pairs before [(i, lo)]. *)
Lemma row_loop_spec (i : nat) (x : A) (js : list nat)
    (j2len new : gmap nat nat) (best : Difflib.Match) (lo : nat) :
  a !! i = Some x → is_Some (b2j !! x) → alo ≤ i < ahi →
  StronglySorted lt js →
  (∀ j, j ∈ js ↔ lo ≤ j ∧ b !! j = Some x) →
  (∀ j, Difflib.j2lenget_pred j2len j = wrun_pred i j) →
  (∀ j, new !! j
        = if bool_decide (j < lo) && wcell i j then Some (wrun i j) else None) →
  wbest_ok (λ i' j', i' < i ∨ (i' = i ∧ j' < lo)) best →
  let r := Difflib.row_loop blo bhi i js j2len new best in
  (∀ j, r.1 !! j = if wcell i j then Some (wrun i j) else None)
  ∧ wbest_ok (λ i' j', i' ≤ i) r.2.
Proof.
  intros Hi Hkey Hrow Hsorted. revert new best lo.
  induction js as [|j js IH]; intros new best lo Hjs Hprev Hnew Hbest;
    cbn [Difflib.row_loop].
  - assert (Hnone : ∀ j, lo ≤ j → wcell i j = false).
    { intros j Hj. apply (cell_false_other _ _ x Hi). intros Hbj.
      assert (j ∈ []) as Hin by (apply Hjs; done). by apply elem_of_nil in Hin. }
    cbn zeta; cbn [fst snd]. split.
    + intros j. rewrite Hnew. case_bool_decide; [done|].
      rewrite Hnone by lia. done.
    + eapply best_ok_extend; [| |exact Hbest]; cbn beta.
      * lia.
      * intros i' j' Hle. destruct (decide (i' = i ∧ lo ≤ j')) as [[-> Hj]|];
          [right; apply run_no_cell, Hnone; lia | left; lia].
  - assert (Hj : lo ≤ j ∧ b !! j = Some x) by (apply Hjs; left).
    destruct Hj as [Hlo Hbj].
    apply StronglySorted_inv in Hsorted as [Hsorted Hhd].
    assert (Hjs' : ∀ j', j' ∈ js ↔ S j ≤ j' ∧ b !! j' = Some x).
    { intros j'. split.
      - intros Hin. split.
        + rewrite Forall_forall in Hhd. specialize (Hhd _ Hin). lia.
        + apply Hjs. by right.
      - intros [Hlt Hb]. assert (j' ∈ j :: js) as Hin by (apply Hjs; split; [lia|done]).
        apply elem_of_cons in Hin as [->|Hin]; [lia|done]. }
    assert (Hgap : ∀ j', lo ≤ j' < j → wcell i j' = false).
    { intros j' Hj'. apply (cell_false_other _ _ x Hi). intros Hb.
      assert (j' ∈ j :: js) as Hin by (apply Hjs; split; [lia|done]).
      apply elem_of_cons in Hin as [->|Hin]; [lia|].
      rewrite Forall_forall in Hhd. specialize (Hhd _ Hin). lia. }
    destruct (j <? blo) eqn:Eblo; [|destruct (bhi <=? j) eqn:Ebhi].
    + apply Nat.ltb_lt in Eblo.
      assert (Hcj : wcell i j = false).
      { apply not_true_is_false. intros (_ & ? & _)%cell_spec. lia. }
      apply (IH Hsorted new best (S j)); [done|done| |].
      * intros j'. rewrite Hnew.
        destruct (decide (j' < lo)); [by rewrite !bool_decide_eq_true_2 by lia|].
        rewrite (bool_decide_eq_false_2 (j' < lo)) by done. cbn [andb].
        destruct (decide (j' = j)) as [->|]; [by rewrite Hcj, andb_false_r|].
        destruct (decide (j' < j)); [by rewrite Hgap, andb_false_r by lia|].
        by rewrite bool_decide_eq_false_2 by lia.
      * eapply best_ok_extend; [| |exact Hbest]; cbn beta; [lia|].
        intros i' j' Hs. destruct (decide (i' = i ∧ lo ≤ j')) as [[-> Hj]|];
          [right | left; lia].
        apply run_no_cell. destruct (decide (j' = j)) as [->|]; [done|].
        apply Hgap. lia.
    + apply Nat.leb_le in Ebhi.
      assert (Hnone : ∀ j', lo ≤ j' → wcell i j' = false).
      { intros j' Hj'. destruct (decide (j' < j)); [apply Hgap; lia|].
        apply not_true_is_false. intros (_ & ? & _)%cell_spec. lia. }
      cbn zeta; cbn [fst snd]. split.
      * intros j'. rewrite Hnew. case_bool_decide; [done|].
        rewrite Hnone by lia. done.
      * eapply best_ok_extend; [| |exact Hbest]; cbn beta; [lia|].
        intros i' j' Hle. destruct (decide (i' = i ∧ lo ≤ j')) as [[-> Hj]|];
          [right; apply run_no_cell, Hnone; lia | left; lia].
    + apply Nat.ltb_ge in Eblo. apply Nat.leb_gt in Ebhi.
      assert (Hcj : wcell i j = true).
      { apply cell_spec. split; [done|]. split; [lia|]. by exists x. }
      assert (Hk : Difflib.j2lenget_pred j2len j + 1 = wrun i j).
      { rewrite run_unfold, Hcj, Hprev. lia. }
      rewrite Hk.
      apply (IH Hsorted _ _ (S j)); [done|done| |].
      * intros j'. destruct (decide (j' = j)) as [->|Hne].
        -- rewrite lookup_insert_eq, Hcj, bool_decide_eq_true_2 by lia. done.
        -- rewrite lookup_insert_ne, Hnew by done.
           destruct (decide (j' < lo));
             [by rewrite !bool_decide_eq_true_2 by lia|].
           rewrite (bool_decide_eq_false_2 (j' < lo)) by done. cbn [andb].
           destruct (decide (j' < j)); [by rewrite Hgap, andb_false_r by lia|].
           by rewrite bool_decide_eq_false_2 by lia.
      * apply (best_ok_record lo); [done| |done].
        intros j' Hj'. by apply run_no_cell, Hgap.
Qed.

Lemma run_pred_before (i j : nat) : i ≤ alo → wrun_pred i j = 0.
Proof.
  intros Hi. destruct i as [|i], j as [|j]; cbn [run_pred]; try done.
  apply run_no_cell, not_true_is_false. intros (? & _)%cell_spec. lia.
Qed.

Lemma row_step_spec (i : nat) (st : gmap nat nat * Difflib.Match) :
  alo ≤ i < ahi → rows_inv i st →
  rows_inv (S i) (Difflib.row_step a b2j blo bhi st i).
Proof.
  intros Hi [Hprev Hbest]. unfold Difflib.row_step.
  assert (Hempty : (∀ j, wcell i j = false) →
            rows_inv (S i) (Difflib.row_loop blo bhi i [] st.1 ∅ st.2)).
  { intros Hnone. cbn [Difflib.row_loop]. split; cbn [fst snd].
    - intros [|j]; cbn [Difflib.j2lenget_pred run_pred]; [by destruct i|].
      by rewrite lookup_empty, run_no_cell.
    - eapply best_ok_extend; [| |exact Hbest]; cbn beta; [lia|].
      intros i' j' Hle. destruct (decide (i' = i)) as [->|];
        [right; by apply run_no_cell | left; lia]. }
  destruct (a !! i) as [x|] eqn:Hai.
  - destruct (b2j !! x) as [js|] eqn:Hx; cbn [default].
    + pose proof (Hb2j x js Hx) as ->.
      destruct (row_loop_spec i x (indices_from 0 x b) st.1 ∅ st.2 0)
        as [Hnew Hbest']; try done.
      * apply indices_from_sorted.
      * intros j. rewrite indices_from_elem, Nat.sub_0_r. done.
      * eapply best_ok_extend; [| |exact Hbest]; cbn beta; [lia|].
        intros i' j' Hs. left. lia.
      * split.
        -- intros [|j]; cbn [Difflib.j2lenget_pred run_pred]; [done|].
           rewrite Hnew. destruct (wcell i j) eqn:Hc; [done|].
           by rewrite run_no_cell.
        -- eapply best_ok_extend; [| |exact Hbest']; cbn beta; [lia|].
           intros i' j' Hs. left. lia.
    + apply Hempty. intros j. apply not_true_is_false.
      intros (_ & _ & y & Hy & _ & Hkey)%cell_spec.
      rewrite Hai in Hy. injection Hy as <-. rewrite Hx in Hkey.
      by destruct Hkey.
  - apply Hempty. intros j. apply not_true_is_false.
    intros (_ & _ & y & Hy & _)%cell_spec. congruence.
Qed.

Lemma rows_spec (n i : nat) (st : gmap nat nat * Difflib.Match) :
  alo ≤ i → i + n ≤ ahi → rows_inv i st →
  rows_inv (i + n) (foldl (Difflib.row_step a b2j blo bhi) st (seq i n)).
Proof.
  revert i st. induction n as [|n IH]; intros i st Hlo Hhi Hinv; cbn [seq foldl].
  - by rewrite Nat.add_0_r.
  - replace (i + S n) with (S i + n) by lia.
    apply IH; [lia|lia|]. apply row_step_spec; [lia|done].
Qed.

(** The main loop returns the first longest run of the window. *)
Lemma main_loop_spec :
  wbest_ok (λ _ _, True) (Difflib.main_loop a b2j alo ahi blo bhi).2.
Proof.
  unfold Difflib.main_loop.
  assert (Hinit : rows_inv alo (∅, (alo, blo, 0))).
  { split; cbn [fst snd].
    - intros j. rewrite run_pred_before by done.
      destruct j; cbn [Difflib.j2lenget_pred]; [done|].
      by rewrite lookup_empty.
    - split; [|split]; [|done|lia].
      intros i j Hi. rewrite run_no_cell; [lia|].
      apply not_true_is_false. intros (? & _)%cell_spec. lia. }
  destruct (decide (alo ≤ ahi)) as [Hle|Hgt].
  - pose proof (rows_spec (ahi - alo) alo _ (Nat.le_refl _)
                  ltac:(lia) Hinit) as [_ Hbest].
    eapply best_ok_extend; [| |exact Hbest]; cbn beta; [done|].
    intros i j _. destruct (decide (i < alo + (ahi - alo))); [by left|].
    right. apply run_no_cell, not_true_is_false.
    intros (? & _)%cell_spec. lia.
  - replace (ahi - alo) with 0 by lia. cbn [seq foldl snd].
    destruct Hinit as [_ Hbest]. cbn [snd] in Hbest.
    eapply best_ok_extend; [| |exact Hbest]; cbn beta; [done|].
    intros i j _. right. apply run_no_cell, not_true_is_false.
    intros (? & _)%cell_spec. lia.
Qed.

Lemma main_loop_range :
  alo ≤ ahi → blo ≤ bhi →
  let '(besti, bestj, bestsize) :=
    (Difflib.main_loop a b2j alo ahi blo bhi).2 in
  alo ≤ besti ∧ besti + bestsize ≤ ahi ∧ blo ≤ bestj ∧ bestj + bestsize ≤ bhi.
Proof.
  intros Ha Hb. pose proof main_loop_spec as Hspec.
  destruct (Difflib.main_loop a b2j alo ahi blo bhi).2 as [[bi bj] bs].
  destruct Hspec as (_ & Hzero & Hpos).
  destruct (decide (bs = 0)) as [->|Hne].
  - destruct Hzero as [-> ->]; [done|]. lia.
  - destruct Hpos as (i & j & _ & Hrun & -> & -> & _); [lia|].
    pose proof (run_bound i j) as [? ?].
    pose proof (run_in_window i j) as [? ?]; lia.
Qed.

Lemma run_valid (i j t : nat) :
  t < wrun i j →
  t ≤ i ∧ t ≤ j ∧ is_Some (a !! (i - t)) ∧ a !! (i - t) = b !! (j - t).
Proof.
  revert j t. induction i as [|i IH]; intros j t Ht;
    rewrite run_unfold in Ht; destruct (wcell _ j) eqn:Hc; try lia;
    apply cell_spec in Hc as (_ & _ & x & Hx & Hx' & _).
  - cbn [run_pred] in Ht. assert (t = 0) as -> by lia.
    rewrite !Nat.sub_0_r, Hx, Hx'. by eauto with lia.
  - destruct t as [|t]; [rewrite !Nat.sub_0_r, Hx, Hx'; by eauto with lia|].
    destruct j as [|j]; cbn [run_pred] in Ht; [lia|].
    destruct (IH j t) as (? & ? & ? & ?); [lia|].
    cbn [Nat.sub]. by eauto with lia.
Qed.

Lemma main_loop_valid :
  valid_match a b (Difflib.main_loop a b2j alo ahi blo bhi).2.
Proof.
  pose proof main_loop_spec as Hspec.
  destruct (Difflib.main_loop a b2j alo ahi blo bhi).2 as [[bi bj] bs].
  destruct Hspec as (_ & _ & Hpos). intros t Ht.
  destruct Hpos as (i & j & _ & Hrun & -> & -> & _); [lia|].
  pose proof (run_bound i j) as [? ?].
  destruct (run_valid i j (bs - 1 - t)) as (? & ? & Hs & He); [lia|].
  replace (i + 1 - bs + t) with (i - (bs - 1 - t)) by lia.
  replace (j + 1 - bs + t) with (j - (bs - 1 - t)) by lia.
  done.
Qed.

End MainLoop.

(** ** difflib: extending the best run, and find_longest_match *)

Section Extend.
Context {A : Type} `{Countable A}.
Variables (a b : list A).
Variables (alo ahi blo bhi : nat).

Lemma isbjunk_false (x : option A) : Difflib.isbjunk x = false.
Proof.
  destruct x as [u|]; [|done]. unfold Difflib.isbjunk, Difflib.bjunk.
  apply bool_decide_eq_false_2, not_elem_of_empty.
Qed.

Lemma extend_left_spec (P : option A → bool) (besti bestj bestsize : nat) :
  let '(i, j, k) :=
    Difflib.extend_left a b alo blo P besti bestj bestsize in
  i ≤ besti ∧ j ≤ bestj ∧ bestsize ≤ k
  ∧ i + k = besti + bestsize ∧ j + k = bestj + bestsize
  ∧ (alo ≤ besti → alo ≤ i) ∧ (blo ≤ bestj → blo ≤ j).
Proof.
  revert bestj bestsize.
  induction besti as [|i' IH]; intros bestj bestsize;
    cbn [Difflib.extend_left]; [lia|].
  destruct bestj as [|j']; [lia|].
  destruct (_ && _) eqn:E; [|lia].
  rewrite !andb_true_iff in E. destruct E as [[[Ha Hb] _] _].
  apply Nat.ltb_lt in Ha, Hb.
  specialize (IH j' (S bestsize)).
  destruct (Difflib.extend_left a b alo blo P i' j' (S bestsize))
    as [[i j] k]. lia.
Qed.

Lemma extend_right_spec (P : option A → bool)
    (gap besti bestj bestsize : nat) :
  let '(i, j, k) :=
    Difflib.extend_right a b ahi bhi P gap besti bestj bestsize in
  i = besti ∧ j = bestj ∧ bestsize ≤ k
  ∧ (besti + bestsize ≤ ahi → besti + k ≤ ahi)
  ∧ (bestj + bestsize ≤ bhi → bestj + k ≤ bhi).
Proof.
  revert bestsize. induction gap as [|gap IH]; intros bestsize;
    cbn [Difflib.extend_right]; [lia|].
  destruct (_ && _) eqn:E; [|lia].
  rewrite !andb_true_iff in E. destruct E as [[[Ha Hb] _] _].
  apply Nat.ltb_lt in Ha, Hb.
  specialize (IH (S bestsize)).
  destruct (Difflib.extend_right a b ahi bhi P gap besti bestj (S bestsize))
    as [[i j] k]. lia.
Qed.

Lemma extend_spec (P : option A → bool) (m : Difflib.Match) :
  let '(besti, bestj, bestsize) := m in
  let '(i, j, k) := Difflib.extend a b alo ahi blo bhi P m in
  i ≤ besti ∧ j ≤ bestj ∧ bestsize ≤ k
  ∧ (alo ≤ besti → alo ≤ i) ∧ (blo ≤ bestj → blo ≤ j)
  ∧ (besti + bestsize ≤ ahi → i + k ≤ ahi)
  ∧ (bestj + bestsize ≤ bhi → j + k ≤ bhi).
Proof.
  destruct m as [[besti bestj] bestsize]. unfold Difflib.extend.
  pose proof (extend_left_spec P besti bestj bestsize) as Hl.
  destruct (Difflib.extend_left a b alo blo P besti bestj bestsize)
    as [[i1 j1] k1].
  pose proof (extend_right_spec P (ahi - (i1 + k1)) i1 j1 k1) as Hr.
  destruct (Difflib.extend_right a b ahi bhi P (ahi - (i1 + k1)) i1 j1 k1)
    as [[i j] k]. lia.
Qed.

(** With no junk the last two loops change nothing. *)
Lemma extend_isbjunk (m : Difflib.Match) :
  Difflib.extend a b alo ahi blo bhi Difflib.isbjunk m = m.
Proof.
  destruct m as [[besti bestj] bestsize]. unfold Difflib.extend.
  assert (Hl : Difflib.extend_left a b alo blo Difflib.isbjunk
                 besti bestj bestsize = (besti, bestj, bestsize)).
  { destruct besti, bestj; cbn [Difflib.extend_left]; try done.
    by rewrite isbjunk_false, andb_false_r. }
  rewrite Hl.
  destruct (ahi - (besti + bestsize)); cbn [Difflib.extend_right]; [done|].
  by rewrite isbjunk_false, andb_false_r.
Qed.

Lemma elem_eqb_true (x y : option A) :
  Difflib.elem_eqb x y = true → is_Some x ∧ x = y.
Proof.
  destruct x as [u|], y as [v|]; cbn; try done.
  intros ->%bool_decide_eq_true. eauto.
Qed.

Lemma extend_left_valid (P : option A → bool) (besti bestj bestsize : nat) :
  valid_match a b (besti, bestj, bestsize) →
  valid_match a b (Difflib.extend_left a b alo blo P besti bestj bestsize).
Proof.
  revert bestj bestsize.
  induction besti as [|i' IH]; intros bestj bestsize Hv;
    cbn [Difflib.extend_left]; [done|].
  destruct bestj as [|j']; [done|].
  destruct (_ && _) eqn:E; [|done].
  rewrite !andb_true_iff in E. destruct E as [_ He%elem_eqb_true].
  apply IH. intros [|t] Ht.
  - by rewrite !Nat.add_0_r.
  - rewrite <- !Nat.add_succ_comm. apply Hv. lia.
Qed.

Lemma extend_right_valid (P : option A → bool)
    (gap besti bestj bestsize : nat) :
  valid_match a b (besti, bestj, bestsize) →
  valid_match a b
    (Difflib.extend_right a b ahi bhi P gap besti bestj bestsize).
Proof.
  revert bestsize. induction gap as [|gap IH]; intros bestsize Hv;
    cbn [Difflib.extend_right]; [done|].
  destruct (_ && _) eqn:E; [|done].
  rewrite !andb_true_iff in E. destruct E as [_ He%elem_eqb_true].
  apply IH. intros t Ht.
  destruct (decide (t = bestsize)) as [->|]; [done|]. apply Hv. lia.
Qed.

Lemma extend_valid (P : option A → bool) (m : Difflib.Match) :
  valid_match a b m →
  valid_match a b (Difflib.extend a b alo ahi blo bhi P m).
Proof.
  destruct m as [[besti bestj] bestsize]. intros Hv. unfold Difflib.extend.
  pose proof (extend_left_valid P besti bestj bestsize Hv) as Hl.
  destruct (Difflib.extend_left a b alo blo P besti bestj bestsize)
    as [[i1 j1] k1].
  by apply extend_right_valid.
Qed.

Lemma find_longest_match_unfold (b2j : gmap A (list nat)) :
  Difflib.find_longest_match a b b2j alo ahi blo bhi
  = Difflib.extend a b alo ahi blo bhi (λ x, negb (Difflib.isbjunk x))
      (Difflib.main_loop a b2j alo ahi blo bhi).2.
Proof. unfold Difflib.find_longest_match. apply extend_isbjunk. Qed.

(** The match that is returned lies inside both windows. *)
Lemma find_longest_match_range (b2j : gmap A (list nat)) :
  b2j_ok b b2j → alo ≤ ahi → blo ≤ bhi →
  let '(i, j, k) := Difflib.find_longest_match a b b2j alo ahi blo bhi in
  alo ≤ i ∧ i + k ≤ ahi ∧ blo ≤ j ∧ j + k ≤ bhi.
Proof.
  intros Hok Ha Hb. rewrite find_longest_match_unfold.
  pose proof (main_loop_range a b b2j alo ahi blo bhi Hok Ha Hb) as Hm.
  pose proof (extend_spec (λ x, negb (Difflib.isbjunk x))
                (Difflib.main_loop a b2j alo ahi blo bhi).2) as He.
  destruct (Difflib.main_loop a b2j alo ahi blo bhi).2 as [[bi bj] bs].
  destruct (Difflib.extend _ _ _ _ _ _ _ _) as [[i j] k]. lia.
Qed.

(** The match that is returned pairs equal elements. *)
Lemma find_longest_match_valid (b2j : gmap A (list nat)) :
  b2j_ok b b2j →
  valid_match a b (Difflib.find_longest_match a b b2j alo ahi blo bhi).
Proof.
  intros Hok. rewrite find_longest_match_unfold.
  apply extend_valid, main_loop_valid, Hok.
Qed.

(** The match is at least as long as the longest run. *)
Lemma find_longest_match_size (b2j : gmap A (list nat)) (i j : nat) :
  b2j_ok b b2j →
  run a b b2j alo ahi blo bhi i j
  ≤ Difflib.match_size (Difflib.find_longest_match a b b2j alo ahi blo bhi).
Proof.
  intros Hok. rewrite find_longest_match_unfold.
  pose proof (main_loop_spec a b b2j alo ahi blo bhi Hok) as Hm.
  pose proof (extend_spec (λ x, negb (Difflib.isbjunk x))
                (Difflib.main_loop a b2j alo ahi blo bhi).2) as He.
  destruct (Difflib.main_loop a b2j alo ahi blo bhi).2 as [[bi bj] bs].
  destruct (Difflib.extend _ _ _ _ _ _ _ _) as [[i' j'] k].
  destruct Hm as (Hmax & _). specialize (Hmax i j I).
  unfold Difflib.match_size; cbn [snd]. lia.
Qed.

End Extend.

(** ** difflib: get_matching_blocks and ratio *)

Section MatchingBlocks.
Context {A : Type} `{Countable A}.
Variables (a b : list A).

Lemma sum_sizes_app (xs ys : list Difflib.Match) :
  sum_sizes (xs ++ ys) = sum_sizes xs + sum_sizes ys.
Proof.
  unfold sum_sizes. induction xs as [|x xs IH]; cbn [foldr app]; [done|].
  rewrite IH. lia.
Qed.

Lemma sum_sizes_perm (xs ys : list Difflib.Match) :
  xs ≡ₚ ys → sum_sizes xs = sum_sizes ys.
Proof.
  unfold sum_sizes. induction 1; cbn [foldr]; lia.
Qed.

Lemma queue_cons (alo ahi blo bhi : nat)
    (queue : list (nat * nat * nat * nat)) :
  queue_steps ((alo, ahi, blo, bhi) :: queue)
  = 2 * (ahi - alo) + 1 + queue_steps queue
  ∧ queue_a ((alo, ahi, blo, bhi) :: queue) = (ahi - alo) + queue_a queue
  ∧ queue_b ((alo, ahi, blo, bhi) :: queue) = (bhi - blo) + queue_b queue.
Proof. done. Qed.

Lemma queue_steps_nil (queue : list (nat * nat * nat * nat)) :
  queue_steps queue ≤ 0 → queue = [].
Proof.
  destruct queue as [|[[[alo ahi] blo] bhi] queue]; [done|].
  destruct (queue_cons alo ahi blo bhi queue) as (-> & _). lia.
Qed.

Lemma queue_min_le (queue : list (nat * nat * nat * nat)) :
  queue_min queue ≤ queue_a queue ∧ queue_min queue ≤ queue_b queue.
Proof.
  induction queue as [|[[[alo ahi] blo] bhi] queue IH]; [done|].
  destruct (queue_cons alo ahi blo bhi queue) as (_ & -> & ->).
  change (queue_min ((alo, ahi, blo, bhi) :: queue))
    with ((ahi - alo) `min` (bhi - blo) + queue_min queue).
  lia.
Qed.

Lemma segment_nil (l : list A) (lo hi : nat) : hi ≤ lo → segment l lo hi = [].
Proof. intros Hle. unfold segment. by replace (hi - lo) with 0 by lia. Qed.

Lemma segment_split (l : list A) (lo mid hi : nat) :
  lo ≤ mid → mid ≤ hi →
  segment l lo hi = segment l lo mid ++ segment l mid hi.
Proof.
  intros H1 H2. unfold segment.
  replace (hi - lo) with ((mid - lo) + (hi - mid)) by lia.
  rewrite <- take_take_drop, drop_drop.
  by replace (lo + (mid - lo)) with mid by lia.
Qed.

Lemma segment_whole (l : list A) : segment l 0 (length l) = l.
Proof. unfold segment. rewrite drop_0, Nat.sub_0_r. by apply take_ge. Qed.

Lemma segment_valid (i j k : nat) :
  valid_match a b (i, j, k) → segment a i (i + k) = segment b j (j + k).
Proof.
  intros Hv. unfold segment. apply list_eq. intros t.
  replace (i + k - i) with k by lia. replace (j + k - j) with k by lia.
  destruct (decide (t < k)) as [Ht|Ht].
  - rewrite !lookup_take_lt, !lookup_drop by done. by apply Hv.
  - by rewrite !lookup_take_ge by lia.
Qed.

(** The loop over the queue ends before its fuel does; the blocks it adds
    fit in what the queue left to compare; and when they fill it on both
    sides, every window of the queue has the same sequence on both
    sides. *)
Lemma queue_loop_spec (b2j : gmap A (list nat)) (fuel : nat)
    (queue : list (nat * nat * nat * nat)) (blocks : list Difflib.Match) :
  b2j_ok b b2j →
  Forall (λ '(alo, ahi, blo, bhi), alo ≤ ahi ∧ blo ≤ bhi) queue →
  queue_steps queue ≤ fuel →
  ∃ added, Difflib.queue_loop a b b2j fuel queue blocks
           = Some (blocks ++ added)
    ∧ sum_sizes added ≤ queue_min queue
    ∧ (queue_a queue ≤ sum_sizes added → queue_b queue ≤ sum_sizes added →
       Forall (same_window a b) queue).
Proof.
  intros Hok. revert queue blocks.
  induction fuel as [|fuel IH]; intros queue blocks Hwin Hfuel.
  - rewrite (queue_steps_nil queue Hfuel). exists []. cbn.
    by rewrite app_nil_r.
  - destruct queue as [|[[[alo ahi] blo] bhi] queue].
    { exists []. cbn. by rewrite app_nil_r. }
    apply Forall_cons in Hwin as [[Ha Hb] Hwin].
    destruct (queue_cons alo ahi blo bhi queue) as (Hqs & Hqa & Hqb).
    rewrite Hqs in Hfuel. rewrite Hqa, Hqb. clear Hqs Hqa Hqb.
    change (queue_min ((alo, ahi, blo, bhi) :: queue))
      with ((ahi - alo) `min` (bhi - blo) + queue_min queue).
    cbn [Difflib.queue_loop].
    pose proof (find_longest_match_range a b alo ahi blo bhi b2j Hok Ha Hb)
      as Hrange.
    pose proof (find_longest_match_valid a b alo ahi blo bhi b2j Hok)
      as Hvalid.
    destruct (Difflib.find_longest_match a b b2j alo ahi blo bhi)
      as [[i j] k].
    pose proof (queue_min_le queue) as [Hma Hmb].
    destruct (k =? 0) eqn:Ek.
    + destruct (IH queue blocks Hwin) as (added & Hrun & Hsum & Htight); [lia|].
      exists added. split; [done|]. split; [lia|]. intros Hta Htb.
      apply Forall_cons. split.
      * split; [lia|]. by rewrite !segment_nil by lia.
      * apply Htight; lia.
    + apply Nat.eqb_neq in Ek.
      assert (Hstep : ∀ q2,
                Forall (λ '(alo, ahi, blo, bhi), alo ≤ ahi ∧ blo ≤ bhi) q2 →
                queue_steps q2 + 1 ≤ 2 * (ahi - alo) + 1 + queue_steps queue →
                queue_min q2 + k
                ≤ (ahi - alo) `min` (bhi - blo) + queue_min queue →
                queue_a q2 + k ≤ ahi - alo + queue_a queue →
                queue_b q2 + k ≤ bhi - blo + queue_b queue →
                (ahi - alo + queue_a queue ≤ k + queue_a q2 →
                 bhi - blo + queue_b queue ≤ k + queue_b q2 →
                 Forall (same_window a b) q2 →
                 Forall (same_window a b) ((alo, ahi, blo, bhi) :: queue)) →
                ∃ added,
                  Difflib.queue_loop a b b2j fuel q2 (blocks ++ [(i, j, k)])
                  = Some (blocks ++ added)
                  ∧ sum_sizes added
                    ≤ (ahi - alo) `min` (bhi - blo) + queue_min queue
                  ∧ (ahi - alo + queue_a queue ≤ sum_sizes added →
                     bhi - blo + queue_b queue ≤ sum_sizes added →
                     Forall (same_window a b) ((alo, ahi, blo, bhi) :: queue))).
      { intros q2 Hw2 Hs2 Hm2 Ha2 Hb2 Hback.
        destruct (IH q2 (blocks ++ [(i, j, k)]) Hw2)
          as (added & Hrun & Hsum & Htight); [lia|].
        exists ((i, j, k) :: added). split; [by rewrite Hrun, <- app_assoc|].
        change (sum_sizes ((i, j, k) :: added)) with (k + sum_sizes added).
        split; [lia|]. intros Hta Htb.
        pose proof (queue_min_le q2) as [Hma2 Hmb2].
        apply Hback; [lia|lia|]. apply Htight; lia. }
      assert (Hjoin : i - alo = j - blo → segment a alo i = segment b blo j →
                ahi - (i + k) = bhi - (j + k) →
                segment a (i + k) ahi = segment b (j + k) bhi →
                Forall (same_window a b) queue →
                Forall (same_window a b) ((alo, ahi, blo, bhi) :: queue)).
      { intros Hl1 Hl2 Hr1 Hr2 Hrest. apply Forall_cons.
        split; [|done]. split; [lia|].
        rewrite (segment_split a alo i ahi), (segment_split a i (i + k) ahi)
          by lia.
        rewrite (segment_split b blo j bhi), (segment_split b j (j + k) bhi)
          by lia.
        by rewrite Hl2, Hr2, (segment_valid i j k Hvalid). }
      destruct ((alo <? i) && (blo <? j)) eqn:E1;
        destruct ((i + k <? ahi) && (j + k <? bhi)) eqn:E2;
        rewrite ?andb_true_iff, ?andb_false_iff, ?Nat.ltb_lt, ?Nat.ltb_ge
          in E1, E2;
        apply Hstep;
        repeat match goal with
               | |- context [queue_steps ((?x1, ?x2, ?x3, ?x4) :: ?q)] =>
                   destruct (queue_cons x1 x2 x3 x4 q) as (-> & _)
               | |- context [queue_a ((?x1, ?x2, ?x3, ?x4) :: ?q)] =>
                   destruct (queue_cons x1 x2 x3 x4 q) as (_ & -> & _)
               | |- context [queue_b ((?x1, ?x2, ?x3, ?x4) :: ?q)] =>
                   destruct (queue_cons x1 x2 x3 x4 q) as (_ & _ & ->)
               | |- context [queue_min ((?x1, ?x2, ?x3, ?x4) :: ?q)] =>
                   change (queue_min ((x1, x2, x3, x4) :: q))
                     with ((x2 - x1) `min` (x4 - x3) + queue_min q)
               end;
        try lia;
        try (repeat (apply Forall_cons; split; [lia|]); done).
      * intros _ _ [[Hr1 Hr2] [[Hl1 Hl2] Hrest]%Forall_cons]%Forall_cons.
        by apply Hjoin.
      * intros Hta Htb [[Hl1 Hl2] Hrest]%Forall_cons.
        assert (ahi = i + k ∧ bhi = j + k) as [-> ->] by lia.
        apply Hjoin; try done; try lia; by rewrite !segment_nil by lia.
      * intros Hta Htb [[Hr1 Hr2] Hrest]%Forall_cons.
        assert (i = alo ∧ j = blo) as [-> ->] by lia.
        apply Hjoin; try done; try lia; by rewrite !segment_nil by lia.
      * intros Hta Htb Hrest.
        assert (i = alo ∧ j = blo) as [-> ->] by lia.
        assert (ahi = alo + k ∧ bhi = blo + k) as [-> ->] by lia.
        apply Hjoin; try done; try lia; by rewrite !segment_nil by lia.
Qed.

(** The loop of [get_matching_blocks] returns, and what it returns fits in
    both sequences, which it fills only when they are equal. *)
Lemma raw_matching_blocks_spec :
  ∃ blocks, Difflib.raw_matching_blocks a b = Some blocks
    ∧ sum_sizes blocks ≤ length a ∧ sum_sizes blocks ≤ length b
    ∧ (sum_sizes blocks = length a → sum_sizes blocks = length b → a = b).
Proof.
  unfold Difflib.raw_matching_blocks.
  destruct (queue_loop_spec (Difflib.chain_b b) (Difflib.queue_fuel a)
              [(0, length a, 0, length b)] [])
    as (added & Hrun & Hsum & Htight).
  - apply chain_b_ok.
  - apply Forall_cons; split; [lia|done].
  - unfold Difflib.queue_fuel.
    destruct (queue_cons 0 (length a) 0 (length b) []) as (-> & _).
    cbn [queue_steps foldr]. lia.
  - exists added. split; [done|].
    pose proof (queue_min_le [(0, length a, 0, length b)]) as [Hma Hmb].
    destruct (queue_cons 0 (length a) 0 (length b) []) as (_ & Hqa & Hqb).
    rewrite Hqa in Hma, Htight. rewrite Hqb in Hmb, Htight.
    cbn [queue_a queue_b foldr] in Hma, Hmb, Htight.
    split; [lia|]. split; [lia|]. intros Ea Eb.
    pose proof (Htight ltac:(lia) ltac:(lia)) as Hall.
    apply Forall_cons in Hall as [[_ Hseg] _].
    by rewrite !segment_whole in Hseg.
Qed.

Lemma collapse_step_sum (st : Difflib.Match * list Difflib.Match)
    (blocks : list Difflib.Match) :
  let st' := foldl Difflib.collapse_step st blocks in
  Difflib.match_size st'.1 + sum_sizes st'.2
  = Difflib.match_size st.1 + sum_sizes st.2 + sum_sizes blocks.
Proof.
  cbn zeta. revert st. induction blocks as [|[[i2 j2] k2] blocks IH];
    intros [[[i1 j1] k1] non_adjacent]; cbn [foldl].
  - cbn. lia.
  - rewrite IH. cbn [sum_sizes foldr]. fold (sum_sizes blocks).
    unfold Difflib.collapse_step.
    destruct (_ && _); [cbn; lia|].
    destruct (k1 =? 0) eqn:E; cbn [fst snd Difflib.match_size].
    + apply Nat.eqb_eq in E. lia.
    + rewrite sum_sizes_app. cbn. lia.
Qed.

Lemma collapse_sum (blocks : list Difflib.Match) :
  sum_sizes (Difflib.collapse blocks) = sum_sizes blocks.
Proof.
  unfold Difflib.collapse.
  pose proof (collapse_step_sum ((0, 0, 0), []) blocks) as Hsum.
  cbn zeta in Hsum.
  destruct (foldl _ _ blocks) as [[[i1 j1] k1] non_adjacent].
  cbn [fst snd Difflib.match_size] in Hsum. cbn in Hsum.
  destruct (k1 =? 0) eqn:E.
  - apply Nat.eqb_eq in E. lia.
  - rewrite sum_sizes_app. cbn. lia.
Qed.

(** [matches] is the total size of the blocks the queue loop found. *)
Lemma matches_raw :
  Difflib.matches a b
  = sum_sizes (default [] (Difflib.raw_matching_blocks a b)).
Proof.
  unfold Difflib.matches, Difflib.get_matching_blocks.
  fold (sum_sizes (Difflib.collapse
                     (merge_sort Difflib.match_le
                        (default [] (Difflib.raw_matching_blocks a b)))
                   ++ [(length a, length b, 0)])).
  rewrite sum_sizes_app, collapse_sum.
  rewrite (sum_sizes_perm _ _ (merge_sort_Permutation _ _)).
  cbn. lia.
Qed.

Lemma matches_bound :
  Difflib.matches a b ≤ length a ∧ Difflib.matches a b ≤ length b.
Proof.
  rewrite matches_raw.
  destruct raw_matching_blocks_spec as (blocks & -> & Ha & Hb & _). done.
Qed.

Lemma calculate_ratio_zero (n : nat) :
  0 < n → Difflib.calculate_ratio 0 n = 0%Q.
Proof.
  intros Hn. unfold Difflib.calculate_ratio.
  destruct (n =? 0) eqn:E; [apply Nat.eqb_eq in E; lia|].
  change (Qred (0 # Pos.of_nat n) = Qred 0). by apply Qred_complete.
Qed.

Lemma calculate_ratio_pos (m n : nat) :
  0 < m → (0 < Difflib.calculate_ratio m n)%Q.
Proof.
  intros Hm. unfold Difflib.calculate_ratio.
  destruct (n =? 0); [done|]. rewrite Qred_correct.
  unfold Qlt; cbn [Qnum Qden]. lia.
Qed.

Lemma calculate_ratio_full (n : nat) :
  Difflib.calculate_ratio n (n + n) = 1%Q.
Proof.
  unfold Difflib.calculate_ratio.
  destruct (n + n =? 0) eqn:E; [done|]. apply Nat.eqb_neq in E.
  change (Qred (Z.of_nat (2 * n) # Pos.of_nat (n + n)) = Qred 1).
  apply Qred_complete. unfold Qeq; cbn [Qnum Qden]. lia.
Qed.

Lemma ratio_bounds : (0 <= Difflib.ratio a b <= 1)%Q.
Proof.
  unfold Difflib.ratio. pose proof matches_bound as [Ha Hb].
  unfold Difflib.calculate_ratio.
  destruct (length a + length b =? 0) eqn:E; [split; discriminate|].
  apply Nat.eqb_neq in E. rewrite Qred_correct.
  unfold Qle; cbn [Qnum Qden]. lia.
Qed.

End MatchingBlocks.

(** ** difflib: a sequence against itself *)

Section Diagonal.
Context {A : Type} `{Countable A}.
Variables (a : list A) (b2j : gmap A (list nat)).
Variables (lo hi : nat).
Hypothesis Hb2j : b2j_ok a b2j.
Hypothesis Hlo : lo ≤ hi.
Hypothesis Hhi : hi ≤ length a.

Local Abbreviation drun := (run a a b2j lo hi lo hi).
Local Abbreviation dcell := (cell a a b2j lo hi lo hi).

(** A run off the diagonal is matched by one on the diagonal that ends
    no later. *)
Lemma run_diagonal (i j : nat) : drun i j ≤ drun (i `min` j) (i `min` j).
Proof.
  revert j. induction i as [|i IH]; intros j.
  - rewrite (run_unfold _ _ _ _ _ _ _ 0 j).
    destruct (dcell 0 j) eqn:Hc; [|lia].
    apply cell_spec in Hc as (Hi & Hj & x & Hx & _ & Hkey).
    cbn [run_pred]. rewrite Nat.min_0_l.
    assert (dcell 0 0 = true) as Hd
      by (apply cell_spec; split; [lia|]; split; [lia|]; by exists x).
    rewrite (run_unfold _ _ _ _ _ _ _ 0 0), Hd. lia.
  - rewrite (run_unfold _ _ _ _ _ _ _ (S i) j).
    destruct (dcell (S i) j) eqn:Hc; [|lia].
    apply cell_spec in Hc as (Hi & Hj & x & Hx & Hx' & Hkey).
    assert (dcell (S i `min` j) (S i `min` j) = true) as Hd.
    { apply cell_spec. split; [lia|]. split; [lia|]. exists x.
      destruct (Nat.min_spec (S i) j) as [[_ ->] | [_ ->]]; done. }
    rewrite (run_unfold _ _ _ _ _ _ _ (S i `min` j) (S i `min` j)), Hd.
    destruct j as [|j]; cbn [run_pred]; [lia|].
    rewrite <- Nat.succ_min_distr. cbn [run_pred].
    specialize (IH j). lia.
Qed.

Lemma main_loop_diagonal :
  let '(besti, bestj, bestsize) :=
    (Difflib.main_loop a b2j lo hi lo hi).2 in
  besti = bestj ∧ lo ≤ besti ∧ besti + bestsize ≤ hi.
Proof.
  pose proof (main_loop_spec a a b2j lo hi lo hi Hb2j) as Hspec.
  pose proof (main_loop_range a a b2j lo hi lo hi Hb2j Hlo Hlo) as Hrange.
  destruct (Difflib.main_loop a b2j lo hi lo hi).2 as [[bi bj] bs].
  split; [|lia]. destruct Hspec as (Hmax & Hzero & Hpos).
  destruct (decide (bs = 0)) as [->|Hne].
  - destruct Hzero as [-> ->]; done.
  - destruct Hpos as (i & j & _ & Hrun & -> & -> & Hfirst); [lia|].
    enough (i = j) by lia.
    pose proof (run_diagonal i j) as Hdiag.
    destruct (decide (i = j)) as [|Hij]; [done|]. exfalso.
    assert (Hbefore : i `min` j < i ∨ (i `min` j = i ∧ i `min` j < j)) by lia.
    specialize (Hfirst _ _ Hbefore). lia.
Qed.

Lemma extend_left_diagonal (P : option A → bool) (besti bestsize : nat) :
  (∀ x, P (Some x) = true) → lo ≤ besti → besti ≤ length a →
  Difflib.extend_left a a lo lo P besti besti bestsize
  = (lo, lo, bestsize + (besti - lo)).
Proof.
  intros HP. revert bestsize.
  induction besti as [|i IH]; intros bestsize Hl Hh;
    cbn [Difflib.extend_left].
  - replace lo with 0 by lia. f_equal. lia.
  - destruct (lookup_lt_is_Some_2 a i) as [x Hx]; [lia|].
    rewrite Hx, HP. cbn [Difflib.elem_eqb].
    rewrite bool_decide_eq_true_2, !andb_true_r by done.
    destruct (lo <? S i) eqn:E.
    + apply Nat.ltb_lt in E. rewrite IH by lia. f_equal. lia.
    + apply Nat.ltb_ge in E. replace lo with (S i) by lia. f_equal. lia.
Qed.

Lemma extend_right_diagonal (P : option A → bool)
    (gap besti bestsize : nat) :
  (∀ x, P (Some x) = true) → besti + bestsize + gap = hi →
  Difflib.extend_right a a hi hi P gap besti besti bestsize
  = (besti, besti, hi - besti).
Proof.
  intros HP. revert bestsize.
  induction gap as [|gap IH]; intros bestsize Hgap;
    cbn [Difflib.extend_right].
  - f_equal. lia.
  - destruct (lookup_lt_is_Some_2 a (besti + bestsize)) as [x Hx]; [lia|].
    rewrite Hx, HP. cbn [Difflib.elem_eqb].
    rewrite bool_decide_eq_true_2, !andb_true_r by done.
    assert ((besti + bestsize <? hi) = true) as -> by (apply Nat.ltb_lt; lia).
    apply IH. lia.
Qed.

(** Inside one window of a sequence compared with itself, the longest
    match is the whole window. *)
Lemma find_longest_match_diagonal :
  Difflib.find_longest_match a a b2j lo hi lo hi = (lo, lo, hi - lo).
Proof.
  rewrite find_longest_match_unfold.
  pose proof main_loop_diagonal as Hd.
  destruct (Difflib.main_loop a b2j lo hi lo hi).2 as [[bi bj] bs].
  destruct Hd as (<- & Hl & Hh). unfold Difflib.extend.
  assert (HP : ∀ x : A, negb (Difflib.isbjunk (Some x)) = true)
    by (intros x; by rewrite isbjunk_false).
  rewrite (extend_left_diagonal (λ x, negb (Difflib.isbjunk x))) by (done || lia).
  rewrite (extend_right_diagonal (λ x, negb (Difflib.isbjunk x))) by (done || lia).
  done.
Qed.

End Diagonal.

(** ** difflib: sequences with and without a common element *)

Section Common.
Context {A : Type} `{Countable A}.
Variables (a b : list A).

Lemma queue_loop_nil (b2j : gmap A (list nat)) (fuel : nat)
    (blocks : list Difflib.Match) :
  Difflib.queue_loop a b b2j fuel [] blocks = Some blocks.
Proof. by destruct fuel. Qed.

Lemma queue_loop_extends (b2j : gmap A (list nat)) (fuel : nat)
    (queue : list (nat * nat * nat * nat))
    (blocks result : list Difflib.Match) :
  Difflib.queue_loop a b b2j fuel queue blocks = Some result →
  ∃ added, result = blocks ++ added.
Proof.
  revert queue blocks. induction fuel as [|fuel IH]; intros queue blocks;
    destruct queue as [|[[[alo ahi] blo] bhi] queue];
    cbn [Difflib.queue_loop]; try done.
  - intros [= <-]. exists []. by rewrite app_nil_r.
  - intros [= <-]. exists []. by rewrite app_nil_r.
  - destruct (Difflib.find_longest_match a b b2j alo ahi blo bhi)
      as [[i j] k].
    destruct (k =? 0); [apply IH|].
    intros (added & ->)%IH. exists ((i, j, k) :: added).
    by rewrite <- app_assoc.
Qed.

(** Without a common element nothing matches. *)
Lemma matches_disjoint :
  (∀ x, x ∈ a → x ∉ b) → Difflib.matches a b = 0.
Proof.
  intros Hdis. rewrite matches_raw.
  unfold Difflib.raw_matching_blocks, Difflib.queue_fuel.
  replace (2 * length a + 1) with (S (2 * length a)) by lia.
  cbn [Difflib.queue_loop].
  assert (Hneq : ∀ i j, Difflib.elem_eqb (a !! i) (b !! j) = false).
  { intros i j. destruct (a !! i) as [x|] eqn:Hx, (b !! j) as [y|] eqn:Hy;
      try done.
    cbn. apply bool_decide_eq_false_2. intros ->.
    apply (Hdis y); by eapply list_elem_of_lookup_2. }
  assert (Hflm : Difflib.find_longest_match a b (Difflib.chain_b b)
                   0 (length a) 0 (length b) = (0, 0, 0)).
  { rewrite find_longest_match_unfold.
    pose proof (main_loop_spec a b (Difflib.chain_b b) 0 (length a) 0
                  (length b) (chain_b_ok b)) as Hspec.
    destruct (Difflib.main_loop _ _ _ _ _ _).2 as [[bi bj] bs].
    destruct Hspec as (_ & Hzero & Hpos).
    destruct (decide (bs = 0)) as [->|Hne].
    - destruct Hzero as [-> ->]; [done|]. unfold Difflib.extend.
      cbn [Difflib.extend_left].
      destruct (length a - (0 + 0)); cbn [Difflib.extend_right]; [done|].
      by rewrite Hneq, andb_false_r.
    - exfalso. destruct Hpos as (i & j & _ & Hrun & _); [lia|].
      assert (0 < run a b (Difflib.chain_b b) 0 (length a) 0 (length b) i j)
        as Hpos by lia.
      apply run_pos, cell_spec in Hpos as (_ & _ & x & Hx & Hx' & _).
      apply (Hdis x); by eapply list_elem_of_lookup_2. }
  rewrite Hflm. cbn [Nat.eqb]. by rewrite queue_loop_nil.
Qed.

(** With a common element that is a key of [b2j], something matches;
    below 200 elements every element of [b] is a key. *)
Lemma matches_common (x : A) :
  length b < 200 → x ∈ a → x ∈ b → 0 < Difflib.matches a b.
Proof.
  intros Hlen [i Hi]%list_elem_of_lookup [j Hj]%list_elem_of_lookup.
  rewrite matches_raw.
  destruct (raw_matching_blocks_spec a b) as (blocks & Hraw & _).
  rewrite Hraw. cbn [default].
  unfold Difflib.raw_matching_blocks, Difflib.queue_fuel in Hraw.
  replace (2 * length a + 1) with (S (2 * length a)) in Hraw by lia.
  cbn [Difflib.queue_loop] in Hraw.
  pose proof (find_longest_match_size a b 0 (length a) 0 (length b)
                (Difflib.chain_b b) i j (chain_b_ok b)) as Hsize.
  assert (Hrun : 0 < run a b (Difflib.chain_b b) 0 (length a) 0 (length b)
                     i j).
  { apply run_pos, cell_spec.
    pose proof (lookup_lt_Some _ _ _ Hi). pose proof (lookup_lt_Some _ _ _ Hj).
    split; [lia|]. split; [lia|]. exists x.
    split; [done|]. split; [done|]. by apply (chain_b_short b x j). }
  destruct (Difflib.find_longest_match _ _ _ _ _ _ _) as [[i0 j0] k].
  unfold Difflib.match_size in Hsize; cbn [snd] in Hsize.
  destruct (k =? 0) eqn:Ek; [apply Nat.eqb_eq in Ek; lia|].
  apply queue_loop_extends in Hraw as (added & ->). unfold id.
  rewrite !sum_sizes_app.
  change (sum_sizes [(i0, j0, k)]) with (k + 0). cbn. lia.
Qed.

End Common.

(** ** difflib: the scores 0 and 1 *)

Section Ratio.
Context {A : Type} `{Countable A}.

Lemma matches_self (a : list A) : Difflib.matches a a = length a.
Proof.
  rewrite matches_raw. unfold Difflib.raw_matching_blocks, Difflib.queue_fuel.
  replace (2 * length a + 1) with (S (2 * length a)) by lia.
  cbn [Difflib.queue_loop].
  rewrite (find_longest_match_diagonal a (Difflib.chain_b a) 0 (length a))
    by (apply chain_b_ok || lia).
  rewrite Nat.sub_0_r. destruct (length a) as [|n] eqn:Hn.
  - cbn. done.
  - cbn [Nat.eqb]. rewrite Nat.ltb_irrefl. cbn [andb Nat.ltb Nat.leb].
    cbn [Difflib.queue_loop app default]. cbn. lia.
Qed.

(** A sequence compared with itself scores 1. *)
Lemma ratio_self (a : list A) : Difflib.ratio a a = 1%Q.
Proof.
  unfold Difflib.ratio. rewrite matches_self. apply calculate_ratio_full.
Qed.

(** The score is 0 exactly when nothing matches and there is something
    to match. *)
Lemma ratio_zero (a b : list A) :
  (Difflib.ratio a b == 0)%Q
  ↔ Difflib.matches a b = 0 ∧ 0 < length a + length b.
Proof.
  unfold Difflib.ratio. split.
  - intros Hz. destruct (decide (length a + length b = 0)) as [Hl|Hl].
    + rewrite Hl in Hz. discriminate.
    + split; [|lia]. destruct (decide (Difflib.matches a b = 0)); [done|].
      pose proof (calculate_ratio_pos (Difflib.matches a b)
                    (length a + length b) ltac:(lia)). lra.
  - intros [-> Hl]. by rewrite calculate_ratio_zero.
Qed.

(** Below 200 elements the score is 0 exactly for sequences, not both
    empty, without a common element. *)
Lemma ratio_zero_short (a b : list A) :
  length b < 200 →
  (Difflib.ratio a b == 0)%Q
  ↔ (∀ x, x ∈ a → x ∉ b) ∧ 0 < length a + length b.
Proof.
  intros Hlen. rewrite ratio_zero. split; intros [Hm Hl]; (split; [|done]).
  - intros x Ha Hb. pose proof (matches_common a b x Hlen Ha Hb). lia.
  - by apply matches_disjoint.
Qed.

(** The score is 1 exactly for equal sequences. *)
Lemma ratio_one (a b : list A) : (Difflib.ratio a b == 1)%Q ↔ a = b.
Proof.
  split; [|intros ->; by rewrite ratio_self].
  unfold Difflib.ratio, Difflib.calculate_ratio. rewrite matches_raw.
  destruct (raw_matching_blocks_spec a b) as (blocks & -> & Ha & Hb & Heq).
  cbn [default].
  destruct (length a + length b =? 0) eqn:E.
  - apply Nat.eqb_eq in E. intros _.
    destruct a, b; cbn [length] in E; (done || lia).
  - apply Nat.eqb_neq in E. rewrite Qred_correct.
    unfold Qeq, id; cbn [Qnum Qden]. intros H1. apply Heq; lia.
Qed.

End Ratio.

(** ** Rounding *)

Lemma round_half_even_mono (x y : Q) :
  (x <= y)%Q → (Py.round_half_even x <= Py.round_half_even y)%Z.
Proof.
  intros Hxy. unfold Py.round_half_even.
  pose proof (Qfloor_resp_le _ _ Hxy) as Hf.
  pose proof (Qfloor_le x) as Hx1. pose proof (Qlt_floor x) as Hx2.
  pose proof (Qfloor_le y) as Hy1. pose proof (Qlt_floor y) as Hy2.
  destruct (Z.eq_dec (Qfloor x) (Qfloor y)) as [Heq|Hne].
  - rewrite <- Heq in *.
    destruct (Qcompare_spec (x - inject_Z (Qfloor x)) (1 # 2)) as [Ex|Lx|Gx];
      destruct (Qcompare_spec (y - inject_Z (Qfloor x)) (1 # 2)) as [Ey|Ly|Gy];
      try (destruct (Z.even (Qfloor x)); lia); try lia; exfalso; lra.
  - assert (Qfloor x + 1 <= Qfloor y)%Z by lia.
    destruct (_ ?= _)%Q; destruct (_ ?= _)%Q;
      repeat match goal with |- context [Z.even ?z] => destruct (Z.even z) end;
      lia.
Qed.

Lemma round_half_even_comp (x y : Q) :
  (x == y)%Q → Py.round_half_even x = Py.round_half_even y.
Proof.
  intros Hxy. unfold Py.round_half_even.
  rewrite (Qfloor_comp _ _ Hxy).
  assert (Hc : ((x - inject_Z (Qfloor y) ?= 1 # 2)
                = (y - inject_Z (Qfloor y) ?= 1 # 2))%Q)
    by (apply Qcompare_comp; [lra | reflexivity]).
  by rewrite Hc.
Qed.

Section Binary64.
Import Py.

(** ** Binary floating point *)

Lemma pow2_pos (z : Z) : (0 < 2 ^ z)%Q.
Proof. by apply Qpower_0_lt. Qed.

Lemma pow2_succ (z : Z) : (2 ^ (z + 1) == 2 * 2 ^ z)%Q.
Proof. rewrite Qpower_plus by done. change (2 ^ 1)%Q with 2%Q. ring. Qed.

Lemma pow2_Z (a : Z) : (0 <= a)%Z → (inject_Z (2 ^ a) == 2 ^ a)%Q.
Proof. intros Ha. by rewrite Zpower_Qpower. Qed.

Lemma round_half_even_Z (z : Z) : round_half_even (inject_Z z) = z.
Proof.
  unfold round_half_even. rewrite Qfloor_Z.
  assert (H : ((inject_Z z - inject_Z z ?= 1 # 2) = Lt)%Q).
  { apply Qlt_alt. unfold Qminus. by rewrite Qplus_opp_r. }
  by rewrite H.
Qed.

Lemma binade_spec (q : Q) :
  (0 < q)%Q → (2 ^ binade q <= q < 2 ^ (binade q + 1))%Q.
Proof.
  intros Hq. destruct q as [n d].
  assert (Hn : (0 < n)%Z) by (unfold Qlt in Hq; cbn in Hq; lia).
  unfold binade. cbn [Qnum Qden].
  pose proof (Z.log2_spec n Hn) as [Ha1 Ha2].
  pose proof (Z.log2_spec (Z.pos d) ltac:(lia)) as [Hb1 Hb2].
  pose proof (Z.log2_nonneg n) as Ha0.
  pose proof (Z.log2_nonneg (Z.pos d)) as Hb0.
  set (a := Z.log2 n) in *. set (b := Z.log2 (Z.pos d)) in *.
  rewrite <- Z.add_1_r in Ha2, Hb2.
  assert (Hqd : ((n # d) * inject_Z (Z.pos d) == inject_Z n)%Q).
  { rewrite (Qmake_Qdiv n d). field. discriminate. }
  assert (HA1 : (2 ^ a <= inject_Z n)%Q).
  { rewrite <- pow2_Z by done. rewrite <- Zle_Qle. exact Ha1. }
  assert (HA2 : (inject_Z n < 2 ^ (a + 1))%Q).
  { rewrite <- pow2_Z by lia. rewrite <- Zlt_Qlt. exact Ha2. }
  assert (HB1 : (2 ^ b <= inject_Z (Z.pos d))%Q).
  { rewrite <- pow2_Z by done. rewrite <- Zle_Qle. exact Hb1. }
  assert (HB2 : (inject_Z (Z.pos d) < 2 ^ (b + 1))%Q).
  { rewrite <- pow2_Z by lia. rewrite <- Zlt_Qlt. exact Hb2. }
  assert (Hup : (n # d < 2 ^ (a - b + 1))%Q).
  { replace (a - b + 1)%Z with (a + 1 - b)%Z by lia.
    rewrite Qpower_minus by done.
    apply Qlt_shift_div_l; [apply pow2_pos|].
    pose proof (pow2_pos b). nra. }
  assert (Hlo : (2 ^ (a - b - 1) < n # d)%Q).
  { replace (a - b - 1)%Z with (a - (b + 1))%Z by lia.
    rewrite Qpower_minus by done.
    apply Qlt_shift_div_r; [apply pow2_pos|].
    pose proof (pow2_pos (b + 1)). nra. }
  destruct (Qle_bool (2 ^ (a - b)) (n # d)) eqn:E.
  - apply Qle_bool_iff in E. done.
  - split; [by apply Qlt_le_weak|].
    replace (a - b - 1 + 1)%Z with (a - b)%Z by lia.
    apply Qnot_le_lt. intros Hle. apply Qle_bool_iff in Hle. congruence.
Qed.

Lemma binade_mono (x y : Q) :
  (0 < x)%Q → (x <= y)%Q → (binade x <= binade y)%Z.
Proof.
  intros Hx Hxy.
  destruct (binade_spec x Hx) as [Hx1 _].
  destruct (binade_spec y ltac:(lra)) as [_ Hy2].
  assert (Hlt : (2 ^ binade x < 2 ^ (binade y + 1))%Q) by lra.
  apply Qpower_lt_compat_l_inv in Hlt; [lia | done].
Qed.

Lemma binade_comp (x y : Q) :
  (0 < x)%Q → (x == y)%Q → binade x = binade y.
Proof.
  intros Hx Hxy.
  pose proof (binade_mono x y Hx ltac:(lra)).
  pose proof (binade_mono y x ltac:(lra) ltac:(lra)). lia.
Qed.


Lemma fl_pos_unfold (q : Q) :
  fl_pos q = (inject_Z (round_half_even (q / 2 ^ expo q)) * 2 ^ expo q)%Q.
Proof. reflexivity. Qed.

Lemma expo_mono (x y : Q) : (0 < x)%Q → (x <= y)%Q → (expo x <= expo y)%Z.
Proof. intros Hx Hxy. pose proof (binade_mono x y Hx Hxy). unfold expo. lia. Qed.

Lemma div_pow2_le (x y : Q) (e : Z) :
  (x <= y)%Q → (x / 2 ^ e <= y / 2 ^ e)%Q.
Proof.
  intros Hxy. apply Qle_shift_div_l; [apply pow2_pos|].
  unfold Qdiv. rewrite <- Qmult_assoc, (Qmult_comm (/ _)), Qmult_inv_r, Qmult_1_r;
    [done|].
  pose proof (pow2_pos e). lra.
Qed.

Lemma round_half_even_nonneg (x : Q) : (0 <= x)%Q → (0 <= round_half_even x)%Z.
Proof.
  intros Hx. change 0%Z with (round_half_even (inject_Z 0)).
  by apply round_half_even_mono.
Qed.

Lemma fl_pos_nonneg (q : Q) : (0 < q)%Q → (0 <= fl_pos q)%Q.
Proof.
  intros Hq. rewrite fl_pos_unfold.
  apply Qmult_le_0_compat; [|apply Qlt_le_weak, pow2_pos].
  change 0%Q with (inject_Z 0). rewrite <- Zle_Qle.
  apply round_half_even_nonneg.
  apply Qle_shift_div_l; [apply pow2_pos|]. lra.
Qed.

(** The significand has at most 53 bits, and exactly 53 above the
    subnormal range. *)
Lemma significand_upper (q : Q) :
  (0 < q)%Q → (round_half_even (q / 2 ^ expo q) <= 2 ^ 53)%Z.
Proof.
  intros Hq. rewrite <- (round_half_even_Z (2 ^ 53)).
  apply round_half_even_mono. rewrite pow2_Z by done.
  apply Qle_shift_div_r; [apply pow2_pos|].
  rewrite <- Qpower_plus by done.
  destruct (binade_spec q Hq) as [_ Hup].
  apply Qlt_le_weak, (Qlt_le_trans _ _ _ Hup).
  apply Qpower_le_compat_l; [unfold expo; lia | done].
Qed.

Lemma significand_lower (q : Q) :
  (0 < q)%Q → expo q = (binade q - 52)%Z →
  (2 ^ 52 <= round_half_even (q / 2 ^ expo q))%Z.
Proof.
  intros Hq He. rewrite <- (round_half_even_Z (2 ^ 52)).
  apply round_half_even_mono. rewrite pow2_Z by done.
  apply Qle_shift_div_l; [apply pow2_pos|].
  rewrite <- Qpower_plus by done.
  destruct (binade_spec q Hq) as [Hlo _].
  replace (52 + expo q)%Z with (binade q) by lia. done.
Qed.

Lemma fl_pos_mono (x y : Q) :
  (0 < x)%Q → (x <= y)%Q → (fl_pos x <= fl_pos y)%Q.
Proof.
  intros Hx Hxy. assert (Hy : (0 < y)%Q) by lra.
  pose proof (expo_mono x y Hx Hxy) as He.
  rewrite !fl_pos_unfold.
  destruct (Z.eq_dec (expo x) (expo y)) as [Heq|Hne].
  - rewrite Heq. apply Qmult_le_compat_r; [|apply Qlt_le_weak, pow2_pos].
    rewrite <- Zle_Qle. apply round_half_even_mono. by apply div_pow2_le.
  - assert (Hlt : (expo x + 1 <= expo y)%Z) by lia.
    assert (Hey : expo y = (binade y - 52)%Z) by (unfold expo in *; lia).
    pose proof (significand_upper x Hx) as Hux.
    pose proof (significand_lower y Hy Hey) as Hly.
    rewrite Zle_Qle in Hux, Hly. rewrite pow2_Z in Hux, Hly by done.
    pose proof (pow2_pos (expo x)) as Hpx.
    pose proof (pow2_pos (expo y)) as Hpy.
    assert (Hpow : (2 * 2 ^ expo x <= 2 ^ expo y)%Q).
    { rewrite <- pow2_succ. by apply Qpower_le_compat_l. }
    assert (H53 : (2 ^ 53 == 2 * 2 ^ 52)%Q) by reflexivity.
    set (mx := inject_Z (round_half_even (x / 2 ^ expo x))) in *.
    set (my := inject_Z (round_half_even (y / 2 ^ expo y))) in *.
    set (px := (2 ^ expo x)%Q) in *. set (py := (2 ^ expo y)%Q) in *.
    set (c := (2 ^ 52)%Q) in *.
    assert (Hc : (0 < c)%Q) by apply pow2_pos.
    rewrite H53 in Hux.
    apply (Qle_trans _ (2 * c * px)); [nra|].
    apply (Qle_trans _ (c * py)); nra.
Qed.

Lemma fl_pos_comp (x y : Q) :
  (0 < x)%Q → (x == y)%Q → (fl_pos x == fl_pos y)%Q.
Proof.
  intros Hx Hxy. rewrite !fl_pos_unfold.
  assert (He : expo x = expo y) by (unfold expo; by rewrite (binade_comp x y)).
  rewrite He.
  rewrite (round_half_even_comp (x / 2 ^ expo y) (y / 2 ^ expo y));
    [reflexivity | by rewrite Hxy].
Qed.

Lemma Qnum_pos (q : Q) : (0 < q)%Q ↔ ∃ p, Qnum q = Z.pos p.
Proof.
  destruct q as [[|p|p] d]; unfold Qlt; cbn; split; try lia;
    try (intros [? ?]; done). by eexists.
Qed.

Lemma Qnum_neg (q : Q) : (q < 0)%Q ↔ ∃ p, Qnum q = Z.neg p.
Proof.
  destruct q as [[|p|p] d]; unfold Qlt; cbn; split; try lia;
    try (intros [? ?]; done). by eexists.
Qed.

Lemma Qnum_zero (q : Q) : (q == 0)%Q ↔ Qnum q = 0%Z.
Proof. destruct q as [n d]; unfold Qeq; cbn. lia. Qed.

Lemma fl_pos_eq (q : Q) : (0 < q)%Q → (fl q == fl_pos q)%Q.
Proof.
  intros [p Hp]%Qnum_pos. unfold fl. rewrite Hp. apply Qred_correct.
Qed.

Lemma fl_neg_eq (q : Q) : (q < 0)%Q → (fl q == - fl_pos (- q))%Q.
Proof.
  intros [p Hp]%Qnum_neg. unfold fl. rewrite Hp. apply Qred_correct.
Qed.

Lemma fl_zero_eq (q : Q) : (q == 0)%Q → fl q = 0%Q.
Proof. intros Hq%Qnum_zero. unfold fl. by rewrite Hq. Qed.

Lemma fl_mono (x y : Q) : (x <= y)%Q → (fl x <= fl y)%Q.
Proof.
  intros Hxy.
  destruct (Q_dec x 0) as [[Hx|Hx]|Hx]; destruct (Q_dec y 0) as [[Hy|Hy]|Hy];
    try (exfalso; lra).
  - rewrite (fl_neg_eq x Hx), (fl_neg_eq y Hy).
    pose proof (fl_pos_mono (- y) (- x) ltac:(lra) ltac:(lra)). lra.
  - rewrite (fl_neg_eq x Hx), (fl_pos_eq y Hy).
    pose proof (fl_pos_nonneg (- x) ltac:(lra)).
    pose proof (fl_pos_nonneg y Hy). lra.
  - rewrite (fl_neg_eq x Hx), (fl_zero_eq y Hy).
    pose proof (fl_pos_nonneg (- x) ltac:(lra)). lra.
  - rewrite (fl_pos_eq x Hx), (fl_pos_eq y Hy). by apply fl_pos_mono.
  - rewrite (fl_zero_eq x Hx), (fl_pos_eq y Hy). by apply fl_pos_nonneg.
  - by rewrite (fl_zero_eq x Hx), (fl_zero_eq y Hy).
Qed.

Lemma fl_comp (x y : Q) : (x == y)%Q → fl x = fl y.
Proof.
  intros Hxy.
  destruct (Q_dec x 0) as [[Hx|Hx]|Hx].
  - assert (Hy : (y < 0)%Q) by lra.
    apply Qnum_neg in Hx as Hx', Hy as Hy'.
    destruct Hx' as [p Hp], Hy' as [p' Hp']. unfold fl. rewrite Hp, Hp'.
    apply Qred_complete.
    rewrite (fl_pos_comp (- x) (- y)); [reflexivity | lra | by rewrite Hxy].
  - assert (Hy : (0 < y)%Q) by lra.
    apply Qnum_pos in Hx as Hx', Hy as Hy'.
    destruct Hx' as [p Hp], Hy' as [p' Hp']. unfold fl. rewrite Hp, Hp'.
    apply Qred_complete. by apply fl_pos_comp.
  - rewrite (fl_zero_eq x Hx), (fl_zero_eq y); [done | lra].
Qed.

Lemma fl_red (x : Q) : Qred (fl x) = fl x.
Proof.
  unfold fl. destruct (Qnum x); [done| |]; apply Qred_complete, Qred_correct.
Qed.

(** Integers up to 2^53 are floats. *)
Lemma fl_int (k : Z) :
  (0 <= k <= 2 ^ 53)%Z → (fl (inject_Z k) == inject_Z k)%Q.
Proof.
  intros [H0 H53].
  destruct (Z.eq_dec k 0%Z) as [->|Hk0]; [done|].
  destruct (Z.eq_dec k (2 ^ 53)%Z) as [->|Hk53]; [by vm_compute|].
  assert (Hk : (0 < inject_Z k)%Q) by (change 0%Q with (inject_Z 0); rewrite <- Zlt_Qlt; lia).
  rewrite (fl_pos_eq _ Hk), fl_pos_unfold.
  destruct (binade_spec _ Hk) as [Hlo _].
  assert (Hb : (binade (inject_Z k) < 53)%Z).
  { apply (Qpower_lt_compat_l_inv 2); [|done].
    apply (Qle_lt_trans _ _ _ Hlo). rewrite <- pow2_Z by done.
    rewrite <- Zlt_Qlt. lia. }
  assert (He : (expo (inject_Z k) <= 0)%Z) by (unfold expo; lia).
  set (e := expo (inject_Z k)) in *.
  assert (Hscaled : (inject_Z k / 2 ^ e == inject_Z (k * 2 ^ (- e)))%Q).
  { rewrite inject_Z_mult, pow2_Z by lia. rewrite Qpower_opp. reflexivity. }
  rewrite (round_half_even_comp _ _ Hscaled), round_half_even_Z.
  rewrite inject_Z_mult, pow2_Z by lia. rewrite Qpower_opp.
  field. pose proof (pow2_pos e). lra.
Qed.

End Binary64.

(** ** Decimal rounding *)

Lemma round_decimal_mono (x y : Q) (ndigits : nat) :
  (x <= y)%Q → (Py.round_decimal x ndigits <= Py.round_decimal y ndigits)%Q.
Proof.
  intros Hxy. unfold Py.round_decimal. rewrite !Qred_correct.
  unfold Qle; cbn [Qnum Qden].
  apply Z.mul_le_mono_nonneg_r; [apply Pos2Z.is_nonneg|].
  apply round_half_even_mono, Qmult_le_compat_r; [exact Hxy|].
  unfold Qle; cbn; lia.
Qed.

Lemma round_decimal_comp (x y : Q) (ndigits : nat) :
  (x == y)%Q → Py.round_decimal x ndigits = Py.round_decimal y ndigits.
Proof.
  intros Hxy. unfold Py.round_decimal.
  rewrite (round_half_even_comp
             (x * inject_Z (Z.pos (Z.to_pos (10 ^ Z.of_nat ndigits))))
             (y * inject_Z (Z.pos (Z.to_pos (10 ^ Z.of_nat ndigits))))).
  - reflexivity.
  - by rewrite Hxy.
Qed.

Lemma round_mono_fl (x y : Q) (ndigits : nat) :
  (Py.fl x <= Py.fl y)%Q → (Py.round x ndigits <= Py.round y ndigits)%Q.
Proof. apply round_decimal_mono. Qed.

Lemma round_mono (x y : Q) (ndigits : nat) :
  (x <= y)%Q → (Py.round x ndigits <= Py.round y ndigits)%Q.
Proof. intros Hxy. by apply round_mono_fl, fl_mono. Qed.


(** The quotient 102/160 is 0.6375 and has no binary64 number of its
    own; the nearest one lies below it, so [round] gives 0.637 where the
    decimal nearest to the quotient itself, ties to even, is 0.638. *)
Lemma round_valor_binario :
  Py.round (102 # 160) 3 = (637 # 1000)%Q
  ∧ Py.round_decimal (102 # 160) 3 = (319 # 500)%Q.
Proof. by vm_compute. Qed.

(** ** Comparison of scores *)

Lemma Qlt_bool_iff (x y : Q) : Py.Qlt_bool x y = true ↔ (x < y)%Q.
Proof.
  unfold Py.Qlt_bool. rewrite negb_true_iff.
  destruct (Qle_bool y x) eqn:E.
  - apply Qle_bool_iff in E. split; [discriminate | intros; lra].
  - split; [intros _ | reflexivity].
    apply Qnot_le_lt. intros Hle. apply Qle_bool_iff in Hle. congruence.
Qed.

Lemma Qlt_bool_false (x y : Q) : Py.Qlt_bool x y = false ↔ (y <= x)%Q.
Proof.
  unfold Py.Qlt_bool. rewrite negb_false_iff. apply Qle_bool_iff.
Qed.

(** ** The standard policy as a single pass over the pairs *)

Lemma construir_candidatos_map (columnas : list string) :
  construir_candidatos columnas = map (λ c, (c, normalizar_texto c)) columnas.
Proof.
  unfold construir_candidatos.
  enough (∀ acc, foldl (λ candidatos columna,
                          candidatos ++ [(columna, normalizar_texto columna)])
                       acc columnas
                 = acc ++ map (λ c, (c, normalizar_texto c)) columnas) as Hgen
    by apply (Hgen []).
  induction columnas as [|c cs IH]; intros acc; cbn.
  - by rewrite app_nil_r.
  - rewrite IH, <- app_assoc. reflexivity.
Qed.

Lemma simple_candidato_pares (sinonimos : list string) (mejor : Mejor)
    (c : string) :
  simple_candidato sinonimos (map normalizar_texto sinonimos) mejor
                   (c, normalizar_texto c)
  = foldl paso_par mejor (map (λ s, (c, s)) sinonimos).
Proof.
  unfold simple_candidato.
  revert mejor. induction sinonimos as [|s ss IH]; intros mejor; [done|].
  cbn [map zip zip_with foldl]. rewrite IH. reflexivity.
Qed.

Lemma simple_fold_pares (sinonimos columnas : list string) (mejor : Mejor) :
  foldl (simple_candidato sinonimos (map normalizar_texto sinonimos)) mejor
        (construir_candidatos columnas)
  = foldl paso_par mejor (pares sinonimos columnas).
Proof.
  rewrite construir_candidatos_map. unfold pares.
  revert mejor. induction columnas as [|c cs IH]; intros mejor; [done|].
  cbn [map flat_map foldl]. rewrite foldl_app, simple_candidato_pares.
  apply IH.
Qed.

Lemma scan_inv_step (ps : list (string * string)) (mejor : Mejor)
    (p : string * string) :
  scan_inv ps mejor → scan_inv (ps ++ [p]) (paso_par mejor p).
Proof.
  intros [[-> Hall] | (n & c & s & -> & Hpos & Hn & Hmax & Hfirst)];
    unfold paso_par; cbn [fst snd].
  - destruct (Py.Qlt_bool 0 (score_par p.1 p.2)) eqn:E.
    + apply Qlt_bool_iff in E. right. exists (length ps), p.1, p.2.
      split; [done|]. split; [done|]. destruct p as [c s]; cbn [fst snd] in *.
      split; [|split].
      * by rewrite lookup_app_r, Nat.sub_diag.
      * intros q [Hq | ->%list_elem_of_singleton]%elem_of_app; cbn [fst snd].
        -- specialize (Hall q Hq). lra.
        -- lra.
      * intros m q Hm Hq. rewrite lookup_app_l in Hq by done.
        apply list_elem_of_lookup_2 in Hq. specialize (Hall q Hq).
        cbn [fst snd]. lra.
    + apply Qlt_bool_false in E. left. split; [done|].
      intros q [Hq | ->%list_elem_of_singleton]%elem_of_app; auto.
  - pose proof (lookup_lt_Some _ _ _ Hn) as Hlt.
    destruct (Py.Qlt_bool (score_par c s) (score_par p.1 p.2)) eqn:E.
    + apply Qlt_bool_iff in E. right. exists (length ps), p.1, p.2.
      split; [done|]. split; [lra|]. destruct p as [c' s']; cbn [fst snd] in *.
      split; [|split].
      * by rewrite lookup_app_r, Nat.sub_diag.
      * intros q [Hq | ->%list_elem_of_singleton]%elem_of_app; cbn [fst snd].
        -- specialize (Hmax q Hq). cbn [fst snd] in Hmax. lra.
        -- lra.
      * intros m q Hm Hq. rewrite lookup_app_l in Hq by done.
        apply list_elem_of_lookup_2 in Hq. specialize (Hmax q Hq).
        cbn [fst snd] in Hmax |- *. lra.
    + apply Qlt_bool_false in E. right. exists n, c, s.
      split; [done|]. split; [done|]. split; [|split].
      * by rewrite lookup_app_l.
      * intros q [Hq | ->%list_elem_of_singleton]%elem_of_app; cbn [fst snd];
          [by apply Hmax | done].
      * intros m q Hm Hq. rewrite lookup_app_l in Hq by lia. eauto.
Qed.

Lemma scan_inv_foldl (ps0 ps : list (string * string)) (mejor : Mejor) :
  scan_inv ps0 mejor → scan_inv (ps0 ++ ps) (foldl paso_par mejor ps).
Proof.
  revert ps0 mejor. induction ps as [|p ps IH]; intros ps0 mejor Hinv.
  - by rewrite app_nil_r.
  - cbn [foldl]. replace (ps0 ++ p :: ps) with ((ps0 ++ [p]) ++ ps)
      by (by rewrite <- app_assoc).
    apply IH, scan_inv_step, Hinv.
Qed.

Lemma scan_spec (sinonimos columnas : list string) :
  scan_inv (pares sinonimos columnas)
    (foldl (simple_candidato sinonimos (map normalizar_texto sinonimos))
           (None, 0%Q, None) (construir_candidatos columnas)).
Proof.
  rewrite simple_fold_pares.
  apply (scan_inv_foldl [] (pares sinonimos columnas)).
  left. split; [done|]. intros q Hq. by apply elem_of_nil in Hq.
Qed.

(** ** The diet policy as a filter over the scored pairs *)

Lemma dieta_paso_spec (self : SimilarityEngine) (c : string) (cubos : Cubos)
    (s : string) :
  dieta_paso self c (normalizar_texto c) cubos s
  = cubos_app cubos
      (cubos_de (List.filter (aceptada self) [(c, score_par c s, s)])).
Proof.
  destruct cubos as [[f v] g].
  unfold dieta_paso, cubos_app, cubos_de, aceptada, en_cubo, cubo_de.
  cbn [List.filter fst snd]. fold (score_par c s).
  destruct (Qle_bool (umbral_similitud self) (score_par c s));
    cbn [List.filter fst snd]; [|by rewrite !app_nil_r].
  destruct (existsb _ palabras_frutas);
    [|destruct (existsb _ palabras_vegetales)];
    cbn; by rewrite !app_nil_r.
Qed.

Lemma cubos_de_app (xs ys : list Coincidencia) :
  cubos_de (xs ++ ys) = cubos_app (cubos_de xs) (cubos_de ys).
Proof. unfold cubos_de, cubos_app; cbn. by rewrite !List.filter_app. Qed.

Lemma cubos_app_assoc (x y z : Cubos) :
  cubos_app (cubos_app x y) z = cubos_app x (cubos_app y z).
Proof. unfold cubos_app; cbn. by rewrite <- !app_assoc. Qed.

Lemma dieta_candidato_spec (self : SimilarityEngine) (sinonimos : list string)
    (cubos : Cubos) (c : string) :
  dieta_candidato self sinonimos cubos (c, normalizar_texto c)
  = cubos_app cubos
      (cubos_de (List.filter (aceptada self)
                   (map (λ s, (c, score_par c s, s)) sinonimos))).
Proof.
  unfold dieta_candidato. revert cubos.
  induction sinonimos as [|s ss IH]; intros cubos.
  - destruct cubos as [[f v] g]. unfold cubos_app; cbn. by rewrite !app_nil_r.
  - cbn [foldl map]. rewrite IH, dieta_paso_spec, cubos_app_assoc.
    rewrite <- cubos_de_app, <- List.filter_app. reflexivity.
Qed.

Lemma dieta_fold_spec (self : SimilarityEngine)
    (sinonimos columnas : list string) (cubos : Cubos) :
  foldl (dieta_candidato self sinonimos) cubos (construir_candidatos columnas)
  = cubos_app cubos (cubos_de (aceptadas self sinonimos columnas)).
Proof.
  rewrite construir_candidatos_map. unfold aceptadas, coincidencias.
  revert cubos. induction columnas as [|c cs IH]; intros cubos.
  - destruct cubos as [[f v] g]. unfold cubos_app; cbn. by rewrite !app_nil_r.
  - cbn [foldl map flat_map]. rewrite IH, dieta_candidato_spec.
    rewrite cubos_app_assoc, <- cubos_de_app, <- List.filter_app.
    reflexivity.
Qed.


Lemma cubos_de_perm (xs : list Coincidencia) :
  (cubos_de xs).1.1 ++ (cubos_de xs).1.2 ++ (cubos_de xs).2 ≡ₚ xs.
Proof.
  unfold cubos_de; cbn [fst snd].
  induction xs as [|x xs IH]; [done|].
  cbn [List.filter].
  assert (Hk : ∀ k, en_cubo k x = bool_decide (cubo_de x.1.1 = k)) by done.
  rewrite !Hk. destruct (cubo_de x.1.1); repeat case_bool_decide;
    try done; cbn [app].
  - by rewrite IH.
  - rewrite <- Permutation_middle. by rewrite IH.
  - rewrite app_assoc, <- Permutation_middle, <- app_assoc. by rewrite IH.
Qed.

Lemma insertar_por_score_perm (x : Coincidencia) (xs : list Coincidencia) :
  insertar_por_score x xs ≡ₚ x :: xs.
Proof.
  induction xs as [|y ys IH]; [done|]. cbn.
  destruct (Py.Qlt_bool _ _); [|done].
  rewrite IH. apply perm_swap.
Qed.

Lemma sort_por_score_perm (xs : list Coincidencia) : sort_por_score xs ≡ₚ xs.
Proof.
  induction xs as [|x xs IH]; [done|]. cbn.
  by rewrite insertar_por_score_perm, IH.
Qed.

(** The diet search, with its loops replaced by their meaning. *)
Lemma dieta_unfold (self : SimilarityEngine)
    (sinonimos columnas : list string) :
  let acc := aceptadas self sinonimos columnas in
  let '(fs, vs, gs) := cubos_de acc in
  buscar_variable_dieta_especial self sinonimos columnas
  = match sort_por_score (fs ++ vs ++ gs) with
    | mejor_match :: _ =>
        {| encontrada := true;
           columna := Some mejor_match.1.1;
           confianza := Py.round mejor_match.1.2 3;
           sinonimo_match := Some mejor_match.2;
           umbral_usado := None;
           notas := Some (Py.join "; "
                      (nota_de "Frutas detectadas" fs
                         ++ nota_de "Vegetales detectados" vs
                         ++ nota_de "Dieta general" gs));
           detalles := Some {| frutas := fs; vegetales := vs;
                               generales := gs |} |}
    | [] =>
        {| encontrada := false;
           columna := None;
           confianza := 0;
           sinonimo_match := None;
           umbral_usado := None;
           notas := Some "No se encontraron coincidencias de dieta"%string;
           detalles := Some {| frutas := []; vegetales := [];
                               generales := [] |} |}
    end.
Proof.
  cbn zeta. unfold buscar_variable_dieta_especial.
  rewrite dieta_fold_spec. unfold cubos_app; cbn [fst snd app].
  destruct (cubos_de _) as [[fs vs] gs]. reflexivity.
Qed.

(** The two outcomes of the diet search. *)
Lemma dieta_casos (self : SimilarityEngine) (sinonimos columnas : list string) :
  let acc := aceptadas self sinonimos columnas in
  let r := buscar_variable_dieta_especial self sinonimos columnas in
  (acc = [] ∧ encontrada r = false ∧ confianza r = 0%Q ∧ columna r = None
   ∧ detalles r = Some {| frutas := []; vegetales := []; generales := [] |})
  ∨ (∃ m, m ∈ acc ∧ encontrada r = true ∧ confianza r = Py.round m.1.2 3
          ∧ columna r = Some m.1.1 ∧ sinonimo_match r = Some m.2
          ∧ detalles r = Some {| frutas := (cubos_de acc).1.1;
                                 vegetales := (cubos_de acc).1.2;
                                 generales := (cubos_de acc).2 |}).
Proof.
  cbn zeta. pose proof (dieta_unfold self sinonimos columnas) as Hu.
  cbn zeta in Hu. pose proof (cubos_de_perm (aceptadas self sinonimos columnas)) as Hp.
  destruct (cubos_de _) as [[fs vs] gs]; cbn [fst snd] in *.
  rewrite Hu. rewrite <- (sort_por_score_perm (fs ++ vs ++ gs)) in Hp.
  destruct (sort_por_score (fs ++ vs ++ gs)) as [|m ms]; cbn.
  - left. apply Permutation_nil_l in Hp. rewrite <- Hp. repeat split.
  - right. exists m. repeat split. rewrite <- Hp. apply list_elem_of_here.
Qed.

Lemma aceptadas_elem (self : SimilarityEngine) (sinonimos columnas : list string)
    (x : Coincidencia) :
  x ∈ aceptadas self sinonimos columnas
  ↔ x ∈ coincidencias sinonimos columnas
    ∧ (umbral_similitud self <= x.1.2)%Q.
Proof.
  unfold aceptadas. rewrite !list_elem_of_In, List.filter_In.
  unfold aceptada. by rewrite Qle_bool_iff.
Qed.

Lemma pares_elem (sinonimos columnas : list string) (c s : string) :
  (c, s) ∈ pares sinonimos columnas ↔ c ∈ columnas ∧ s ∈ sinonimos.
Proof.
  unfold pares. rewrite list_elem_of_In, in_flat_map. split.
  - intros (c' & Hc & Hin). apply in_map_iff in Hin as (s' & [= <- <-] & Hs).
    by rewrite !list_elem_of_In.
  - intros [Hc Hs]. exists c. rewrite <- list_elem_of_In. split; [done|].
    apply in_map_iff. exists s. by rewrite <- list_elem_of_In.
Qed.

Lemma simple_unfold (self : SimilarityEngine) (variable_key : string)
    (sinonimos columnas : list string) :
  buscar_variable_simple self variable_key sinonimos columnas
  = {| encontrada := Qle_bool (umbral_similitud self)
                              (mejor_simple sinonimos columnas).1.2;
       columna := Py.str_if_truthy (mejor_simple sinonimos columnas).1.1;
       confianza := Py.round (mejor_simple sinonimos columnas).1.2 3;
       sinonimo_match := Py.str_if_truthy (mejor_simple sinonimos columnas).2;
       umbral_usado := Some (umbral_similitud self);
       notas := None;
       detalles := None |}.
Proof.
  unfold buscar_variable_simple, mejor_simple.
  by destruct (foldl _ _ _) as [[mc ms] msyn].
Qed.

(** A column of 51 [a] and 29 [b] scores 102/160 against the synonym of
    51 [a] and 29 [c]; at the threshold 0.6375 it is found with the
    confidence 0.637. *)
Lemma simple_valor_binario :
  let c := (repetir 51 "a" +:+ repetir 29 "b")%string in
  let s := (repetir 51 "a" +:+ repetir 29 "c")%string in
  let r :=
    buscar_variable_simple {| umbral_similitud := 51 # 80 |} "x" [s] [c] in
  score_par c s = (51 # 80)%Q ∧ encontrada r = true
  ∧ confianza r = (637 # 1000)%Q.
Proof. by vm_compute. Qed.

(** ** Statistics *)

(** Values of the code's float arithmetic: 23 of 80 is a coverage of
    28.7, the product [(23 / 80) * 100] lying below 28.75; the mean of
    0.889 and 0.71 is 0.799, the sum lying below 1.599; three times
    0.0055 has the mean 0.006 while 0.0055 itself rounds to 0.005. *)
Lemma estadisticas_valor_binario :
  Py.round (porcentaje 23 80) 1 = (287 # 10)%Q
  ∧ Py.round (media [889 # 1000; 71 # 100]%Q) 3 = (799 # 1000)%Q
  ∧ Py.round (media [11 # 2000; 11 # 2000; 11 # 2000]%Q) 3 = (3 # 500)%Q
  ∧ Py.round (11 # 2000) 3 = (1 # 200)%Q.
Proof. by vm_compute. Qed.

Lemma encontradas_count (resultados : list Resultado) (n : nat) :
  foldl (λ acc r, if encontrada (resultado r) then acc + 1 else acc)
        n resultados
  = n + length (encontrados resultados).
Proof.
  revert n. induction resultados as [|r rs IH]; intros n; cbn; [lia|].
  rewrite IH. unfold encontrados; cbn [List.filter].
  destruct (encontrada (resultado r)); cbn [length]; lia.
Qed.

Lemma faltantes_list (resultados : list Resultado) :
  foldr (λ r acc, if negb (encontrada (resultado r)) then variable r :: acc
                  else acc) [] resultados
  = map variable (faltantes resultados).
Proof.
  induction resultados as [|r rs IH]; cbn; [done|].
  rewrite IH. by destruct (encontrada (resultado r)).
Qed.

Lemma confianzas_list (resultados : list Resultado) :
  foldr (λ r acc, if encontrada (resultado r)
                  then confianza (resultado r) :: acc else acc) [] resultados
  = map (λ r, confianza (resultado r)) (encontrados resultados).
Proof.
  induction resultados as [|r rs IH]; cbn; [done|].
  rewrite IH. by destruct (encontrada (resultado r)).
Qed.

(** ** Strings as sequences of characters *)

Lemma length_list_ascii (s : string) :
  length (list_ascii_of_string s) = String.length s.
Proof. induction s as [|c s IH]; cbn; [done | by rewrite IH]. Qed.

Lemma similitud_cero (texto1 texto2 : string) :
  String.length texto2 < 200 →
  (calcular_similitud texto1 texto2 == 0)%Q
  ↔ ¬ comparten_caracter texto1 texto2
    ∧ 0 < String.length texto1 + String.length texto2.
Proof.
  intros Hlen. unfold calcular_similitud.
  rewrite ratio_zero_short by (by rewrite length_list_ascii).
  rewrite !length_list_ascii. unfold comparten_caracter. split.
  - intros [Hdis Hl]. split; [|done]. intros (c & H1 & H2). by apply (Hdis c).
  - intros [Hno Hl]. split; [|done]. intros c H1 H2. apply Hno. by exists c.
Qed.

Lemma similitud_uno (texto1 texto2 : string) :
  (calcular_similitud texto1 texto2 == 1)%Q ↔ texto1 = texto2.
Proof.
  unfold calcular_similitud. rewrite ratio_one. split; [|by intros ->].
  intros Heq. apply (f_equal string_of_list_ascii) in Heq.
  by rewrite !string_of_list_ascii_of_string in Heq.
Qed.

(** A column whose normalized text is empty scores 0.0 against every
    synonym whose normalized text is not empty (and 1.0 against one whose
    normalized text is empty too). *)
Lemma score_par_columna_vacia (columna sinonimo : string) :
  normalizar_texto columna = EmptyString →
  score_par columna sinonimo
  = if decide (normalizar_texto sinonimo = EmptyString) then 1%Q else 0%Q.
Proof.
  intros Hc. unfold score_par, calcular_similitud. rewrite Hc.
  case_decide as Hs.
  - rewrite Hs. apply ratio_self.
  - unfold Difflib.ratio. rewrite matches_disjoint.
    + apply calculate_ratio_zero. rewrite length_list_ascii.
      destruct (normalizar_texto sinonimo); [done | cbn; lia].
    + intros x Hx. by apply elem_of_nil in Hx.
Qed.

(** ** Characters *)

Ltac por_caracter c :=
  destruct c as [[] [] [] [] [] [] [] []]; vm_compute; reflexivity.

Lemma isspace_lower_char (c : ascii) :
  Py.isspace (Py.lower_char c) = Py.isspace c.
Proof. por_caracter c. Qed.

Lemma isspace_strip_accents_char (c : ascii) :
  Py.isspace (Py.strip_accents_char c) = Py.isspace c.
Proof. por_caracter c. Qed.

Lemma lower_char_idem (c : ascii) :
  Py.lower_char (Py.lower_char c) = Py.lower_char c.
Proof. por_caracter c. Qed.

Lemma strip_accents_lower_char (c : ascii) :
  Py.strip_accents_char (Py.lower_char (Py.strip_accents_char c))
  = Py.strip_accents_char (Py.lower_char c).
Proof. por_caracter c. Qed.

Lemma az09_not_space (c : ascii) : Py.is_az09 c && Py.isspace c = false.
Proof. por_caracter c. Qed.

Lemma az09_lower_char (c : ascii) :
  Py.is_az09 c = true → Py.lower_char c = c.
Proof. destruct c as [[] [] [] [] [] [] [] []]; vm_compute; congruence. Qed.

Lemma az09_strip_accents_char (c : ascii) :
  Py.is_az09 c = true → Py.strip_accents_char c = c.
Proof. destruct c as [[] [] [] [] [] [] [] []]; vm_compute; congruence. Qed.

(** ** [strip] and the character maps *)

Lemma lstrip_map (f : ascii → ascii) (s : string) :
  (∀ c, Py.isspace (f c) = Py.isspace c) →
  Py.lstrip (Py.map_string f s) = Py.map_string f (Py.lstrip s).
Proof.
  intros Hf. induction s as [|c s IH]; [done|]. cbn.
  rewrite Hf. by destruct (Py.isspace c).
Qed.

Lemma rstrip_map (f : ascii → ascii) (s : string) :
  (∀ c, Py.isspace (f c) = Py.isspace c) →
  Py.rstrip (Py.map_string f s) = Py.map_string f (Py.rstrip s).
Proof.
  intros Hf. induction s as [|c s IH]; [done|]. cbn.
  rewrite IH, Hf. destruct (Py.rstrip s); cbn; [|done].
  by destruct (Py.isspace c).
Qed.

Lemma strip_map (f : ascii → ascii) (s : string) :
  (∀ c, Py.isspace (f c) = Py.isspace c) →
  Py.strip (Py.map_string f s) = Py.map_string f (Py.strip s).
Proof.
  intros Hf. unfold Py.strip. by rewrite lstrip_map, rstrip_map.
Qed.

Lemma map_string_comp (f g : ascii → ascii) (s : string) :
  Py.map_string f (Py.map_string g s) = Py.map_string (λ c, f (g c)) s.
Proof. induction s as [|c s IH]; cbn; [done | by rewrite IH]. Qed.

Lemma map_string_ext (f g : ascii → ascii) (s : string) :
  (∀ c, f c = g c) → Py.map_string f s = Py.map_string g s.
Proof. intros Hfg. induction s as [|c s IH]; cbn; [done | by rewrite IH, Hfg]. Qed.

(** ** The shape of a normalized text *)

Lemma sub_runs_espaciado (r : bool) (s : string) :
  espaciado r (Py.sub_runs (λ c, negb (Py.is_az09 c)) r s) = true.
Proof.
  revert r. induction s as [|c s IH]; intros r; [done|]. cbn.
  destruct (Py.is_az09 c) eqn:E; cbn.
  - by rewrite E.
  - destruct r; [apply IH|]. cbn. apply IH.
Qed.

Lemma espaciado_sub_runs_isspace (r : bool) (t : string) :
  espaciado r t = true → Py.sub_runs Py.isspace r t = t.
Proof.
  revert r. induction t as [|c t IH]; intros r; [done|]. cbn.
  pose proof (az09_not_space c) as Hc.
  destruct (Py.is_az09 c); cbn in Hc.
  - rewrite Hc. intros Ht. by rewrite (IH false).
  - intros [[->%Ascii.eqb_eq ->%negb_true_iff]%andb_true_iff Ht]%andb_true_iff.
    cbn. by rewrite (IH true).
Qed.

Lemma espaciado_sub_runs_az09 (r : bool) (t : string) :
  espaciado r t = true → Py.sub_runs (λ c, negb (Py.is_az09 c)) r t = t.
Proof.
  revert r. induction t as [|c t IH]; intros r; [done|]. cbn.
  destruct (Py.is_az09 c); cbn.
  - intros Ht. by rewrite (IH false).
  - intros [[->%Ascii.eqb_eq ->%negb_true_iff]%andb_true_iff Ht]%andb_true_iff.
    by rewrite (IH true).
Qed.

Lemma espaciado_lstrip (t : string) :
  espaciado false t = true → espaciado true (Py.lstrip t) = true.
Proof.
  destruct t as [|c t]; [done|]. cbn.
  pose proof (az09_not_space c) as Hc.
  destruct (Py.is_az09 c) eqn:E; cbn in Hc.
  - rewrite Hc. cbn. by rewrite E.
  - intros [[->%Ascii.eqb_eq _]%andb_true_iff Ht]%andb_true_iff.
    cbn [Py.lstrip]. replace (Py.isspace " ") with true by done.
    destruct t as [|d t]; [done|]. cbn [espaciado Py.lstrip] in Ht |- *.
    pose proof (az09_not_space d) as Hd.
    destruct (Py.is_az09 d) eqn:E'; cbn [andb] in Hd.
    + rewrite Hd. cbn [espaciado]. by rewrite E'.
    + by rewrite andb_false_r in Ht.
Qed.

Lemma palabras_nonempty (t : string) : palabras true t = true → t ≠ EmptyString.
Proof. by destruct t. Qed.

Lemma espaciado_rstrip (r : bool) (t : string) :
  espaciado r t = true →
  Py.rstrip t = EmptyString ∨ palabras r (Py.rstrip t) = true.
Proof.
  revert r. induction t as [|c t IH]; intros r; [by left|]. cbn.
  pose proof (az09_not_space c) as Hc.
  destruct (Py.is_az09 c) eqn:E; cbn in Hc.
  - intros Ht. right. destruct (IH false Ht) as [-> | Hp].
    + rewrite Hc. cbn. by rewrite E.
    + destruct (Py.rstrip t) eqn:Er; cbn.
      * rewrite Hc. cbn. by rewrite E.
      * by rewrite E.
  - intros [[->%Ascii.eqb_eq ->%negb_true_iff]%andb_true_iff Ht]%andb_true_iff.
    destruct (IH true Ht) as [-> | Hp]; [by left|]. right.
    destruct (Py.rstrip t) as [|d u] eqn:Er; [done|].
    change (palabras false (String " " (String d u)) = true).
    change (palabras false (String " " (String d u)))
      with (palabras true (String d u)).
    exact Hp.
Qed.

Lemma normalizar_texto_es_normal (texto : string) :
  es_normal (normalizar_texto texto) = true.
Proof.
  unfold normalizar_texto.
  set (t := Py.sub_runs _ false (Py.strip_accents _)).
  assert (Ht : espaciado false t = true) by apply sub_runs_espaciado.
  rewrite (espaciado_sub_runs_isspace false t Ht).
  unfold Py.strip.
  destruct (espaciado_rstrip true _ (espaciado_lstrip t Ht)) as [-> | Hp];
    [done|].
  unfold es_normal. by destruct (Py.rstrip _).
Qed.

Lemma palabras_espaciado (r : bool) (t : string) :
  palabras r t = true → espaciado r t = true.
Proof.
  revert r. induction t as [|c t IH]; intros r; [done|]. cbn.
  destruct (Py.is_az09 c); [apply IH|].
  intros [H1 H2]%andb_true_iff. by rewrite H1, (IH true).
Qed.

Lemma palabras_lstrip (t : string) :
  palabras true t = true → Py.lstrip t = t.
Proof.
  destruct t as [|c t]; [done|]. cbn.
  pose proof (az09_not_space c) as Hc.
  destruct (Py.is_az09 c); cbn in Hc; [by rewrite Hc|].
  by rewrite andb_false_r.
Qed.

Lemma palabras_rstrip (r : bool) (t : string) :
  palabras r t = true → Py.rstrip t = t.
Proof.
  revert r. induction t as [|c t IH]; intros r; [done|]. cbn.
  pose proof (az09_not_space c) as Hc.
  destruct (Py.is_az09 c); cbn in Hc.
  - intros Ht. rewrite (IH false Ht). destruct t; [by rewrite Hc | done].
  - intros [_ Ht]%andb_true_iff. rewrite (IH true Ht).
    destruct t; [done | done].
Qed.

Lemma es_normal_strip (t : string) : es_normal t = true → Py.strip t = t.
Proof.
  destruct t as [|c t]; [done|]. unfold es_normal, Py.strip. intros Ht.
  rewrite (palabras_lstrip _ Ht). by apply (palabras_rstrip true).
Qed.

Lemma espaciado_map (f : ascii → ascii) (r : bool) (t : string) :
  (∀ c, Py.is_az09 c = true → f c = c) → f " "%char = " "%char →
  espaciado r t = true → Py.map_string f t = t.
Proof.
  intros Hf Hsp. revert r. induction t as [|c t IH]; intros r; [done|]. cbn.
  destruct (Py.is_az09 c) eqn:E.
  - intros Ht. by rewrite (Hf c E), (IH false Ht).
  - intros [[->%Ascii.eqb_eq _]%andb_true_iff Ht]%andb_true_iff.
    by rewrite Hsp, (IH true Ht).
Qed.

(** A normalized text is left as it is. *)
Lemma es_normal_fijo (t : string) :
  es_normal t = true → normalizar_texto t = t.
Proof.
  intros Ht. unfold normalizar_texto.
  assert (He : espaciado true t = true).
  { destruct t; [done|]. by apply palabras_espaciado. }
  assert (He' : espaciado false t = true).
  { destruct t as [|c t]; [done|]. cbn in He |- *.
    destruct (Py.is_az09 c); [done|]. by rewrite andb_false_r in He. }
  rewrite (es_normal_strip t Ht).
  unfold Py.lower, Py.strip_accents.
  rewrite (espaciado_map Py.lower_char true t az09_lower_char eq_refl He).
  rewrite (espaciado_map Py.strip_accents_char true t
             az09_strip_accents_char eq_refl He).
  rewrite (espaciado_sub_runs_az09 false t He').
  rewrite (espaciado_sub_runs_isspace false t He').
  by apply es_normal_strip.
Qed.

Lemma lower_strip (s : string) : Py.lower (Py.strip s) = Py.strip (Py.lower s).
Proof. unfold Py.lower. symmetry. apply strip_map, isspace_lower_char. Qed.

Lemma lower_idem (s : string) : Py.lower (Py.lower s) = Py.lower s.
Proof.
  unfold Py.lower. rewrite map_string_comp.
  apply map_string_ext, lower_char_idem.
Qed.

Lemma palabras_chars (r : bool) (t : string) :
  palabras r t = true →
  Forall (λ c, Py.is_az09 c = true ∨ c = " "%char) (list_ascii_of_string t).
Proof.
  revert r. induction t as [|c t IH]; intros r; cbn; [by constructor|].
  destruct (Py.is_az09 c) eqn:E.
  - intros Ht. constructor; [by left | by apply (IH false)].
  - intros [[->%Ascii.eqb_eq _]%andb_true_iff Ht]%andb_true_iff.
    constructor; [by right | by apply (IH true)].
Qed.

Lemma espaciado_sin_dobles (r : bool) (t : string) :
  espaciado r t = true → Py.contains "  " t = false.
Proof.
  revert r. induction t as [|c t IH]; intros r; [done|].
  cbn [espaciado Py.contains].
  destruct (Py.is_az09 c) eqn:E.
  - intros Ht. rewrite (IH false Ht), orb_false_r.
    destruct c as [[] [] [] [] [] [] [] []]; try done.
  - intros [[->%Ascii.eqb_eq _]%andb_true_iff Ht]%andb_true_iff.
    rewrite (IH true Ht), orb_false_r.
    destruct t as [|d t]; [done|]. cbn in Ht.
    destruct (Py.is_az09 d) eqn:E'.
    + destruct d as [[] [] [] [] [] [] [] []]; try done.
    + by rewrite andb_false_r in Ht.
Qed.

(** ** [strip] *)

Lemma rstrip_idem (s : string) : Py.rstrip (Py.rstrip s) = Py.rstrip s.
Proof.
  induction s as [|c s IH]; [done|]. cbn [Py.rstrip].
  destruct (Py.rstrip s) as [|d r] eqn:Er.
  - destruct (Py.isspace c) eqn:Ec; [done|]. cbn. by rewrite Ec.
  - cbn [Py.rstrip]. cbn [Py.rstrip] in IH. by rewrite IH.
Qed.

Lemma lstrip_head (s : string) :
  match Py.lstrip s with
  | EmptyString => True
  | String c _ => Py.isspace c = false
  end.
Proof.
  induction s as [|c s IH]; [done|]. cbn.
  by destruct (Py.isspace c) eqn:Ec.
Qed.

Lemma rstrip_head (c : ascii) (s : string) :
  Py.isspace c = false → ∃ r, Py.rstrip (String c s) = String c r.
Proof.
  intros Hc. cbn. destruct (Py.rstrip s); [|by eexists].
  rewrite Hc. by eexists.
Qed.

Lemma strip_idem (s : string) : Py.strip (Py.strip s) = Py.strip s.
Proof.
  unfold Py.strip. pose proof (lstrip_head s) as Hh.
  destruct (Py.lstrip s) as [|c u]; [done|].
  destruct (rstrip_head c u Hh) as [r Hr].
  assert (Hl : Py.lstrip (Py.rstrip (String c u)) = Py.rstrip (String c u)).
  { rewrite Hr. cbn. by rewrite Hh. }
  rewrite Hl. apply rstrip_idem.
Qed.

Lemma lstrip_chars (c : ascii) (s : string) :
  c ∈ list_ascii_of_string (Py.lstrip s) → c ∈ list_ascii_of_string s.
Proof.
  induction s as [|d s IH]; [done|]. cbn.
  destruct (Py.isspace d); [|done]. intros Hc. right. by apply IH.
Qed.

Lemma rstrip_chars (c : ascii) (s : string) :
  c ∈ list_ascii_of_string (Py.rstrip s) → c ∈ list_ascii_of_string s.
Proof.
  induction s as [|d s IH]; [done|]. cbn [Py.rstrip].
  destruct (Py.rstrip s) as [|e r].
  - destruct (Py.isspace d); [by intros ?%elem_of_nil|].
    cbn. intros ->%list_elem_of_singleton. apply list_elem_of_here.
  - cbn. intros [->|Hc]%elem_of_cons; [apply list_elem_of_here|].
    right. by apply IH.
Qed.

Lemma strip_chars (c : ascii) (s : string) :
  c ∈ list_ascii_of_string (Py.strip s) → c ∈ list_ascii_of_string s.
Proof. intros Hc. by apply lstrip_chars, rstrip_chars. Qed.

Lemma strip_espacio (s : string) : Py.strip (String " " s) = Py.strip s.
Proof. done. Qed.

(** ** [split] and [join] *)

Lemma split_cons (sep : ascii) (s : string) :
  ∃ p ps, Py.split sep s = p :: ps.
Proof.
  destruct s as [|c s]; [by eexists _, _|]. cbn [Py.split].
  destruct (Ascii.eqb c sep); [by eexists _, _|].
  destruct (Py.split sep s); by eexists _, _.
Qed.

Lemma append_cons (c : ascii) (s t : string) :
  String c s +:+ t = String c (s +:+ t).
Proof. reflexivity. Qed.

Lemma split_app (sep : ascii) (x y : string) :
  Py.split sep (x +:+ String sep y) = Py.split sep x ++ Py.split sep y.
Proof.
  induction x as [|c x IH].
  - change (EmptyString +:+ String sep y) with (String sep y).
    cbn [Py.split]. by rewrite Ascii.eqb_refl.
  - rewrite append_cons. cbn [Py.split]. rewrite IH. destruct (Ascii.eqb c sep); [done|].
    by destruct (split_cons sep x) as (p & ps & ->).
Qed.

Lemma split_sin_sep (sep : ascii) (x : string) :
  sep ∉ list_ascii_of_string x → Py.split sep x = [x].
Proof.
  induction x as [|c x IH]; [done|].
  cbn [Py.split list_ascii_of_string]. intros Hno.
  apply not_elem_of_cons in Hno as [Hne Hno].
  destruct (Ascii.eqb_spec c sep) as [->|_]; [done|].
  by rewrite (IH Hno).
Qed.

Lemma split_piezas (sep : ascii) (s p : string) :
  p ∈ Py.split sep s → sep ∉ list_ascii_of_string p.
Proof.
  revert p. induction s as [|c s IH]; intros p; cbn [Py.split].
  - intros ->%list_elem_of_singleton. apply not_elem_of_nil.
  - destruct (Ascii.eqb_spec c sep) as [->|Hne].
    + intros [->|Hp]%elem_of_cons; [apply not_elem_of_nil | by apply IH].
    + destruct (split_cons sep s) as (q & qs & Hq). rewrite Hq in IH |- *.
      intros [->|Hp]%elem_of_cons.
      * cbn. apply not_elem_of_cons. split; [done|].
        apply IH, list_elem_of_here.
      * apply IH. by right.
Qed.

(** The loop of [limpiar_lista_sinonimos] keeps the pieces that are not
    blank, stripped; the test for the empty text changes nothing. *)
Lemma limpiar_filter (sinonimos_texto : string) :
  limpiar_lista_sinonimos sinonimos_texto
  = List.filter (λ x, negb (String.eqb x ""))
                (map Py.strip (Py.split "," sinonimos_texto)).
Proof.
  assert (Hgen : ∀ ps acc,
            foldl (λ sinonimos_limpios sinonimo,
                     match Py.strip sinonimo with
                     | EmptyString => sinonimos_limpios
                     | _ => sinonimos_limpios ++ [Py.strip sinonimo]
                     end) acc ps
            = acc ++ List.filter (λ x, negb (String.eqb x ""))
                                 (map Py.strip ps)).
  { induction ps as [|p ps IH]; intros acc; cbn; [by rewrite app_nil_r|].
    rewrite IH. destruct (Py.strip p); cbn; [done|].
    by rewrite <- app_assoc. }
  unfold limpiar_lista_sinonimos.
  destruct sinonimos_texto as [|c s]; [done|]. apply (Hgen _ []).
Qed.

Lemma limpiar_espacio (s : string) :
  limpiar_lista_sinonimos (String " " s) = limpiar_lista_sinonimos s.
Proof.
  rewrite !limpiar_filter. cbn [Py.split].
  replace (Ascii.eqb " " ",") with false by done.
  by destruct (split_cons "," s) as (p & ps & ->).
Qed.

Lemma limpiar_app (x y : string) :
  limpiar_lista_sinonimos (x +:+ String "," y)
  = limpiar_lista_sinonimos x ++ limpiar_lista_sinonimos y.
Proof.
  rewrite !limpiar_filter, split_app, map_app. apply List.filter_app.
Qed.

Lemma limpiar_join (xs : list string) :
  limpiar_lista_sinonimos (Py.join ", " xs)
  = flat_map limpiar_lista_sinonimos xs.
Proof.
  induction xs as [|x [|y xs] IH]; [done| |].
  - cbn. by rewrite app_nil_r.
  - change (Py.join ", " (x :: y :: xs))
      with (x +:+ String "," (String " " (Py.join ", " (y :: xs)))).
    rewrite limpiar_app, limpiar_espacio, IH. reflexivity.
Qed.

Lemma limpiar_limpio (x : string) :
  sinonimo_limpio x → limpiar_lista_sinonimos x = [x].
Proof.
  intros (Hne & Hs & Hc). rewrite limpiar_filter, (split_sin_sep _ _ Hc).
  cbn [map List.filter]. rewrite Hs. by destruct x.
Qed.

Lemma limpiar_elem (sinonimos_texto x : string) :
  x ∈ limpiar_lista_sinonimos sinonimos_texto → sinonimo_limpio x.
Proof.
  rewrite limpiar_filter, list_elem_of_In, List.filter_In, <- list_elem_of_In.
  intros [(p & -> & Hp)%list_elem_of_fmap Hne]. split; [|split].
  - by destruct (Py.strip p).
  - apply strip_idem.
  - intros Hc%strip_chars. by apply (split_piezas _ _ _ Hp).
Qed.

(** ** Scans with a strict [>] *)

Section PrimerMaximo.
Context {A : Type} (f : A → Q).


End PrimerMaximo.


(** ** Scores and confidences *)

Lemma score_par_bounds (c s : string) : (0 <= score_par c s <= 1)%Q.
Proof. unfold score_par, calcular_similitud. apply ratio_bounds. Qed.

Lemma round_unit (x : Q) :
  (0 <= x <= 1)%Q → (0 <= Py.round x 3 <= 1)%Q.
Proof.
  intros [H0 H1]. split.
  - replace 0%Q with (Py.round 0 3) by (by vm_compute). by apply round_mono.
  - replace 1%Q with (Py.round 1 3) by (by vm_compute). by apply round_mono.
Qed.

Lemma score_par_exacto (c s : string) :
  normalizar_texto c = normalizar_texto s → score_par c s = 1%Q.
Proof.
  intros Hn. unfold score_par, calcular_similitud. rewrite Hn.
  apply ratio_self.
Qed.

Lemma score_par_uno (c s : string) :
  (score_par c s == 1)%Q → score_par c s = 1%Q.
Proof.
  intros Hn. apply score_par_exacto. by apply similitud_uno.
Qed.

Lemma coincidencias_elem (sinonimos columnas : list string) (x : Coincidencia) :
  x ∈ coincidencias sinonimos columnas
  ↔ ∃ c s, c ∈ columnas ∧ s ∈ sinonimos ∧ x = (c, score_par c s, s).
Proof.
  unfold coincidencias. rewrite list_elem_of_In, in_flat_map. split.
  - intros (c & Hc & Hin). apply in_map_iff in Hin as (s & <- & Hs).
    exists c, s. by rewrite !list_elem_of_In.
  - intros (c & s & Hc & Hs & ->). exists c.
    rewrite <- list_elem_of_In. split; [done|].
    apply in_map_iff. exists s. by rewrite <- list_elem_of_In.
Qed.

(** The state of the standard scan: nothing scored above 0, or the first
    pair of maximal score. *)
Lemma mejor_simple_casos (sinonimos columnas : list string) :
  (mejor_simple sinonimos columnas = (None, 0%Q, None)
   ∧ ∀ c s, c ∈ columnas → s ∈ sinonimos → (score_par c s <= 0)%Q)
  ∨ (∃ c s, mejor_simple sinonimos columnas
            = (Some c, score_par c s, Some s)
            ∧ c ∈ columnas ∧ s ∈ sinonimos ∧ (0 < score_par c s)%Q
            ∧ ∀ c' s', c' ∈ columnas → s' ∈ sinonimos →
                       (score_par c' s' <= score_par c s)%Q).
Proof.
  destruct (scan_spec sinonimos columnas)
    as [[Hm Hall] | (n & c & s & Hm & Hpos & Hn & Hmax & _)].
  - left. split; [done|]. intros c s Hc Hs.
    apply (Hall (c, s)). by apply pares_elem.
  - right. exists c, s. split; [done|].
    apply list_elem_of_lookup_2, pares_elem in Hn as [Hc Hs].
    repeat split; try done. intros c' s' Hc' Hs'.
    apply (Hmax (c', s')). by apply pares_elem.
Qed.

(** ** The diet policy ranks by score, then by bucket *)

Lemma sort_por_score_head (xs : list Coincidencia) :
  xs ≠ [] →
  ∃ n m rest, sort_por_score xs = m :: rest
              ∧ es_primer_maximo score_de xs n m.
Proof.
  induction xs as [|x xs IH]; [done|]. intros _.
  destruct xs as [|y ys].
  - exists 0, x, []. split; [done|]. split; [done|]. split.
    + intros z ->%list_elem_of_singleton. apply Qle_refl.
    + intros m z Hm. lia.
  - destruct (IH ltac:(done)) as (n & m & rest & Hs & Hn & Hmax & Hfirst).
    change (sort_por_score (x :: y :: ys))
      with (insertar_por_score x (sort_por_score (y :: ys))).
    rewrite Hs. cbn [insertar_por_score].
    destruct (Py.Qlt_bool x.1.2 m.1.2) eqn:E.
    + apply Qlt_bool_iff in E. exists (S n), m, (insertar_por_score x rest).
      split; [done|]. split; [done|]. split.
      * intros z [->|Hz]%elem_of_cons; [unfold score_de; lra | by apply Hmax].
      * intros [|k] z Hk Hz.
        -- cbn in Hz. injection Hz as <-. exact E.
        -- cbn in Hz. apply (Hfirst k); [lia | done].
    + apply Qlt_bool_false in E. exists 0, x, (m :: rest).
      split; [done|]. split; [done|]. split.
      * intros z [->|Hz]%elem_of_cons; [apply Qle_refl|].
        specialize (Hmax z Hz). unfold score_de in *. lra.
      * intros k z Hk. lia.
Qed.

Lemma aceptadas_por_cubo_perm (self : SimilarityEngine)
    (sinonimos columnas : list string) :
  aceptadas_por_cubo self sinonimos columnas
  ≡ₚ aceptadas self sinonimos columnas.
Proof. apply cubos_de_perm. Qed.

(** The diet search reports the first triple of maximal score among the
    accepted ones, fruit columns first. *)
Lemma dieta_representante (self : SimilarityEngine)
    (sinonimos columnas : list string) :
  let r := buscar_variable_dieta_especial self sinonimos columnas in
  (aceptadas self sinonimos columnas = [] ∧ encontrada r = false
   ∧ confianza r = 0%Q ∧ columna r = None ∧ sinonimo_match r = None)
  ∨ (∃ n m, es_primer_maximo score_de
              (aceptadas_por_cubo self sinonimos columnas) n m
            ∧ encontrada r = true ∧ confianza r = Py.round (score_de m) 3
            ∧ columna r = Some m.1.1 ∧ sinonimo_match r = Some m.2).
Proof.
  cbn zeta. pose proof (dieta_unfold self sinonimos columnas) as Hu.
  cbn zeta in Hu.
  pose proof (aceptadas_por_cubo_perm self sinonimos columnas) as Hp.
  unfold aceptadas_por_cubo in *. unfold cubos_de in Hu.
  set (acc := aceptadas self sinonimos columnas) in *.
  rewrite Hu. clear Hu.
  set (todas := List.filter (en_cubo Fruta) acc
                ++ List.filter (en_cubo Vegetal) acc
                ++ List.filter (en_cubo General) acc) in *.
  destruct (decide (todas = [])) as [Hnil|Hne].
  - left. rewrite Hnil in Hp |- *. apply Permutation_nil_l in Hp.
    by rewrite <- Hp.
  - right. destruct (sort_por_score_head todas Hne) as (n & m & rest & -> & Hm).
    by exists n, m.
Qed.

(** ** All the variables and their statistics *)

Lemma buscar_todas_variables_map (self : SimilarityEngine)
    (variables_config : list (string * list string)) (columnas : list string) :
  buscar_todas_variables self variables_config columnas
  = map (λ kv, {| variable := kv.1;
                  resultado := buscar_variable self kv.1 kv.2 columnas |})
        variables_config.
Proof.
  unfold buscar_todas_variables.
  enough (∀ acc,
            foldl (λ resultados kv,
                     resultados
                     ++ [{| variable := kv.1;
                            resultado := buscar_variable self kv.1 kv.2
                                           columnas |}])
                  acc variables_config
            = acc ++ map (λ kv, {| variable := kv.1;
                                   resultado := buscar_variable self kv.1 kv.2
                                                  columnas |})
                         variables_config) as Hgen by apply (Hgen []).
  induction variables_config as [|kv kvs IH]; intros acc; cbn.
  - by rewrite app_nil_r.
  - by rewrite IH, <- app_assoc.
Qed.

Lemma encontrados_faltantes_length (resultados : list Resultado) :
  length (encontrados resultados) + length (faltantes resultados)
  = length resultados.
Proof.
  unfold encontrados, faltantes.
  induction resultados as [|r rs IH]; [done|]. cbn.
  destruct (encontrada (resultado r)); cbn; lia.
Qed.

(** Floats between two floats: [0.0], [1.0] and [100.0] are binary64
    numbers, and rounding to binary64 keeps the order. *)
Lemma fl_unit (x : Q) : (0 <= x <= 1)%Q → (0 <= Py.fl x <= 1)%Q.
Proof.
  intros [H0 H1]. split.
  - replace 0%Q with (Py.fl 0) by done. by apply fl_mono.
  - replace 1%Q with (Py.fl 1) by (by vm_compute). by apply fl_mono.
Qed.

Lemma truediv_unit (found total : nat) :
  0 < total → found ≤ total → (0 <= Py.truediv found total <= 1)%Q.
Proof.
  intros Ht Hf. unfold Py.truediv. apply fl_unit.
  assert (H0 : (0 < inject_Z (Z.of_nat total))%Q).
  { unfold Qlt; cbn. lia. }
  split.
  - apply Qle_shift_div_l; [done|]. unfold Qle; cbn. lia.
  - apply Qle_shift_div_r; [done|]. unfold Qle; cbn. lia.
Qed.

Lemma porcentaje_bounds (found total : nat) :
  0 < total → found ≤ total →
  (0 <= porcentaje found total <= 100)%Q.
Proof.
  intros Ht Hf. unfold porcentaje, Py.fmul.
  destruct (fl_unit _ (truediv_unit found total Ht Hf)) as [H0 H1].
  replace (Py.fl 100) with 100%Q by (by vm_compute). split.
  - replace 0%Q with (Py.fl 0) at 1 by done. apply fl_mono. nra.
  - replace 100%Q with (Py.fl 100) at 2 by (by vm_compute). apply fl_mono. nra.
Qed.

Lemma porcentaje_total (total : nat) :
  0 < total → porcentaje total total = 100%Q.
Proof.
  intros Ht. unfold porcentaje, Py.truediv.
  rewrite (fl_comp (inject_Z (Z.of_nat total) / inject_Z (Z.of_nat total)) 1).
  - by vm_compute.
  - field. unfold Qeq; cbn. lia.
Qed.

Lemma porcentaje_cero (total : nat) : porcentaje 0 total = 0%Q.
Proof.
  unfold porcentaje, Py.truediv.
  rewrite (fl_comp (inject_Z (Z.of_nat 0) / inject_Z (Z.of_nat total)) 0).
  - by vm_compute.
  - change (inject_Z (Z.of_nat 0)) with 0%Q. unfold Qdiv. ring.
Qed.

(** The float sum of [k] floats of [[0, 1]] is at most [k], and at most
    [2^53], where adding [1.0] changes a float no more. *)
Lemma sum_bounds_desde (xs : list Q) (acc : Q) (k : Z) :
  Forall (λ x, (0 <= x <= 1)%Q) xs → (0 <= k)%Z →
  (0 <= acc <= inject_Z (Z.min k (2 ^ 53)))%Q →
  (0 <= foldl Py.fadd acc xs
   <= inject_Z (Z.min (k + Z.of_nat (length xs)) (2 ^ 53)))%Q.
Proof.
  intros Hall. revert acc k.
  induction Hall as [|x xs Hx _ IH]; intros acc k Hk Hacc.
  - cbn [foldl length]. by rewrite Z.add_0_r.
  - cbn [foldl length].
    replace (k + Z.of_nat (S (length xs)))%Z
      with (k + 1 + Z.of_nat (length xs))%Z by lia.
    apply IH; [lia|].
    destruct (fl_unit x Hx) as [Hx0 Hx1]. destruct Hacc as [Ha0 Ha1].
    assert (Hf0 : (0 <= Py.fl acc)%Q)
      by (replace 0%Q with (Py.fl 0) by done; by apply fl_mono).
    assert (Hf1 : (Py.fl acc <= inject_Z (Z.min k (2 ^ 53)))%Q).
    { rewrite <- (fl_int (Z.min k (2 ^ 53))) by lia. by apply fl_mono. }
    unfold Py.fadd. split.
    + replace 0%Q with (Py.fl 0) by done. apply fl_mono. lra.
    + apply (Qle_trans _ (Py.fl (inject_Z (Z.min k (2 ^ 53) + 1)))).
      { apply fl_mono. rewrite inject_Z_plus. change (inject_Z 1) with 1%Q.
        lra. }
      destruct (Z_lt_le_dec k (2 ^ 53)) as [Hlt|Hge].
      * rewrite fl_int by lia. rewrite <- Zle_Qle. lia.
      * rewrite Z.min_r by lia.
        replace (Py.fl (inject_Z (2 ^ 53 + 1))) with (inject_Z (2 ^ 53))
          by (by vm_compute).
        rewrite <- Zle_Qle. lia.
Qed.

Lemma sum_bounds (xs : list Q) :
  Forall (λ x, (0 <= x <= 1)%Q) xs →
  (0 <= Py.sum xs <= inject_Z (Z.min (Z.of_nat (length xs)) (2 ^ 53)))%Q.
Proof.
  intros Hall. apply (sum_bounds_desde xs 0 0 Hall); [done|].
  split; [apply Qle_refl|]. by vm_compute.
Qed.

(** The float mean of floats of [[0, 1]] lies in [[0, 1]]. *)
Lemma media_unit (xs : list Q) :
  xs ≠ [] → Forall (λ x, (0 <= x <= 1)%Q) xs → (0 <= media xs <= 1)%Q.
Proof.
  intros Hne Hall. unfold media, Py.fdiv. apply fl_unit.
  destruct (sum_bounds xs Hall) as [Hs0 Hs1].
  set (n := Z.of_nat (length xs)) in *.
  assert (Hn : (1 <= n)%Z) by (destruct xs; [done | cbn in n; lia]).
  set (m := Z.min n (2 ^ 53)) in *.
  assert (Hm : (1 <= m <= 2 ^ 53)%Z) by lia.
  assert (Hf0 : (0 <= Py.fl (Py.sum xs))%Q)
    by (replace 0%Q with (Py.fl 0) by done; by apply fl_mono).
  assert (Hf1 : (Py.fl (Py.sum xs) <= inject_Z m)%Q).
  { rewrite <- (fl_int m) by lia. by apply fl_mono. }
  assert (Hfn : (inject_Z m <= Py.fl (inject_Z n))%Q).
  { rewrite <- (fl_int m) by lia. apply fl_mono. rewrite <- Zle_Qle. lia. }
  assert (H1m : (1 <= inject_Z m)%Q)
    by (change 1%Q with (inject_Z 1); rewrite <- Zle_Qle; lia).
  split.
  - apply Qle_shift_div_l; lra.
  - apply Qle_shift_div_r; lra.
Qed.











Lemma encontrados_confianzas (resultados : list Resultado) (lo hi : Q) :
  Forall (λ r, (lo <= confianza (resultado r) <= hi)%Q) resultados →
  Forall (λ x, (lo <= x <= hi)%Q)
         (map (λ r, confianza (resultado r)) (encontrados resultados)).
Proof.
  intros Hall. apply Forall_fmap. unfold encontrados.
  induction Hall as [|r rs Hr _ IH]; [constructor|]. cbn.
  destruct (encontrada (resultado r)); [by constructor | done].
Qed.

(** ** Sets of columns *)

Lemma size_list_to_set_le `{Countable K} (l : list K) :
  size (list_to_set (C := gset K) l) ≤ length l.
Proof.
  induction l as [|x l IH]; cbn [list_to_set length].
  - by rewrite size_empty.
  - rewrite size_union_alt, size_singleton.
    assert (size (list_to_set (C := gset K) l ∖ {[x]})
            ≤ size (list_to_set (C := gset K) l))
      by (by apply subseteq_size, subseteq_difference_l).
    lia.
Qed.

Lemma size_difference_ge `{Countable K} (X Y : gset K) :
  size X - size Y ≤ size (X ∖ Y).
Proof.
  assert (Hsub : X ⊆ (X ∖ Y) ∪ Y).
  { intros x Hx. destruct (decide (x ∈ Y)).
    - by apply elem_of_union_r.
    - by apply elem_of_union_l, elem_of_difference. }
  apply subseteq_size in Hsub.
  rewrite size_union in Hsub by (by apply disjoint_difference_l1).
  lia.
Qed.

(** ** Confidences *)

Lemma buscar_variable_confianza (self : SimilarityEngine)
    (variable_key : string) (sinonimos columnas : list string) :
  (0 <= confianza (buscar_variable self variable_key sinonimos columnas)
   <= 1)%Q.
Proof.
  unfold buscar_variable. case_bool_decide.
  - destruct (dieta_representante self sinonimos columnas)
      as [(_ & _ & -> & _) | (n & m & (Hn & _) & _ & -> & _)]; [done|].
    apply round_unit. apply list_elem_of_lookup_2 in Hn.
    rewrite aceptadas_por_cubo_perm in Hn.
    apply aceptadas_elem in Hn as [(c & s & _ & _ & ->)%coincidencias_elem _].
    apply score_par_bounds.
  - rewrite simple_unfold. cbn [confianza]. apply round_unit.
    destruct (mejor_simple_casos sinonimos columnas)
      as [[-> _] | (c & s & -> & _)]; [done|]. apply score_par_bounds.
Qed.





(** ** Dictionaries *)

Section Dict.
Import VariableManager.
Context {V : Type}.
Implicit Types (d : list (string * V)) (k : string) (v : V).

Lemma dict_get_None k d : dict_get k d = None ↔ k ∉ map fst d.
Proof.
  induction d as [|[k' v'] d IH]; cbn.
  - split; [intros _; apply not_elem_of_nil | done].
  - rewrite not_elem_of_cons, <- IH.
    destruct (String.eqb_spec k k') as [->|Hne]; [|tauto].
    split; [done | by intros [? _]].
Qed.

Lemma dict_in_true k d : dict_in k d = true ↔ k ∈ map fst d.
Proof.
  unfold dict_in. destruct (dict_get k d) eqn:E.
  - split; [intros _ | done].
    destruct (decide (k ∈ map fst d)) as [|Hn]; [done|].
    apply dict_get_None in Hn. congruence.
  - split; [done|]. intros Hin. by apply dict_get_None in E.
Qed.

Lemma dict_in_false k d : dict_in k d = false ↔ k ∉ map fst d.
Proof.
  rewrite <- dict_in_true. by destruct (dict_in k d).
Qed.

Lemma dict_get_elem k d v : dict_get k d = Some v → (k, v) ∈ d.
Proof.
  induction d as [|[k' v'] d IH]; cbn; [done|].
  destruct (String.eqb_spec k k') as [->|Hne].
  - intros [= ->]. apply list_elem_of_here.
  - intros Hg. right. by apply IH.
Qed.

Lemma dict_get_set_eq k v d : dict_get k (dict_set k v d) = Some v.
Proof.
  induction d as [|[k' v'] d IH]; cbn.
  - by rewrite String.eqb_refl.
  - destruct (String.eqb_spec k k') as [->|Hne]; cbn.
    + by rewrite String.eqb_refl.
    + by destruct (String.eqb_spec k k').
Qed.

Lemma dict_get_set_ne k k' v d :
  k' ≠ k → dict_get k' (dict_set k v d) = dict_get k' d.
Proof.
  intros Hne. induction d as [|[k'' v''] d IH]; cbn.
  - by destruct (String.eqb_spec k' k).
  - destruct (String.eqb_spec k k'') as [->|Hne']; cbn.
    + by destruct (String.eqb_spec k' k'').
    + by rewrite IH.
Qed.

Lemma dict_set_in k v d :
  k ∈ map fst d → map fst (dict_set k v d) = map fst d.
Proof.
  induction d as [|[k' v'] d IH]; cbn; [by intros ?%elem_of_nil|].
  destruct (String.eqb_spec k k') as [->|Hne]; [done|].
  intros [?|Hin]%elem_of_cons; [done|]. cbn. by rewrite IH.
Qed.

Lemma dict_set_new k v d : k ∉ map fst d → dict_set k v d = d ++ [(k, v)].
Proof.
  induction d as [|[k' v'] d IH]; cbn; [done|].
  intros [Hne Hin]%not_elem_of_cons.
  destruct (String.eqb_spec k k') as [->|_]; [done|]. by rewrite IH.
Qed.

Lemma dict_set_elem k v d (x : string * V) :
  x ∈ dict_set k v d → x = (k, v) ∨ x ∈ d.
Proof.
  induction d as [|[k' v'] d IH]; cbn.
  - intros ->%list_elem_of_singleton. by left.
  - destruct (String.eqb_spec k k') as [->|Hne].
    + intros [->|Hx]%elem_of_cons; [by left | right; by right].
    + intros [->|Hx]%elem_of_cons; [right; apply list_elem_of_here|].
      destruct (IH Hx) as [->|Hd]; [by left | right; by right].
Qed.

Lemma dict_set_NoDup k v d :
  NoDup (map fst d) → NoDup (map fst (dict_set k v d)).
Proof.
  intros Hnd. destruct (decide (k ∈ map fst d)) as [Hin|Hin].
  - by rewrite dict_set_in.
  - rewrite dict_set_new, map_app by done. cbn.
    apply NoDup_app. split; [done|]. split; [|apply NoDup_singleton].
    intros x Hx ->%list_elem_of_singleton. done.
Qed.

Lemma dict_del_elem k d (x : string * V) : x ∈ dict_del k d → x ∈ d.
Proof.
  induction d as [|[k' v'] d IH]; cbn; [done|].
  destruct (String.eqb_spec k k') as [->|Hne]; [by right|].
  intros [->|Hx]%elem_of_cons; [apply list_elem_of_here | right; by apply IH].
Qed.

Lemma dict_del_keys k d :
  NoDup (map fst d) →
  map fst (dict_del k d) = List.filter (λ k', negb (String.eqb k k'))
                                       (map fst d).
Proof.
  induction d as [|[k' v'] d IH]; cbn; [done|].
  intros [Hnin Hnd]%NoDup_cons.
  destruct (String.eqb_spec k k') as [->|Hne]; cbn.
  - clear IH. induction d as [|[k'' v''] d IH]; cbn; [done|].
    cbn in Hnin, Hnd. apply not_elem_of_cons in Hnin as [Hne Hnin].
    apply NoDup_cons in Hnd as [_ Hnd].
    destruct (String.eqb_spec k' k'') as [->|_]; [done|]. cbn.
    by rewrite <- IH.
  - by rewrite IH.
Qed.

Lemma dict_del_NoDup k d :
  NoDup (map fst d) → NoDup (map fst (dict_del k d)).
Proof.
  intros Hnd. rewrite dict_del_keys by done.
  revert Hnd. generalize (map fst d). intros ks Hnd.
  induction Hnd as [|x ks Hx Hnd IH]; cbn; [constructor|].
  destruct (negb _); [|done]. constructor; [|done].
  rewrite list_elem_of_In, List.filter_In, <- list_elem_of_In. tauto.
Qed.

Lemma dict_get_del_eq k d :
  NoDup (map fst d) → dict_get k (dict_del k d) = None.
Proof.
  intros Hnd. apply dict_get_None. rewrite dict_del_keys by done.
  rewrite list_elem_of_In, List.filter_In, String.eqb_refl. by intros [_ ?].
Qed.

Lemma dict_get_del_ne k k' d :
  k' ≠ k → dict_get k' (dict_del k d) = dict_get k' d.
Proof.
  intros Hne. induction d as [|[k'' v''] d IH]; cbn; [done|].
  destruct (String.eqb_spec k k'') as [->|Hne']; cbn.
  - by destruct (String.eqb_spec k' k'').
  - by rewrite IH.
Qed.

Lemma dict_set_refs k v d (x : V) :
  x ∈ map snd (dict_set k v d) → x = v ∨ x ∈ map snd d.
Proof.
  intros (kv & -> & Hkv)%list_elem_of_fmap.
  apply dict_set_elem in Hkv as [->|Hkv]; [by left|].
  right. apply list_elem_of_fmap. by exists kv.
Qed.

Lemma dict_set_refs_NoDup k v d :
  NoDup (map snd d) → v ∉ map snd d → NoDup (map snd (dict_set k v d)).
Proof.
  intros Hnd Hv. induction d as [|[k' v'] d IH]; cbn.
  - apply NoDup_singleton.
  - cbn in Hnd, Hv. apply NoDup_cons in Hnd as [Hv' Hnd].
    apply not_elem_of_cons in Hv as [Hne Hv].
    destruct (String.eqb_spec k k') as [->|Hk]; cbn.
    + by apply NoDup_cons.
    + apply NoDup_cons. split; [|by apply IH].
      intros [->|Hin]%dict_set_refs; done.
Qed.

Lemma dict_del_refs_NoDup k d :
  NoDup (map snd d) → NoDup (map snd (dict_del k d)).
Proof.
  induction d as [|[k' v'] d IH]; cbn; [done|].
  intros [Hv' Hnd]%NoDup_cons.
  destruct (String.eqb_spec k k') as [->|Hk]; [done|]. cbn.
  apply NoDup_cons. split; [|by apply IH].
  intros (kv & Hs & Hkv%dict_del_elem)%list_elem_of_fmap.
  apply Hv'. apply list_elem_of_fmap. by exists kv.
Qed.

Lemma dict_get_refs k k' d v :
  NoDup (map snd d) →
  dict_get k d = Some v → dict_get k' d = Some v → k = k'.
Proof.
  intros Hnd. induction d as [|[k'' v''] d IH]; cbn; [done|].
  cbn in Hnd. apply NoDup_cons in Hnd as [Hv Hnd].
  destruct (String.eqb_spec k k'') as [->|Hk];
    destruct (String.eqb_spec k' k'') as [->|Hk']; try done.
  - intros [= ->] Hg%dict_get_elem. exfalso. apply Hv.
    apply list_elem_of_fmap. by exists (k', v).
  - intros Hg%dict_get_elem [= ->]. exfalso. apply Hv.
    apply list_elem_of_fmap. by exists (k, v).
  - by apply IH.
Qed.

Lemma dict_del_length k d :
  k ∈ map fst d → length (dict_del k d) + 1 = length d.
Proof.
  induction d as [|[k' v'] d IH]; cbn; [by intros ?%elem_of_nil|].
  destruct (String.eqb_spec k k') as [->|Hne]; [lia|].
  intros [?|Hin]%elem_of_cons; [done|]. cbn. rewrite <- (IH Hin). lia.
Qed.
End Dict.

(** ** The variable manager *)

Section Gestor.
Import VariableManager.

Lemma lower_clave (nombre : string) :
  Py.lower (Py.strip (Py.lower nombre)) = Py.strip (Py.lower nombre).
Proof. by rewrite lower_strip, lower_idem. Qed.

Lemma dict_ok_mono (m m' : Mundo) (d : list (string * nat)) :
  length (listas m) ≤ length (listas m') → dict_ok m d → dict_ok m' d.
Proof.
  intros Hlen (Hnd & Hrefs & Hall). split; [done|]. split; [done|].
  eapply Forall_impl; [exact Hall|]. cbn. intros kv Hkv. lia.
Qed.

Lemma dict_ok_get (m : Mundo) (d : list (string * nat)) (k : string) (l : nat) :
  dict_ok m d → dict_get k d = Some l → l < length (listas m).
Proof.
  intros (_ & _ & Hall) Hg%dict_get_elem.
  rewrite Forall_forall in Hall. apply (Hall _ Hg).
Qed.

Lemma dict_ok_fresh (m : Mundo) (d : list (string * nat)) :
  dict_ok m d → length (listas m) ∉ map snd d.
Proof.
  intros (_ & _ & Hall) (kv & Hl & Hkv)%list_elem_of_fmap.
  rewrite Forall_forall in Hall. specialize (Hall _ Hkv). lia.
Qed.

(** Storing a fresh reference. *)
Lemma dict_ok_set (m m' : Mundo) (d : list (string * nat)) (k : string) :
  length (listas m') = S (length (listas m)) →
  dict_ok m d → dict_ok m' (dict_set k (length (listas m)) d).
Proof.
  intros Hlen Hd. pose proof (dict_ok_fresh m d Hd) as Hf.
  destruct Hd as (Hnd & Hrefs & Hall). split; [by apply dict_set_NoDup|].
  split; [by apply dict_set_refs_NoDup|].
  apply Forall_forall. intros x [->|Hx]%dict_set_elem; [cbn; lia|].
  rewrite Forall_forall in Hall. specialize (Hall _ Hx). lia.
Qed.

Lemma dict_ok_del (m : Mundo) (d : list (string * nat)) (k : string) :
  dict_ok m d → dict_ok m (dict_del k d).
Proof.
  intros (Hnd & Hrefs & Hall). split; [by apply dict_del_NoDup|].
  split; [by apply dict_del_refs_NoDup|].
  apply Forall_forall. intros x Hx%dict_del_elem.
  rewrite Forall_forall in Hall. by apply Hall.
Qed.

Lemma deref_alloc_old (m : Mundo) (v : list string) (d : list (string * nat))
    (l : nat) :
  l < length (listas m) →
  deref (con_variables (alloc m v).1 d) l = deref m l.
Proof. intros Hl. unfold deref. cbn. by rewrite lookup_app_l. Qed.

Lemma deref_alloc_new (m : Mundo) (v : list string) (d : list (string * nat)) :
  deref (con_variables (alloc m v).1 d) (length (listas m)) = v.
Proof.
  unfold deref. cbn. by rewrite lookup_app_r, Nat.sub_diag.
Qed.

(** Storing a new list under [clave], as [crear_variable] and
    [actualizar_variable] do. *)
Lemma guardar_lista (m : Mundo) (clave : string) (limpios : list string) :
  bien_formado m →
  let m' := con_variables (alloc m limpios).1
              (dict_set clave (length (listas m)) (_variables m)) in
  bien_formado m'
  ∧ dict_get clave (_variables m') = Some (length (listas m))
  ∧ deref m' (length (listas m)) = limpios
  ∧ (∀ l, l < length (listas m) → deref m' l = deref m l)
  ∧ (∀ k, k ≠ clave →
          dict_get k (_variables m') = dict_get k (_variables m))
  ∧ default_variables m' = default_variables m
  ∧ (limpios ≠ [] → con_sinonimos m → con_sinonimos m').
Proof.
  intros [Hd Hv]. cbn zeta.
  set (m' := con_variables _ _).
  assert (Hlen : length (listas m') = S (length (listas m))).
  { cbn. rewrite length_app. cbn. lia. }
  split; [|split; [|split; [|split; [|split; [|split]]]]].
  - split.
    + apply (dict_ok_mono m); [lia | done].
    + by apply dict_ok_set.
  - apply dict_get_set_eq.
  - apply deref_alloc_new.
  - intros l Hl. by apply deref_alloc_old.
  - intros k Hk. by apply dict_get_set_ne.
  - done.
  - intros Hne Hcs. unfold con_sinonimos in *. apply Forall_forall.
    intros x [->|Hx]%dict_set_elem.
    + cbn [snd]. unfold m'. by rewrite deref_alloc_new.
    + rewrite Forall_forall in Hcs. specialize (Hcs x Hx).
      destruct Hv as (_ & _ & Hv). rewrite Forall_forall in Hv.
      unfold m'. rewrite deref_alloc_old by by apply Hv. done.
Qed.

Lemma crear_variable_casos (m : Mundo) (nombre : string)
    (sinonimos : list string) (guardado : bool) :
  let clave := Py.strip (Py.lower nombre) in
  let limpios := sinonimos_limpios sinonimos in
  (clave ≠ EmptyString ∧ existe_variable m (Py.strip nombre) = false
   ∧ limpios ≠ []
   ∧ crear_variable m nombre sinonimos guardado
     = (con_variables (alloc m limpios).1
          (dict_set clave (length (listas m)) (_variables m)), guardado))
  ∨ ((clave = EmptyString ∨ existe_variable m (Py.strip nombre) = true
      ∨ limpios = [])
     ∧ crear_variable m nombre sinonimos guardado = (m, false)).
Proof.
  cbn zeta. unfold crear_variable, existe_variable.
  rewrite lower_strip. fold (sinonimos_limpios sinonimos).
  destruct (String.eqb_spec (Py.strip (Py.lower nombre)) "") as [He|He];
    cbn [orb]; [right; split; [by left | done]|].
  destruct (dict_in _ _) eqn:Ein; [right; split; [right; by left | done]|].
  destruct (sinonimos_limpios sinonimos) as [|x xs] eqn:El;
    [right; split; [right; by right | done]|].
  left. done.
Qed.

Lemma actualizar_variable_casos (m : Mundo) (nombre : string)
    (sinonimos : list string) (guardado : bool) :
  let clave := Py.lower nombre in
  let limpios := sinonimos_limpios sinonimos in
  (existe_variable m nombre = true ∧ limpios ≠ []
   ∧ actualizar_variable m nombre sinonimos guardado
     = (con_variables (alloc m limpios).1
          (dict_set clave (length (listas m)) (_variables m)), guardado))
  ∨ ((existe_variable m nombre = false ∨ limpios = [])
     ∧ actualizar_variable m nombre sinonimos guardado = (m, false)).
Proof.
  cbn zeta. unfold actualizar_variable, existe_variable.
  fold (sinonimos_limpios sinonimos).
  destruct (dict_in _ _) eqn:Ein; cbn [negb];
    [|right; split; [by left | done]].
  destruct (sinonimos_limpios sinonimos) as [|x xs] eqn:El;
    [right; split; [by right | done]|].
  left. done.
Qed.

Lemma obtener_variable_get (m : Mundo) (nombre : string) (xs : list string) :
  obtener_variable m nombre = Some xs
  ↔ ∃ l, dict_get (Py.lower nombre) (_variables m) = Some l ∧ deref m l = xs.
Proof.
  unfold obtener_variable. destruct (dict_get _ _) as [l|].
  - split; [intros [= <-]; by exists l | by intros (l' & [= <-] & ->)].
  - split; [done | by intros (l' & ? & _)].
Qed.

Lemma sinonimos_limpios_fijo (xs : list string) :
  Forall sinonimo_limpio xs → sinonimos_limpios xs = xs.
Proof.
  unfold sinonimos_limpios. induction 1 as [|x xs (Hne & Hs & _) _ IH]; [done|].
  cbn. rewrite Hs. destruct (String.eqb_spec x "") as [->|_]; [done|].
  cbn. by rewrite Hs, IH.
Qed.
(** Changing a list object in place, as [append] and [remove] do. *)
Lemma mutar_lista (m : Mundo) (l : nat) (v : list string) :
  bien_formado m → l < length (listas m) →
  let m' := {| listas := <[l := v]> (listas m);
               default_variables := default_variables m;
               _variables := _variables m |} in
  bien_formado m' ∧ deref m' l = v
  ∧ ∀ l', l' ≠ l → deref m' l' = deref m l'.
Proof.
  intros [Hd Hv] Hl. cbn zeta. split; [|split].
  - split; cbn; (eapply dict_ok_mono; [|done]); cbn;
      by rewrite length_insert.
  - unfold deref. cbn. by rewrite list_lookup_insert_eq.
  - intros l' Hne. unfold deref. cbn.
    by rewrite list_lookup_insert_ne.
Qed.

Lemma list_remove_Some (x : string) (xs : list string) :
  x ∈ xs → ∃ resto, Py.list_remove x xs = Some resto
                    ∧ length resto + 1 = length xs
                    ∧ ∀ y, y ∈ resto → y ∈ xs.
Proof.
  induction xs as [|y ys IH]; [by intros ?%elem_of_nil|]. cbn.
  destruct (String.eqb_spec y x) as [->|Hne].
  - intros _. exists ys. split; [done|]. split; [lia|]. intros z Hz. by right.
  - intros [->|Hin]%elem_of_cons; [done|].
    destruct (IH Hin) as (resto & -> & Hlen & Hsub).
    exists (y :: resto). split; [done|]. split; [cbn; lia|].
    intros z [->|Hz]%elem_of_cons; [by left | right; by apply Hsub].
Qed.

Lemma list_remove_None (x : string) (xs : list string) :
  x ∉ xs → Py.list_remove x xs = None.
Proof.
  induction xs as [|y ys IH]; [done|]. cbn.
  intros [Hne Hin]%not_elem_of_cons.
  destruct (String.eqb_spec y x) as [->|_]; [done|]. by rewrite IH.
Qed.

Lemma obtener_variable_otro (m m' : Mundo) (nombre : string) :
  _variables m' = _variables m →
  (∀ l, dict_get (Py.lower nombre) (_variables m) = Some l →
        deref m' l = deref m l) →
  obtener_variable m' nombre = obtener_variable m nombre.
Proof.
  intros Hv Hd. unfold obtener_variable. rewrite Hv.
  destruct (dict_get _ _) as [l|] eqn:E; [|done]. by rewrite Hd.
Qed.

Lemma existe_variable_obtener (m : Mundo) (nombre : string) :
  existe_variable m nombre = true
  ↔ ∃ xs, obtener_variable m nombre = Some xs.
Proof.
  unfold existe_variable, obtener_variable, dict_in.
  destruct (dict_get _ _); split; try done; [by eexists | by intros [? ?]].
Qed.

(** The store and the dictionaries after [_cargar_variables]. *)
Lemma cargar_variables_ok (m : Mundo)
    (archivo : option (list (string * list string))) :
  bien_formado m → bien_formado (init m archivo).
Proof.
  intros Hm. unfold init, _cargar_variables.
  destruct archivo as [contenido|]; [|by destruct Hm].
  assert (Hgen : ∀ (st : Mundo * list (string * nat)),
            dict_ok st.1 (default_variables st.1) → dict_ok st.1 st.2 →
            let st' := foldl (λ (st : Mundo * list (string * nat)) kv,
                                let '(m, l) := alloc st.1 kv.2 in
                                (m, dict_set kv.1 l st.2)) st contenido in
            dict_ok st'.1 (default_variables st'.1) ∧ dict_ok st'.1 st'.2).
  { induction contenido as [|kv kvs IH]; intros st Hd Hv; [done|].
    cbn [foldl]. apply IH; cbn.
    - eapply dict_ok_mono; [|done]. cbn. rewrite length_app. lia.
    - apply dict_ok_set; [|done]. cbn. rewrite length_app. cbn. lia. }
  destruct Hm as [Hd _].
  specialize (Hgen (m, []) Hd). cbn zeta in Hgen.
  destruct (foldl _ _ _) as [m' d']. cbn in Hgen |- *.
  apply Hgen. split; [constructor|]. split; constructor.
Qed.

Lemma bien_formado_inicial : bien_formado mundo_inicial.
Proof.
  repeat split; try (by apply (bool_decide_unpack _)); constructor.
Qed.

Lemma obtener_todas_variables_get (m : Mundo) (k : string) :
  dict_get k (obtener_todas_variables m)
  = deref m <$> dict_get k (_variables m).
Proof.
  unfold obtener_todas_variables.
  induction (_variables m) as [|[k' l] d IH]; [done|]. cbn.
  by destruct (String.eqb k k').
Qed.
Lemma existe_variable_strip (m : Mundo) (nombre : string) :
  existe_variable m (Py.strip nombre)
  = dict_in (Py.strip (Py.lower nombre)) (_variables m).
Proof. unfold existe_variable. by rewrite lower_strip. Qed.

Lemma crear_variable_ok (m : Mundo) (nombre : string)
    (sinonimos : list string) (guardado : bool) :
  bien_formado m →
  let clave := Py.strip (Py.lower nombre) in
  let limpios := sinonimos_limpios sinonimos in
  clave ≠ EmptyString → existe_variable m (Py.strip nombre) = false →
  limpios ≠ [] →
  let r := crear_variable m nombre sinonimos guardado in
  r.2 = guardado ∧ bien_formado r.1
  ∧ obtener_variable r.1 (Py.strip nombre) = Some limpios
  ∧ obtener_todas_variables r.1
    = obtener_todas_variables m ++ [(clave, limpios)]
  ∧ (con_sinonimos m → con_sinonimos r.1).
Proof.
  intros Hm. cbn zeta. intros Hclave Hex Hlimpios.
  destruct (crear_variable_casos m nombre sinonimos guardado)
    as [(_ & _ & _ & ->) | ([?|[?|?]] & _)]; [|congruence..].
  cbn [fst snd].
  destruct (guardar_lista m (Py.strip (Py.lower nombre))
              (sinonimos_limpios sinonimos) Hm)
    as (Hbf & Hget & Hnew & Hold & Hotros & Hdef & Hcs).
  split; [done|]. split; [done|]. split; [|split].
  - unfold obtener_variable. rewrite lower_strip, Hget. by rewrite Hnew.
  - rewrite existe_variable_strip in Hex. apply dict_in_false in Hex.
    unfold obtener_todas_variables.
    change (_variables (con_variables ?a ?d)) with d.
    rewrite dict_set_new by done. rewrite map_app. f_equal.
    + apply map_ext_in. intros [k l] Hkl. f_equal. apply Hold.
      destruct Hm as [_ (_ & _ & Hv)].
      rewrite Forall_forall in Hv. apply list_elem_of_In in Hkl.
      apply (Hv _ Hkl).
    + cbn [map]. do 2 f_equal. exact Hnew.
  - by apply Hcs.
Qed.

Lemma crear_variable_no (m : Mundo) (nombre : string)
    (sinonimos : list string) (guardado : bool) :
  Py.strip (Py.lower nombre) = EmptyString
  ∨ existe_variable m (Py.strip nombre) = true
  ∨ sinonimos_limpios sinonimos = [] →
  crear_variable m nombre sinonimos guardado = (m, false).
Proof.
  intros Hno.
  destruct (crear_variable_casos m nombre sinonimos guardado)
    as [(H1 & H2 & H3 & _) | (_ & ->)]; [|done].
  destruct Hno as [?|[?|?]]; congruence.
Qed.

Lemma actualizar_variable_ok (m : Mundo) (nombre : string)
    (sinonimos : list string) (guardado : bool) :
  bien_formado m →
  let limpios := sinonimos_limpios sinonimos in
  existe_variable m nombre = true → limpios ≠ [] →
  let r := actualizar_variable m nombre sinonimos guardado in
  r.2 = guardado ∧ bien_formado r.1
  ∧ obtener_variable r.1 nombre = Some limpios
  ∧ obtener_nombres_variables r.1 = obtener_nombres_variables m
  ∧ (∀ n, Py.lower n ≠ Py.lower nombre →
          obtener_variable r.1 n = obtener_variable m n)
  ∧ default_variables r.1 = default_variables m
  ∧ (∀ l, l < length (listas m) → deref r.1 l = deref m l)
  ∧ (con_sinonimos m → con_sinonimos r.1).
Proof.
  intros Hm. cbn zeta. intros Hex Hlimpios.
  destruct (actualizar_variable_casos m nombre sinonimos guardado)
    as [(_ & _ & ->) | ([?|?] & _)]; [|congruence..].
  cbn [fst snd].
  destruct (guardar_lista m (Py.lower nombre)
              (sinonimos_limpios sinonimos) Hm)
    as (Hbf & Hget & Hnew & Hold & Hotros & Hdef & Hcs).
  split; [done|]. split; [done|].
  split; [|split; [|split; [|split; [|split]]]]; try done.
  - unfold obtener_variable. rewrite Hget. by rewrite Hnew.
  - unfold obtener_nombres_variables.
    change (_variables (con_variables ?a ?d)) with d.
    apply dict_set_in. by apply dict_in_true.
  - intros n Hn. unfold obtener_variable. rewrite (Hotros _ Hn).
    destruct (dict_get (Py.lower n) (_variables m)) as [l|] eqn:E; [|done].
    f_equal. apply Hold.
    destruct Hm as [_ Hv]. by apply (dict_ok_get m _ _ _ Hv E).
  - by apply Hcs.
Qed.

Lemma actualizar_variable_no (m : Mundo) (nombre : string)
    (sinonimos : list string) (guardado : bool) :
  existe_variable m nombre = false ∨ sinonimos_limpios sinonimos = [] →
  actualizar_variable m nombre sinonimos guardado = (m, false).
Proof.
  intros Hno.
  destruct (actualizar_variable_casos m nombre sinonimos guardado)
    as [(H1 & H2 & _) | (_ & ->)]; [|done].
  destruct Hno; congruence.
Qed.

Lemma eliminar_variable_ok (m : Mundo) (nombre : string) (guardado : bool) :
  bien_formado m → existe_variable m nombre = true →
  let r := eliminar_variable m nombre guardado in
  r.2 = guardado ∧ bien_formado r.1
  ∧ existe_variable r.1 nombre = false
  ∧ contar_variables r.1 + 1 = contar_variables m
  ∧ (∀ n, Py.lower n ≠ Py.lower nombre →
          obtener_variable r.1 n = obtener_variable m n)
  ∧ (con_sinonimos m → con_sinonimos r.1).
Proof.
  intros [Hd Hv] Hex. cbn zeta. unfold eliminar_variable.
  unfold existe_variable in Hex. rewrite Hex. cbn [negb fst snd].
  split; [done|]. split; [|split; [|split; [|split]]].
  - split; [done|]. by apply dict_ok_del.
  - unfold existe_variable, dict_in. cbn.
    rewrite dict_get_del_eq; [done|]. by destruct Hv.
  - unfold contar_variables. cbn. apply dict_del_length.
    by apply dict_in_true.
  - intros n Hn. unfold obtener_variable. cbn [_variables con_variables].
    by rewrite dict_get_del_ne.
  - unfold con_sinonimos. cbn [_variables con_variables]. intros Hcs.
    apply Forall_forall. intros x Hx%dict_del_elem.
    rewrite Forall_forall in Hcs. apply (Hcs x Hx).
Qed.

Lemma eliminar_variable_no (m : Mundo) (nombre : string) (guardado : bool) :
  existe_variable m nombre = false →
  eliminar_variable m nombre guardado = (m, false).
Proof.
  unfold eliminar_variable, existe_variable. by intros ->.
Qed.

Lemma otras_variables (m m' : Mundo) (nombre n : string) (l : nat) :
  bien_formado m →
  _variables m' = _variables m →
  dict_get (Py.lower nombre) (_variables m) = Some l →
  (∀ l', l' ≠ l → deref m' l' = deref m l') →
  Py.lower n ≠ Py.lower nombre →
  obtener_variable m' n = obtener_variable m n.
Proof.
  intros [_ (_ & Hrefs & _)] Hv Hl Hd Hn. apply obtener_variable_otro; [done|].
  intros l' Hl'. apply Hd. intros ->.
  by apply Hn, (dict_get_refs _ _ _ _ Hrefs Hl' Hl).
Qed.

Lemma agregar_sinonimo_ok (m : Mundo) (nombre s : string) (xs : list string)
    (guardado : bool) :
  bien_formado m → obtener_variable m nombre = Some xs →
  Py.strip s ≠ EmptyString → Py.strip s ∉ xs →
  let r := agregar_sinonimo m nombre s guardado in
  r.2 = guardado ∧ bien_formado r.1
  ∧ obtener_variable r.1 nombre = Some (xs ++ [Py.strip s])
  ∧ (∀ n, Py.lower n ≠ Py.lower nombre →
          obtener_variable r.1 n = obtener_variable m n)
  ∧ _variables r.1 = _variables m
  ∧ default_variables r.1 = default_variables m
  ∧ (∀ l, dict_get (Py.lower nombre) (_variables m) = Some l →
          deref r.1 l = xs ++ [Py.strip s])
  ∧ (con_sinonimos m → con_sinonimos r.1).
Proof.
  intros Hm (l & Hl & Hxs)%obtener_variable_get Hs Hnew. cbn zeta.
  unfold agregar_sinonimo. rewrite Hl, Hxs.
  destruct (String.eqb_spec (Py.strip s) "") as [?|_]; [done|].
  rewrite bool_decide_eq_false_2 by done. cbn [negb fst snd].
  assert (Hlt : l < length (listas m)).
  { destruct Hm as [_ Hv]. by apply (dict_ok_get m _ _ _ Hv Hl). }
  destruct (mutar_lista m l (xs ++ [Py.strip s]) Hm Hlt) as (Hbf & Hd & Ho).
  split; [done|]. split; [done|].
  split; [|split; [|split; [|split; [|split]]]]; try done.
  - apply obtener_variable_get. exists l. by split.
  - intros n Hn. by apply (otras_variables m _ nombre n l).
  - intros l' Hl'. by replace l' with l by congruence.
  - unfold con_sinonimos. cbn [_variables]. intros Hcs.
    apply Forall_forall. intros [k l'] Hkl. cbn [snd].
    destruct (decide (l' = l)) as [->|Hne].
    + rewrite Hd. by destruct xs.
    + rewrite (Ho _ Hne). rewrite Forall_forall in Hcs. apply (Hcs _ Hkl).
Qed.

Lemma agregar_sinonimo_repetido (m : Mundo) (nombre s : string)
    (xs : list string) (guardado : bool) :
  obtener_variable m nombre = Some xs →
  Py.strip s ≠ EmptyString → Py.strip s ∈ xs →
  agregar_sinonimo m nombre s guardado = (m, true).
Proof.
  intros (l & Hl & Hxs)%obtener_variable_get Hs Hin.
  unfold agregar_sinonimo. rewrite Hl, Hxs.
  destruct (String.eqb_spec (Py.strip s) "") as [?|_]; [done|].
  by rewrite bool_decide_eq_true_2.
Qed.

Lemma remover_sinonimo_ok (m : Mundo) (nombre s : string) (xs : list string)
    (guardado : bool) :
  bien_formado m → obtener_variable m nombre = Some xs → s ∈ xs →
  let r := remover_sinonimo m nombre s guardado in
  ∃ resto, Py.list_remove s xs = Some resto
    ∧ bien_formado r.1
    ∧ obtener_variable r.1 nombre = Some resto
    ∧ r.2 = match resto with [] => false | _ => guardado end.
Proof.
  intros Hm (l & Hl & Hxs)%obtener_variable_get Hin. cbn zeta.
  destruct (list_remove_Some s xs Hin) as (resto & Hr & _).
  exists resto. split; [done|].
  unfold remover_sinonimo. rewrite Hl, Hxs, Hr.
  assert (Hlt : l < length (listas m)).
  { destruct Hm as [_ Hv]. by apply (dict_ok_get m _ _ _ Hv Hl). }
  destruct (mutar_lista m l resto Hm Hlt) as (Hbf & Hd & Ho).
  rewrite Hd.
  assert (Hobt : obtener_variable
                   {| listas := <[l:=resto]> (listas m);
                      default_variables := default_variables m;
                      _variables := _variables m |} nombre = Some resto).
  { apply obtener_variable_get. exists l. by split. }
  by destruct resto.
Qed.

Lemma remover_sinonimo_no (m : Mundo) (nombre s : string) (xs : list string)
    (guardado : bool) :
  obtener_variable m nombre = Some xs → s ∉ xs →
  remover_sinonimo m nombre s guardado = (m, false).
Proof.
  intros (l & Hl & Hxs)%obtener_variable_get Hin.
  unfold remover_sinonimo. by rewrite Hl, Hxs, list_remove_None.
Qed.

Lemma remover_sinonimo_bien_formado (m : Mundo) (nombre s : string)
    (guardado : bool) :
  bien_formado m → bien_formado (remover_sinonimo m nombre s guardado).1.
Proof.
  intros Hm. unfold remover_sinonimo.
  destruct (dict_get _ _) as [l|] eqn:Hl; [|done].
  destruct (Py.list_remove _ _) as [resto|]; [|done].
  assert (Hlt : l < length (listas m)).
  { destruct Hm as [_ Hv]. by apply (dict_ok_get m _ _ _ Hv Hl). }
  destruct (mutar_lista m l resto Hm Hlt) as (Hbf & Hd & Ho).
  rewrite Hd. by destruct resto.
Qed.

Lemma agregar_sinonimo_invariantes (m : Mundo) (nombre s : string)
    (guardado : bool) :
  bien_formado m →
  bien_formado (agregar_sinonimo m nombre s guardado).1
  ∧ (con_sinonimos m → con_sinonimos (agregar_sinonimo m nombre s guardado).1).
Proof.
  intros Hm.
  destruct (obtener_variable m nombre) as [xs|] eqn:Hxs.
  - destruct (decide (Py.strip s = EmptyString)) as [He|Hne].
    + unfold agregar_sinonimo. rewrite He.
      by destruct (dict_get _ _).
    + destruct (decide (Py.strip s ∈ xs)) as [Hin|Hin].
      * by rewrite (agregar_sinonimo_repetido m nombre s xs).
      * destruct (agregar_sinonimo_ok m nombre s xs guardado Hm Hxs Hne Hin)
          as (_ & Hbf & _ & _ & _ & _ & _ & Hcs). done.
  - unfold agregar_sinonimo. unfold obtener_variable in Hxs.
    by destruct (dict_get _ _).
Qed.
End Gestor.

(** ** The report *)






Lemma nivel_mono (c1 f1 c2 f2 a b : Q) :
  (c1 <= c2)%Q → (f1 <= f2)%Q →
  Qle_bool a c1 && Qle_bool b f1 = true →
  Qle_bool a c2 && Qle_bool b f2 = true.
Proof.
  intros Hc Hf [H1%Qle_bool_iff H2%Qle_bool_iff]%andb_true_iff.
  apply andb_true_iff. split; apply Qle_bool_iff; lra.
Qed.

Lemma clasificacion_suma (resultados : list Resultado) :
  length (List.filter (λ r, encontrada (resultado r)
                            && Qle_bool (9 # 10) (confianza (resultado r)))
                      resultados)
  + length (List.filter
              (λ r, encontrada (resultado r)
                    && (Qle_bool (7 # 10) (confianza (resultado r))
                        && Py.Qlt_bool (confianza (resultado r)) (9 # 10)))
              resultados)
  + length (List.filter (λ r, encontrada (resultado r)
                              && Py.Qlt_bool (confianza (resultado r))
                                             (7 # 10))
                        resultados)
  = length (encontrados resultados).
Proof.
  unfold encontrados. induction resultados as [|r rs IH]; [done|].
  cbn [List.filter]. destruct (encontrada (resultado r)); cbn [andb]; [|done].
  unfold Py.Qlt_bool in *.
  destruct (Qle_bool (9 # 10) (confianza (resultado r))) eqn:E9;
    destruct (Qle_bool (7 # 10) (confianza (resultado r))) eqn:E7;
    cbn [andb negb length]; try lia.
  apply Qle_bool_iff in E9.
  assert (Qle_bool (7 # 10) (confianza (resultado r)) = true)
    by (apply Qle_bool_iff; lra).
  congruence.
Qed.

Lemma criticas_acotadas (resultados : list Resultado) (criticas : list string) :
  NoDup (map variable resultados) →
  length (List.filter (λ r, bool_decide (variable r ∈ criticas)
                            && encontrada (resultado r))
                      resultados)
  ≤ length criticas.
Proof.
  intros Hnd.
  set (sel := List.filter _ resultados).
  rewrite <- (length_map variable sel).
  apply submseteq_length, NoDup_submseteq.
  - unfold sel. clear sel. induction resultados as [|r rs IH]; [constructor|].
    cbn in Hnd |- *. apply NoDup_cons in Hnd as [Hr Hnd].
    destruct (_ && _); [|by apply IH]. cbn. apply NoDup_cons.
    split; [|by apply IH].
    intros (r' & Hv & Hr')%list_elem_of_fmap. apply Hr.
    apply list_elem_of_fmap. exists r'. split; [done|].
    apply list_elem_of_In, List.filter_In in Hr' as [Hr' _].
    by apply list_elem_of_In.
  - intros v (r & -> & Hr)%list_elem_of_fmap.
    apply list_elem_of_In, List.filter_In in Hr as [_ Hb].
    apply andb_true_iff in Hb as [Hb _]. by apply bool_decide_eq_true in Hb.
Qed.

(** ** Searches over more columns or synonyms *)

Lemma Qred_igual (x y : Q) : Qred x = x → Qred y = y → (x == y)%Q → x = y.
Proof. intros Hx Hy Hxy. rewrite <- Hx, <- Hy. by apply Qred_complete. Qed.

Lemma round_red (x : Q) (ndigits : nat) :
  Qred (Py.round x ndigits) = Py.round x ndigits.
Proof. unfold Py.round, Py.round_decimal. apply Qred_complete, Qred_correct. Qed.

Lemma buscar_variable_confianza_red (self : SimilarityEngine)
    (variable_key : string) (sinonimos columnas : list string) :
  Qred (confianza (buscar_variable self variable_key sinonimos columnas))
  = confianza (buscar_variable self variable_key sinonimos columnas).
Proof.
  unfold buscar_variable. case_bool_decide.
  - destruct (dieta_representante self sinonimos columnas)
      as [(_ & _ & -> & _) | (n & m & _ & _ & -> & _)]; [done|].
    apply round_red.
  - rewrite simple_unfold. cbn [confianza]. apply round_red.
Qed.

Section Dominancia.
Variables (self : SimilarityEngine) (variable_key : string).
Variables (sinonimos1 sinonimos2 columnas1 columnas2 : list string).
Hypothesis Hcolumnas :
  ∀ c, c ∈ columnas1 →
       ∃ c', c' ∈ columnas2 ∧ normalizar_texto c' = normalizar_texto c.
Hypothesis Hsinonimos :
  ∀ s, s ∈ sinonimos1 →
       ∃ s', s' ∈ sinonimos2 ∧ normalizar_texto s' = normalizar_texto s.

Lemma par_gemelo (c s : string) :
  c ∈ columnas1 → s ∈ sinonimos1 →
  ∃ c' s', c' ∈ columnas2 ∧ s' ∈ sinonimos2
           ∧ score_par c' s' = score_par c s.
Proof.
  intros Hc Hs. destruct (Hcolumnas c Hc) as (c' & Hc' & Hnc).
  destruct (Hsinonimos s Hs) as (s' & Hs' & Hns).
  exists c', s'. split; [done|]. split; [done|].
  unfold score_par. by rewrite Hnc, Hns.
Qed.

Lemma dominancia_simple :
  let r1 := buscar_variable_simple self variable_key sinonimos1 columnas1 in
  let r2 := buscar_variable_simple self variable_key sinonimos2 columnas2 in
  (encontrada r1 = true → encontrada r2 = true)
  ∧ (confianza r1 <= confianza r2)%Q.
Proof.
  cbn zeta. rewrite !simple_unfold. cbn [encontrada confianza].
  assert (Hm : ((mejor_simple sinonimos1 columnas1).1.2
                <= (mejor_simple sinonimos2 columnas2).1.2)%Q).
  { destruct (mejor_simple_casos sinonimos1 columnas1)
      as [[-> _] | (c & s & -> & Hc & Hs & Hpos & _)]; cbn [fst snd].
    - destruct (mejor_simple_casos sinonimos2 columnas2)
        as [[-> _] | (c' & s' & -> & _ & _ & Hpos' & _)]; cbn [fst snd];
        [done | lra].
    - destruct (par_gemelo c s Hc Hs) as (c' & s' & Hc' & Hs' & Heq).
      destruct (mejor_simple_casos sinonimos2 columnas2)
        as [[_ Hall] | (c2 & s2 & -> & _ & _ & _ & Hmax)]; cbn [fst snd].
      + specialize (Hall c' s' Hc' Hs'). rewrite Heq in Hall. lra.
      + specialize (Hmax c' s' Hc' Hs'). by rewrite Heq in Hmax. }
  split; [|by apply round_mono].
  rewrite !Qle_bool_iff. lra.
Qed.

Lemma dominancia_dieta :
  let r1 := buscar_variable_dieta_especial self sinonimos1 columnas1 in
  let r2 := buscar_variable_dieta_especial self sinonimos2 columnas2 in
  (encontrada r1 = true → encontrada r2 = true)
  ∧ (confianza r1 <= confianza r2)%Q.
Proof.
  cbn zeta.
  assert (Hpos2 : (0 <= confianza (buscar_variable_dieta_especial self
                                     sinonimos2 columnas2))%Q).
  { destruct (dieta_representante self sinonimos2 columnas2)
      as [(_ & _ & -> & _) | (n & m & (Hn & _) & _ & -> & _)]; [done|].
    apply list_elem_of_lookup_2 in Hn.
    rewrite aceptadas_por_cubo_perm in Hn.
    apply aceptadas_elem in Hn as [(c & s & _ & _ & ->)%coincidencias_elem _].
    apply round_unit, score_par_bounds. }
  destruct (dieta_representante self sinonimos1 columnas1)
    as [(_ & -> & -> & _) | (n & m & (Hn & _) & -> & -> & _)]; [done|].
  apply list_elem_of_lookup_2 in Hn. rewrite aceptadas_por_cubo_perm in Hn.
  apply aceptadas_elem in Hn
    as [(c & s & Hc & Hs & ->)%coincidencias_elem Hle].
  unfold score_de. cbn [fst snd] in *.
  destruct (par_gemelo c s Hc Hs) as (c' & s' & Hc' & Hs' & Heq).
  assert (Hin : (c', score_par c' s', s')
                ∈ aceptadas_por_cubo self sinonimos2 columnas2).
  { rewrite aceptadas_por_cubo_perm. apply aceptadas_elem.
    split; [|cbn; by rewrite Heq]. apply coincidencias_elem. by exists c', s'. }
  destruct (dieta_representante self sinonimos2 columnas2)
    as [(Hnil & _) | (n2 & m2 & (_ & Hmax & _) & -> & -> & _)].
  - rewrite aceptadas_por_cubo_perm, Hnil in Hin. by apply elem_of_nil in Hin.
  - split; [done|]. apply round_mono. specialize (Hmax _ Hin).
    unfold score_de in Hmax. cbn [fst snd] in Hmax. by rewrite Heq in Hmax.
Qed.

Lemma dominancia :
  let r1 := buscar_variable self variable_key sinonimos1 columnas1 in
  let r2 := buscar_variable self variable_key sinonimos2 columnas2 in
  (encontrada r1 = true → encontrada r2 = true)
  ∧ (confianza r1 <= confianza r2)%Q.
Proof.
  cbn zeta. unfold buscar_variable. case_bool_decide.
  - apply dominancia_dieta.
  - apply dominancia_simple.
Qed.
End Dominancia.

(** * The claims of the specification *)

(** ** C1: the result invariant *)




(** ** C2: which policy a key selects *)

(** C2, as the code has it: [buscar_variable] runs the diet policy exactly
    for the keys whose lower-cased form is "dieta", and the standard policy
    for every other key. *)
Theorem buscar_variable_politica (self : SimilarityEngine)
    (variable_key : string) (sinonimos columnas : list string) :
  (Py.lower variable_key = "dieta"%string →
   buscar_variable self variable_key sinonimos columnas
   = buscar_variable_dieta_especial self sinonimos columnas)
  ∧ (Py.lower variable_key ≠ "dieta"%string →
     buscar_variable self variable_key sinonimos columnas
     = buscar_variable_simple self variable_key sinonimos columnas).
Proof.
  unfold buscar_variable. case_bool_decide; split; intros; done.
Qed.

Lemma buscar_variable_politica_witness :
  buscar_variable (init None) "Dieta" ["frutas"%string] ["consumo_frutas"%string]
  = buscar_variable_dieta_especial (init None) ["frutas"%string]
      ["consumo_frutas"%string]
  ∧ buscar_variable (init None) "bmi" ["imc"%string] ["BMI"%string]
    = buscar_variable_simple (init None) "bmi" ["imc"%string] ["BMI"%string].
Proof.
  split.
  - apply (buscar_variable_politica (init None) "Dieta"). reflexivity.
  - apply (buscar_variable_politica (init None) "bmi"). discriminate.
Defined.

(** C2 as stated fails for the key "diet": its lower-cased form is "diet",
    yet the search is the standard one, not the diet one. *)
Lemma buscar_variable_diet_counterexample :
  Py.lower "diet" = "diet"%string
  ∧ buscar_variable (init None) "diet" ["diet"%string] ["diet"%string]
    ≠ buscar_variable_dieta_especial (init None) ["diet"%string]
        ["diet"%string]
  ∧ buscar_variable (init None) "diet" ["diet"%string] ["diet"%string]
    = buscar_variable_simple (init None) "diet" ["diet"%string]
        ["diet"%string].
Proof.
  split; [reflexivity|]. split; [|reflexivity].
  intros Heq. apply (f_equal umbral_usado) in Heq.
  vm_compute in Heq. discriminate.
Qed.

(** ** C3: symmetry of the scorer *)

(** C3, amended: the two scores of a pair of strings agree at both ends
    of the scale.  Either is 1.0 exactly when the strings are equal; and
    for strings shorter than 200 characters either is 0.0 exactly when the
    strings share no character and are not both empty. *)
Theorem similitud_extremos_simetricos (texto1 texto2 : string) :
  (((calcular_similitud texto1 texto2 == 1)%Q
    ↔ (calcular_similitud texto2 texto1 == 1)%Q)
   ∧ ((calcular_similitud texto1 texto2 == 1)%Q ↔ texto1 = texto2))
  ∧ (String.length texto1 < 200 → String.length texto2 < 200 →
     ((calcular_similitud texto1 texto2 == 0)%Q
      ↔ (calcular_similitud texto2 texto1 == 0)%Q)
     ∧ ((calcular_similitud texto1 texto2 == 0)%Q
        ↔ ¬ comparten_caracter texto1 texto2
          ∧ 0 < String.length texto1 + String.length texto2)).
Proof.
  split.
  - rewrite !similitud_uno. split; [split; by intros ->|done].
  - intros H1 H2. rewrite !similitud_cero by done.
    split; [|done]. unfold comparten_caracter.
    rewrite (Nat.add_comm (String.length texto2)).
    split; intros [Hno Hl]; (split; [|done]); intros (c & Hc1 & Hc2);
      apply Hno; by exists c.
Qed.

Lemma similitud_extremos_simetricos_witness :
  (calcular_similitud "edad" "bmi" == 0)%Q
  ↔ (calcular_similitud "bmi" "edad" == 0)%Q.
Proof.
  apply (similitud_extremos_simetricos "edad" "bmi"); cbn; lia.
Defined.

(** C3 as stated fails: "tide" against "diet" scores 0.25, "diet"
    against "tide" scores 0.5. *)
Lemma similitud_simetrica_counterexample :
  calcular_similitud "tide" "diet" = (1 # 4)%Q
  ∧ calcular_similitud "diet" "tide" = (1 # 2)%Q
  ∧ ¬ (calcular_similitud "tide" "diet" == calcular_similitud "diet" "tide")%Q.
Proof.
  split; [by vm_compute|]. split; [by vm_compute|].
  vm_compute. discriminate.
Qed.

(** From 200 characters on, the popular characters of the second string
    are left out of its index and the scores need not vanish together:
    "ba" against 200 times "a" scores 0.0, the other way round 2/202. *)
Lemma similitud_cero_larga :
  calcular_similitud "ba" (repetir 200 "a") = 0%Q
  ∧ calcular_similitud (repetir 200 "a") "ba" = (1 # 101)%Q.
Proof. split; by vm_compute. Qed.

(** ** C4: what the standard policy returns *)




(** ** C5: no candidate at all *)

(** C5, amended: with an empty column list the standard policy returns
    confianza = 0.0 and columna = None; encontrada is false for every
    threshold above 0.0, and true for the threshold 0.0. *)
Theorem simple_sin_columnas (self : SimilarityEngine) (variable_key : string)
    (sinonimos : list string) :
  let r := buscar_variable_simple self variable_key sinonimos [] in
  confianza r = 0%Q ∧ columna r = None
  ∧ ((0 < umbral_similitud self)%Q → encontrada r = false)
  ∧ ((umbral_similitud self == 0)%Q → encontrada r = true).
Proof.
  cbn. repeat split.
  - intros Hpos. destruct (Qle_bool (umbral_similitud self) 0) eqn:E; [|done].
    apply Qle_bool_iff in E. lra.
  - intros Hz. apply Qle_bool_iff. lra.
Qed.

Lemma simple_sin_columnas_witness :
  (0 < umbral_similitud (init None))%Q
  ∧ encontrada (buscar_variable_simple (init None) "glucosa"
                  ["glucose"%string] []) = false.
Proof.
  split; [reflexivity|].
  apply (simple_sin_columnas (init None) "glucosa" ["glucose"%string]).
  reflexivity.
Defined.

(** C5 as stated fails at threshold 0.0, which [ajustar_umbral] accepts:
    the search over no column at all is reported as found. *)
Lemma simple_sin_columnas_counterexample :
  ajustar_umbral (init None) 0 = (engine_con 0, true)
  ∧ (0 <= umbral_similitud (engine_con 0) <= 1)%Q
  ∧ encontrada (buscar_variable_simple (engine_con 0) "glucosa"
                  ["glucose"%string] []) = true.
Proof. repeat split; vm_compute; congruence. Qed.

(** ** C6: monotonicity in the threshold *)

(** C6: a search that is found with threshold [T] is found with every
    lower threshold [T'], in the standard policy, in the diet policy, and
    so for every key of [buscar_variable]. *)
Theorem umbral_monotono (T T' : Q) (variable_key : string)
    (sinonimos columnas : list string) :
  (T' < T)%Q →
  let con := λ u, {| umbral_similitud := u |} in
  (encontrada (buscar_variable_simple (con T) variable_key sinonimos
                 columnas) = true →
   encontrada (buscar_variable_simple (con T') variable_key sinonimos
                 columnas) = true)
  ∧ (encontrada (buscar_variable_dieta_especial (con T) sinonimos
                   columnas) = true →
     encontrada (buscar_variable_dieta_especial (con T') sinonimos
                   columnas) = true)
  ∧ (encontrada (buscar_variable (con T) variable_key sinonimos
                   columnas) = true →
     encontrada (buscar_variable (con T') variable_key sinonimos
                   columnas) = true).
Proof.
  intros Hlt. cbn zeta.
  assert (Hs : encontrada (buscar_variable_simple {| umbral_similitud := T |}
                             variable_key sinonimos columnas) = true →
               encontrada (buscar_variable_simple {| umbral_similitud := T' |}
                             variable_key sinonimos columnas) = true).
  { rewrite !simple_unfold; cbn [encontrada umbral_similitud].
    rewrite !Qle_bool_iff. lra. }
  assert (Hd : encontrada (buscar_variable_dieta_especial
                             {| umbral_similitud := T |} sinonimos columnas)
               = true →
               encontrada (buscar_variable_dieta_especial
                             {| umbral_similitud := T' |} sinonimos columnas)
               = true).
  { destruct (dieta_casos {| umbral_similitud := T |} sinonimos columnas)
      as [(_ & -> & _) | (m & Hm & _)]; [done|]. intros _.
    destruct (dieta_casos {| umbral_similitud := T' |} sinonimos columnas)
      as [(Hnil & _) | (_ & _ & -> & _)]; [|done].
    apply aceptadas_elem in Hm as [Hm Hle]. cbn in Hle.
    assert (Hm' : m ∈ aceptadas {| umbral_similitud := T' |} sinonimos columnas)
      by (apply aceptadas_elem; split; [done | cbn; lra]).
    rewrite Hnil in Hm'. by apply elem_of_nil in Hm'. }
  split; [done|]. split; [done|].
  unfold buscar_variable. by case_bool_decide.
Qed.

Lemma umbral_monotono_witness :
  (1 # 2 < 3 # 5)%Q
  ∧ encontrada (buscar_variable {| umbral_similitud := 1 # 2 |} "glucosa"
                  ["glucose"%string] ["Glucosa_mg"%string]) = true
  ∧ encontrada (buscar_variable {| umbral_similitud := 1 # 2 |} "dieta"
                  ["frutas"%string] ["consumo_frutas"%string]) = true.
Proof.
  split; [reflexivity|]. split.
  - apply (umbral_monotono (3 # 5) (1 # 2) "glucosa" ["glucose"%string]
             ["Glucosa_mg"%string]); reflexivity.
  - apply (umbral_monotono (3 # 5) (1 # 2) "dieta" ["frutas"%string]
             ["consumo_frutas"%string]); reflexivity.
Defined.

(** ** C7: the three buckets of the diet policy *)


(** ** C8: statistics *)

(** C8: the statistics are the total, the number of found results, the
    keys of the results that are not found, the coverage
    [round(found/total*100, 1)] (0.0 over no result), and the mean
    confidence of the found results rounded to three places (0.0 when
    none is found), the quotient, the product, the sum and the mean
    being taken on floats as the code takes them; 5 found out of 8 is a
    coverage of 62.5. *)
Theorem estadisticas_busqueda (self : SimilarityEngine)
    (resultados : list Resultado) :
  let st := obtener_estadisticas_busqueda self resultados in
  let found := encontrados resultados in
  total_variables st = length resultados
  ∧ variables_encontradas st = length found
  ∧ variables_faltantes st = map variable (faltantes resultados)
  ∧ cobertura_porcentaje st
    = (if decide (length resultados = 0) then 0%Q
       else Py.round (porcentaje (length found) (length resultados)) 1)
  ∧ confianza_promedio st
    = (if decide (found = []) then 0%Q
       else Py.round (media (map (λ r, confianza (resultado r)) found)) 3)
  ∧ (length resultados = 8 → length found = 5 →
     cobertura_porcentaje st = (125 # 2)%Q).
Proof.
  cbn zeta. unfold obtener_estadisticas_busqueda.
  cbn [total_variables variables_encontradas variables_faltantes
       cobertura_porcentaje confianza_promedio].
  rewrite encontradas_count, faltantes_list, confianzas_list.
  cbn [Nat.add]. repeat split.
  - destruct resultados; done.
  - destruct (encontrados resultados) as [|r rs]; [done|].
    cbn [map]. by case_decide.
  - intros -> ->. by vm_compute.
Qed.

Lemma estadisticas_busqueda_witness :
  let hallado (v : string) (c : Q) :=
    {| variable := v;
       resultado := {| encontrada := true; columna := Some v; confianza := c;
                       sinonimo_match := Some v; umbral_usado := Some (3 # 5);
                       notas := None; detalles := None |} |} in
  let ausente (v : string) :=
    {| variable := v;
       resultado := {| encontrada := false; columna := None; confianza := 0;
                       sinonimo_match := None; umbral_usado := Some (3 # 5);
                       notas := None; detalles := None |} |} in
  let resultados :=
    [hallado "glucosa" 1%Q; hallado "bmi" (4 # 5)%Q; ausente "edad";
     hallado "hba1c" (9 # 10)%Q; ausente "dieta";
     hallado "obesidad" (7 # 10)%Q; ausente "polidipsia";
     hallado "embarazo" 1%Q]%string in
  cobertura_porcentaje (obtener_estadisticas_busqueda (init None) resultados)
  = (125 # 2)%Q.
Proof.
  cbn zeta.
  refine (proj2 (proj2 (proj2 (proj2 (proj2
            (estadisticas_busqueda (init None) _))))) _ _); reflexivity.
Defined.

(** ** C9: bounds of the scorer *)

(** C9: every score lies between 0.0 and 1.0, and a non-empty string
    scores 1.0 against itself. *)
Theorem similitud_acotada (texto1 texto2 : string) :
  (0 <= calcular_similitud texto1 texto2 <= 1)%Q
  ∧ (texto1 ≠ EmptyString → calcular_similitud texto1 texto1 = 1%Q).
Proof.
  unfold calcular_similitud. split; [apply ratio_bounds|].
  intros _. apply ratio_self.
Qed.

Lemma similitud_acotada_witness :
  "glucosa"%string ≠ EmptyString
  ∧ calcular_similitud "glucosa" "glucosa" = 1%Q.
Proof.
  split; [discriminate|].
  apply (similitud_acotada "glucosa" "glucose"). discriminate.
Defined.

(** ** C10: every score is 0.0 *)

(** C10: when every (column, synonym) pair scores 0.0 the standard policy
    returns columna = None and sinonimo_match = None with confianza 0.0,
    whatever columns exist; with threshold 0.0 that result has
    encontrada = true. *)
Theorem simple_scores_cero (self : SimilarityEngine) (variable_key : string)
    (sinonimos columnas : list string) :
  (∀ c s, c ∈ columnas → s ∈ sinonimos → (score_par c s == 0)%Q) →
  let r := buscar_variable_simple self variable_key sinonimos columnas in
  columna r = None ∧ sinonimo_match r = None ∧ confianza r = 0%Q
  ∧ ((umbral_similitud self == 0)%Q → encontrada r = true).
Proof.
  intros Hcero. cbn zeta. rewrite simple_unfold.
  cbn [columna sinonimo_match confianza encontrada].
  destruct (scan_spec sinonimos columnas)
    as [[Hm _] | (n & c & s & _ & Hpos & Hn & _)].
  - fold (mejor_simple sinonimos columnas) in Hm. rewrite Hm. cbn [fst snd].
    repeat split. intros Hu. apply Qle_bool_iff. lra.
  - exfalso. apply list_elem_of_lookup_2, pares_elem in Hn as [Hc Hs].
    specialize (Hcero c s Hc Hs). lra.
Qed.

Lemma simple_scores_cero_witness :
  let r := buscar_variable_simple (engine_con 0) "glucosa" ["xyz"%string]
             ["abc"; "___"]%string in
  columna r = None ∧ sinonimo_match r = None ∧ confianza r = 0%Q
  ∧ encontrada r = true.
Proof.
  cbn zeta.
  pose proof (simple_scores_cero (engine_con 0) "glucosa" ["xyz"%string]
                ["abc"; "___"]%string) as Hw.
  cbn zeta in Hw.
  assert (Hcero : ∀ c s, c ∈ ["abc"; "___"]%string → s ∈ ["xyz"%string] →
                         (score_par c s == 0)%Q).
  { intros c s Hc Hs. apply list_elem_of_In in Hc, Hs. cbn in Hc, Hs.
    destruct Hs as [<- | []]. destruct Hc as [<- | [<- | []]]; reflexivity. }
  destruct (Hw Hcero) as (H1 & H2 & H3 & H4).
  split; [exact H1|]. split; [exact H2|]. split; [exact H3|].
  apply H4. reflexivity.
Defined.

(** * Further properties of the code *)

(** ** utils/text_utils.py *)

(** X1: a normalized text consists of the characters a-z, 0-9 and the
    space only; it has no white space at either end and no two spaces in
    a row. *)
Theorem normalizar_texto_forma (texto : string) :
  let t := normalizar_texto texto in
  Forall (λ c, Py.is_az09 c = true ∨ c = " "%char) (list_ascii_of_string t)
  ∧ Py.strip t = t
  ∧ Py.contains "  " t = false.
Proof.
  cbn zeta. pose proof (normalizar_texto_es_normal texto) as Hn.
  split; [|split].
  - destruct (normalizar_texto texto); [by constructor|].
    by apply (palabras_chars true).
  - by apply es_normal_strip.
  - destruct (normalizar_texto texto) eqn:E; [done|]. rewrite <- E in *.
    apply (espaciado_sin_dobles true), palabras_espaciado.
    by rewrite E in *.
Qed.

(** X2: normalizing is idempotent: a text that is already normalized is
    returned as it is. *)
Theorem normalizar_texto_idempotente (texto : string) :
  normalizar_texto (normalizar_texto texto) = normalizar_texto texto.
Proof. apply es_normal_fijo, normalizar_texto_es_normal. Qed.

(** X3: normalizing ignores case: two texts that differ only in the case
    of their letters have the same normalized text, and so the same score
    against every synonym. *)
Theorem normalizar_texto_mayusculas (texto1 texto2 : string) :
  Py.lower texto1 = Py.lower texto2 →
  normalizar_texto texto1 = normalizar_texto texto2
  ∧ ∀ sinonimo, score_par texto1 sinonimo = score_par texto2 sinonimo.
Proof.
  intros Hl.
  assert (Hn : normalizar_texto texto1 = normalizar_texto texto2).
  { unfold normalizar_texto. by rewrite !lower_strip, Hl. }
  split; [done|]. intros sinonimo. unfold score_par. by rewrite Hn.
Qed.

Lemma normalizar_texto_mayusculas_witness :
  normalizar_texto "Glucosa_MG" = normalizar_texto "GLUCOSA_mg".
Proof.
  apply (normalizar_texto_mayusculas "Glucosa_MG" "GLUCOSA_mg").
  reflexivity.
Defined.

(** X4: normalizing ignores accents: a text and the same text with the
    accents taken off its letters have the same normalized text. *)
Theorem normalizar_texto_acentos (texto : string) :
  normalizar_texto (Py.strip_accents texto) = normalizar_texto texto.
Proof.
  unfold normalizar_texto. do 2 f_equal. f_equal.
  unfold Py.strip_accents at 2. rewrite strip_map
    by apply isspace_strip_accents_char.
  unfold Py.lower, Py.strip_accents. rewrite !map_string_comp.
  apply map_string_ext. intros c. apply strip_accents_lower_char.
Qed.

(** X5: every synonym [limpiar_lista_sinonimos] returns is a non-empty
    text without white space at either end and without a comma. *)
Theorem limpiar_lista_sinonimos_limpios (sinonimos_texto : string) :
  Forall sinonimo_limpio (limpiar_lista_sinonimos sinonimos_texto).
Proof. apply Forall_forall. intros x. apply limpiar_elem. Qed.

(** X6: cleaning the texts of a list joined with ", ", as the routes that
    create and update a variable do, is cleaning each text on its own;
    a list of clean synonyms comes back unchanged. *)
Theorem limpiar_lista_sinonimos_join (sinonimos : list string) :
  limpiar_lista_sinonimos (Py.join ", " sinonimos)
  = flat_map limpiar_lista_sinonimos sinonimos
  ∧ (Forall sinonimo_limpio sinonimos →
     limpiar_lista_sinonimos (Py.join ", " sinonimos) = sinonimos).
Proof.
  split; [apply limpiar_join|]. intros Hl. rewrite limpiar_join.
  induction Hl as [|x xs Hx _ IH]; [done|]. cbn [flat_map].
  by rewrite (limpiar_limpio x Hx), IH.
Qed.

Lemma limpiar_lista_sinonimos_join_witness :
  limpiar_lista_sinonimos (Py.join ", " ["imc"; "body mass index"]%string)
  = ["imc"; "body mass index"]%string.
Proof.
  apply (limpiar_lista_sinonimos_join ["imc"; "body mass index"]%string).
  repeat constructor; try done; by apply (bool_decide_unpack _).
Defined.



(** ** services/similarity_engine.py *)

(** X8: [ajustar_umbral] accepts a threshold exactly when it lies in
    [0.0, 1.0], and a refused call changes nothing; so after any sequence
    of calls on an engine whose threshold is in that range the threshold
    is the last accepted request (the initial one when none was accepted)
    and is still in the range. *)
Theorem ajustar_umbral_en_rango (self : SimilarityEngine)
    (solicitudes : list Q) :
  (0 <= umbral_similitud self <= 1)%Q →
  let e := ajustes self solicitudes in
  (0 <= umbral_similitud e <= 1)%Q
  ∧ umbral_similitud e
    = default (umbral_similitud self)
              (last (List.filter en_rango solicitudes))
  ∧ ∀ u, (ajustar_umbral e u).2 = en_rango u
         ∧ (en_rango u = false → (ajustar_umbral e u).1 = e).
Proof.
  intros Hself. cbn zeta. unfold ajustes.
  induction solicitudes as [|u us IH] using rev_ind.
  - split; [done|]. split; [done|]. intros u. unfold ajustar_umbral, en_rango.
    by destruct (Qle_bool 0 u && Qle_bool u 1).
  - rewrite foldl_app, List.filter_app, last_app. cbn [foldl List.filter].
    destruct IH as (Hr & He & _).
    set (e := foldl _ self us) in *.
    assert (Hu : (0 <= umbral_similitud (ajustar_umbral e u).1 <= 1)%Q
                 ∧ umbral_similitud (ajustar_umbral e u).1
                   = default (umbral_similitud self)
                       (match last (if en_rango u then [u] else []) with
                        | Some y => Some y
                        | None => last (List.filter en_rango us)
                        end)).
    { unfold ajustar_umbral, en_rango.
      destruct (Qle_bool 0 u) eqn:E0; destruct (Qle_bool u 1) eqn:E1;
        cbn; try done.
      apply Qle_bool_iff in E0, E1. done. }
    destruct Hu as [Hu1 Hu2]. split; [done|]. split; [done|].
    intros v. unfold ajustar_umbral, en_rango.
    by destruct (Qle_bool 0 v && Qle_bool v 1).
Qed.

Lemma ajustar_umbral_en_rango_witness :
  umbral_similitud (ajustes (init None) [7 # 10; 3 # 2; - (1 # 10)]%Q)
  = (7 # 10)%Q.
Proof.
  apply (ajustar_umbral_en_rango (init None) [7 # 10; 3 # 2; - (1 # 10)]%Q).
  split; discriminate.
Defined.

(** X9: whatever the threshold, the key, the synonyms and the columns,
    the confidence a search reports lies between 0.0 and 1.0. *)
Theorem confianza_acotada (self : SimilarityEngine) (variable_key : string)
    (sinonimos columnas : list string) :
  (0 <= confianza (buscar_variable self variable_key sinonimos columnas)
   <= 1)%Q.
Proof. apply buscar_variable_confianza. Qed.

(** X10: when some column and some synonym have the same normalized text
    and the threshold is at most 1.0, the variable is found with
    confidence 1.0, by the standard policy and by the diet policy. *)
Theorem coincidencia_exacta (self : SimilarityEngine) (variable_key : string)
    (sinonimos columnas : list string) (c s : string) :
  c ∈ columnas → s ∈ sinonimos →
  normalizar_texto c = normalizar_texto s →
  (umbral_similitud self <= 1)%Q →
  let hallada := λ r, encontrada r = true ∧ confianza r = 1%Q in
  hallada (buscar_variable_simple self variable_key sinonimos columnas)
  ∧ hallada (buscar_variable_dieta_especial self sinonimos columnas)
  ∧ hallada (buscar_variable self variable_key sinonimos columnas).
Proof.
  intros Hc Hs Hn Hu. cbn zeta.
  pose proof (score_par_exacto c s Hn) as Hcs.
  assert (Hsimple : encontrada (buscar_variable_simple self variable_key
                                  sinonimos columnas) = true
                    ∧ confianza (buscar_variable_simple self variable_key
                                   sinonimos columnas) = 1%Q).
  { rewrite simple_unfold. cbn [encontrada confianza].
    destruct (mejor_simple_casos sinonimos columnas)
      as [[_ Hall] | (c' & s' & -> & _ & _ & _ & Hmax)].
    - specialize (Hall c s Hc Hs). rewrite Hcs in Hall. done.
    - specialize (Hmax c s Hc Hs). rewrite Hcs in Hmax.
      pose proof (score_par_bounds c' s') as [_ H1].
      assert (H' : score_par c' s' = 1%Q) by (apply score_par_uno; lra).
      cbn [fst snd]. rewrite H'. split; [by apply Qle_bool_iff | done]. }
  assert (Hdieta : encontrada (buscar_variable_dieta_especial self
                                 sinonimos columnas) = true
                   ∧ confianza (buscar_variable_dieta_especial self
                                  sinonimos columnas) = 1%Q).
  { assert (Hin : (c, score_par c s, s) ∈ aceptadas self sinonimos columnas).
    { apply aceptadas_elem. split; [|cbn; by rewrite Hcs].
      apply coincidencias_elem. by exists c, s. }
    destruct (dieta_representante self sinonimos columnas)
      as [(Hnil & _) | (n & m & (Hm & Hmax & _) & -> & -> & _)].
    - rewrite Hnil in Hin. by apply elem_of_nil in Hin.
    - split; [done|].
      rewrite <- aceptadas_por_cubo_perm in Hin. specialize (Hmax _ Hin).
      apply list_elem_of_lookup_2 in Hm.
      rewrite aceptadas_por_cubo_perm in Hm.
      apply aceptadas_elem in Hm
        as [(c' & s' & _ & _ & ->)%coincidencias_elem _].
      unfold score_de in *. cbn [fst snd] in *. rewrite Hcs in Hmax.
      pose proof (score_par_bounds c' s') as [_ H1].
      assert (H' : score_par c' s' = 1%Q) by (apply score_par_uno; lra).
      by rewrite H'. }
  split; [done|]. split; [done|].
  unfold buscar_variable. by case_bool_decide.
Qed.

Lemma coincidencia_exacta_witness :
  let r := buscar_variable (init None) "edad"
             ["edad"; "age"]%string ["ID"; " AGE "; "Glucose"]%string in
  encontrada r = true ∧ confianza r = 1%Q.
Proof.
  apply (coincidencia_exacta (init None) "edad" ["edad"; "age"]%string
           ["ID"; " AGE "; "Glucose"]%string " AGE " "age").
  - apply list_elem_of_In. cbn. auto.
  - apply list_elem_of_In. cbn. auto.
  - reflexivity.
  - discriminate.
Defined.





(** X13: in the statistics of any list of results the found ones and the
    missing ones add up to the total, the coverage lies between 0.0 and
    100.0, it is 100.0 when no variable is missing, and with nothing
    found both the coverage and the mean confidence are 0.0. *)
Theorem estadisticas_coherentes (self : SimilarityEngine)
    (resultados : list Resultado) :
  let st := obtener_estadisticas_busqueda self resultados in
  variables_encontradas st + length (variables_faltantes st)
  = total_variables st
  ∧ (0 <= cobertura_porcentaje st <= 100)%Q
  ∧ (resultados ≠ [] → variables_faltantes st = [] →
     cobertura_porcentaje st = 100%Q)
  ∧ (variables_encontradas st = 0 →
     cobertura_porcentaje st = 0%Q ∧ confianza_promedio st = 0%Q).
Proof.
  cbn zeta. unfold obtener_estadisticas_busqueda.
  cbn [total_variables variables_encontradas variables_faltantes
       cobertura_porcentaje confianza_promedio].
  rewrite encontradas_count, faltantes_list, confianzas_list, length_map.
  cbn [Nat.add].
  pose proof (encontrados_faltantes_length resultados) as Hlen.
  split; [done|].
  fold (porcentaje (length (encontrados resultados)) (length resultados)).
  split; [|split].
  - destruct (0 <? length resultados) eqn:E; [|done].
    apply Nat.ltb_lt in E.
    destruct (porcentaje_bounds (length (encontrados resultados))
                (length resultados)) as [H0 H1]; [done | lia |].
    split.
    + replace 0%Q with (Py.round 0 1) by (by vm_compute). by apply round_mono.
    + replace 100%Q with (Py.round 100 1) by (by vm_compute).
      by apply round_mono.
  - intros Hne Hf. apply (f_equal length) in Hf. rewrite length_map in Hf.
    cbn [length] in Hf.
    assert (Hall : length (encontrados resultados) = length resultados)
      by lia.
    rewrite Hall.
    assert (Hpos : 0 < length resultados) by (destruct resultados; cbn; [done | lia]).
    apply Nat.ltb_lt in Hpos as Hb. rewrite Hb.
    rewrite porcentaje_total by done. by vm_compute.
  - intros H0. apply length_zero_iff_nil in H0. rewrite H0. cbn [map length].
    split; [|done].
    destruct (0 <? length resultados); [|done].
    by rewrite porcentaje_cero.
Qed.

Lemma estadisticas_coherentes_witness :
  let r := {| variable := "edad";
              resultado := buscar_variable (init None) "edad" ["age"%string]
                             ["Age"%string] |} in
  cobertura_porcentaje (obtener_estadisticas_busqueda (init None) [r])
  = 100%Q.
Proof.
  cbn zeta.
  refine (proj1 (proj2 (proj2 (estadisticas_coherentes (init None) _))) _ _);
    [discriminate | reflexivity].
Defined.

(** X14: searching all configured variables gives one result for each
    variable, in the order of the configuration and labelled with its key;
    the statistics of these results count every configured variable and
    report a mean confidence between 0.0 and 1.0. *)
Theorem analisis_de_todas_las_variables (self : SimilarityEngine)
    (variables_config : list (string * list string)) (columnas : list string) :
  let resultados := buscar_todas_variables self variables_config columnas in
  let st := obtener_estadisticas_busqueda self resultados in
  map (λ r, (variable r, resultado r)) resultados
  = map (λ kv, (kv.1, buscar_variable self kv.1 kv.2 columnas))
        variables_config
  ∧ total_variables st = length variables_config
  ∧ (0 <= confianza_promedio st <= 1)%Q.
Proof.
  cbn zeta. rewrite buscar_todas_variables_map.
  split; [|split].
  - rewrite map_map. reflexivity.
  - cbn. by rewrite length_map.
  - unfold obtener_estadisticas_busqueda. cbn [confianza_promedio].
    rewrite confianzas_list.
    set (rs := map _ variables_config).
    assert (Hall : Forall (λ r, (0 <= confianza (resultado r) <= 1)%Q) rs).
    { apply Forall_fmap, Forall_forall. intros kv _.
      apply buscar_variable_confianza. }
    apply (encontrados_confianzas rs 0 1) in Hall.
    destruct (map _ (encontrados rs)) as [|x xs] eqn:E; [done|].
    rewrite <- E in *. apply round_unit.
    apply media_unit; [by rewrite E | done].
Qed.

(** X15: when the column names are distinct and there are more than
    twice as many columns as results, the last suggestion is the one
    about unclassified columns, and it counts at least as many columns as
    exceed the number of results. *)
Theorem sugerencia_columnas_sin_clasificar (self : SimilarityEngine)
    (resultados : list Resultado) (columnas : list string) :
  NoDup columnas → 2 * length resultados < length columnas →
  ∃ n, length columnas - length resultados ≤ n
       ∧ last (obtener_sugerencias_mejora self resultados columnas)
         = Some (aviso_columnas n).
Proof.
  intros Hnd Hlen. unfold obtener_sugerencias_mejora. cbn zeta.
  set (usadas := list_to_set (map _ (List.filter _ resultados))
                 : gset (option string)).
  set (no_usadas := list_to_set (map Some columnas) ∖ usadas).
  assert (Hsz : length columnas - length resultados ≤ size no_usadas).
  { pose proof (size_difference_ge
                  (list_to_set (C := gset (option string)) (map Some columnas))
                  usadas) as Hd.
    rewrite size_list_to_set in Hd
      by (apply NoDup_fmap_2; [apply _ | done]).
    rewrite length_map in Hd.
    assert (Hu : size usadas ≤ length resultados).
    { unfold usadas. etrans; [apply size_list_to_set_le|].
      rewrite length_map. apply List.filter_length_le. }
    fold no_usadas in Hd. lia. }
  assert (Hc : Py.Qlt_bool (inject_Z (Z.of_nat (length columnas)) * (1 # 2))
                 (inject_Z (Z.of_nat (size no_usadas))) = true).
  { apply Qlt_bool_iff. unfold Qlt; cbn. lia. }
  rewrite Hc. exists (size no_usadas). split; [done|]. apply last_snoc.
Qed.

Lemma sugerencia_columnas_sin_clasificar_witness :
  let resultados :=
    buscar_todas_variables (init None) [("edad", ["age"])]%string
      ["Age"; "ID"; "Sexo"]%string in
  ∃ n, 2 ≤ n
       ∧ last (obtener_sugerencias_mejora (init None) resultados
                 ["Age"; "ID"; "Sexo"]%string)
         = Some (aviso_columnas n).
Proof.
  cbn zeta.
  apply (sugerencia_columnas_sin_clasificar (init None)
           (buscar_todas_variables (init None) [("edad", ["age"])]%string
              ["Age"; "ID"; "Sexo"]%string)
           ["Age"; "ID"; "Sexo"]%string).
  - by apply (bool_decide_unpack _).
  - cbn. lia.
Defined.

(** X16: the suggestions begin with the one about missing synonyms
    exactly when the statistics list a missing variable, and that
    suggestion names the missing variables of the statistics, in their
    order; with no variable missing, no suggestion is about synonyms. *)
Theorem sugerencia_variables_faltantes (self : SimilarityEngine)
    (resultados : list Resultado) (columnas : list string) :
  let st := obtener_estadisticas_busqueda self resultados in
  let sugerencias := obtener_sugerencias_mejora self resultados columnas in
  (variables_faltantes st ≠ [] →
   head sugerencias = Some (aviso_faltantes (variables_faltantes st)))
  ∧ (variables_faltantes st = [] →
     Forall (λ x, String.prefix "Considere" x = false) sugerencias).
Proof.
  cbn zeta. unfold obtener_estadisticas_busqueda.
  cbn [variables_faltantes]. rewrite faltantes_list.
  unfold obtener_sugerencias_mejora. cbn zeta.
  fold (faltantes resultados).
  set (bc := List.filter (λ r, encontrada (resultado r) && _) resultados).
  set (cond := Py.Qlt_bool (_ * _) _).
  destruct (map variable (faltantes resultados)) as [|v vs] eqn:E.
  - split; [done|]. intros _.
    destruct bc; destruct cond; repeat constructor.
  - split; [|done]. intros _.
    destruct bc; destruct cond; reflexivity.
Qed.

Lemma sugerencia_variables_faltantes_witness :
  let resultados :=
    buscar_todas_variables (init None)
      [("edad", ["age"]); ("bmi", ["imc"])]%string ["Age"; "ID"]%string in
  head (obtener_sugerencias_mejora (init None) resultados
          ["Age"; "ID"]%string)
  = Some (aviso_faltantes ["bmi"%string]).
Proof.
  cbn zeta.
  apply (sugerencia_variables_faltantes (init None)
           (buscar_todas_variables (init None)
              [("edad", ["age"]); ("bmi", ["imc"])]%string
              ["Age"; "ID"]%string)
           ["Age"; "ID"]%string).
  by vm_compute.
Defined.

(** X17: a search over more columns and more synonyms never loses a
    match and never reports a lower confidence; more generally this holds
    whenever every column and every synonym of the first search has, in
    the second, one with the same normalized text. *)
Theorem busqueda_monotona (self : SimilarityEngine) (variable_key : string)
    (sinonimos1 sinonimos2 columnas1 columnas2 : list string) :
  let r1 := buscar_variable self variable_key sinonimos1 columnas1 in
  let r2 := buscar_variable self variable_key sinonimos2 columnas2 in
  ((∀ c, c ∈ columnas1 →
         ∃ c', c' ∈ columnas2 ∧ normalizar_texto c' = normalizar_texto c) →
   (∀ s, s ∈ sinonimos1 →
         ∃ s', s' ∈ sinonimos2 ∧ normalizar_texto s' = normalizar_texto s) →
   (encontrada r1 = true → encontrada r2 = true)
   ∧ (confianza r1 <= confianza r2)%Q)
  ∧ (columnas1 ⊆ columnas2 → sinonimos1 ⊆ sinonimos2 →
     (encontrada r1 = true → encontrada r2 = true)
     ∧ (confianza r1 <= confianza r2)%Q).
Proof.
  cbn zeta. split.
  - intros Hc Hs. by apply dominancia.
  - intros Hc Hs. apply dominancia.
    + intros c Hin. exists c. split; [by apply Hc | done].
    + intros s Hin. exists s. split; [by apply Hs | done].
Qed.

Lemma busqueda_monotona_witness :
  let r1 := buscar_variable (init None) "edad" ["ages"%string]
              ["Age"%string] in
  let r2 := buscar_variable (init None) "edad" ["edad"; "ages"; "age"]%string
              ["ID"; "Age"]%string in
  encontrada r2 = true ∧ (confianza r1 <= confianza r2)%Q.
Proof.
  cbn zeta.
  destruct (proj2 (busqueda_monotona (init None) "edad" ["ages"%string]
                     ["edad"; "ages"; "age"]%string ["Age"%string]
                     ["ID"; "Age"]%string)) as [H1 H2].
  - intros c ->%list_elem_of_singleton. apply list_elem_of_In. cbn. auto.
  - intros s ->%list_elem_of_singleton. apply list_elem_of_In. cbn. auto.
  - split; [|exact H2]. apply H1. reflexivity.
Defined.

(** X18: whether a variable is found, and with which confidence, depends
    on the columns and the synonyms only through their normalized texts:
    two searches whose columns have the same normalized texts, and whose
    synonyms have, agree on both (the column reported can differ). *)
Theorem busqueda_por_textos_normalizados (self : SimilarityEngine)
    (variable_key : string)
    (sinonimos1 sinonimos2 columnas1 columnas2 : list string) :
  (∀ t, t ∈ map normalizar_texto columnas1
        ↔ t ∈ map normalizar_texto columnas2) →
  (∀ t, t ∈ map normalizar_texto sinonimos1
        ↔ t ∈ map normalizar_texto sinonimos2) →
  let r1 := buscar_variable self variable_key sinonimos1 columnas1 in
  let r2 := buscar_variable self variable_key sinonimos2 columnas2 in
  encontrada r1 = encontrada r2 ∧ confianza r1 = confianza r2.
Proof.
  intros Hc Hs. cbn zeta.
  assert (Hgemelo : ∀ xs ys : list string,
            (∀ t, t ∈ map normalizar_texto xs → t ∈ map normalizar_texto ys) →
            ∀ x, x ∈ xs →
                 ∃ y, y ∈ ys ∧ normalizar_texto y = normalizar_texto x).
  { intros xs ys Hsub x Hx.
    destruct (proj1 (list_elem_of_fmap _ _ _)
                (Hsub (normalizar_texto x) (list_elem_of_fmap_2 _ _ _ Hx)))
      as (y & Hy & Hin).
    by exists y. }
  destruct (dominancia self variable_key sinonimos1 sinonimos2
              columnas1 columnas2) as [He12 Hc12];
    [apply Hgemelo; intros t; apply Hc | apply Hgemelo; intros t; apply Hs |].
  destruct (dominancia self variable_key sinonimos2 sinonimos1
              columnas2 columnas1) as [He21 Hc21];
    [apply Hgemelo; intros t; apply Hc | apply Hgemelo; intros t; apply Hs |].
  split.
  - destruct (encontrada (buscar_variable self variable_key sinonimos1
                            columnas1)) eqn:E1;
      destruct (encontrada (buscar_variable self variable_key sinonimos2
                              columnas2)) eqn:E2; try done.
    + by specialize (He12 eq_refl).
    + by specialize (He21 eq_refl).
  - apply Qred_igual; [apply buscar_variable_confianza_red..|]. lra.
Qed.

Lemma busqueda_por_textos_normalizados_witness :
  let r1 := buscar_variable (init None) "glucosa" ["glucosa mg dl"%string]
              ["ID"; "Glucosa (mg/dl)"]%string in
  let r2 := buscar_variable (init None) "glucosa" ["Glucosa_mg_dl"%string]
              ["GLUCOSA MG DL"; "id"]%string in
  encontrada r1 = encontrada r2 ∧ confianza r1 = confianza r2.
Proof.
  cbn zeta.
  apply (busqueda_por_textos_normalizados (init None) "glucosa");
    intros t; rewrite !list_elem_of_In; cbn; tauto.
Defined.

(** ** services/report_generator.py *)

(** X19: the general state never gets worse when the coverage and the
    mean confidence do not decrease; and the statistics of results among
    which nothing is found give the state "deficiente". *)
Theorem estado_general_monotono (st1 st2 : SearchStatistics)
    (self : SimilarityEngine) (resultados : list Resultado) :
  ((cobertura_porcentaje st1 <= cobertura_porcentaje st2)%Q →
   (confianza_promedio st1 <= confianza_promedio st2)%Q →
   rango_estado (ReportGenerator._determinar_estado_general st1)
   ≤ rango_estado (ReportGenerator._determinar_estado_general st2))
  ∧ (encontrados resultados = [] →
     ReportGenerator._determinar_estado_general
       (obtener_estadisticas_busqueda self resultados)
     = "deficiente"%string).
Proof.
  split.
  - intros Hc Hf. unfold ReportGenerator._determinar_estado_general.
    destruct (Qle_bool 80 (cobertura_porcentaje st1) && _) eqn:E3.
    { by rewrite (nivel_mono _ _ _ _ _ _ Hc Hf E3). }
    destruct (Qle_bool 60 (cobertura_porcentaje st1) && _) eqn:E2.
    { rewrite (nivel_mono _ _ _ _ _ _ Hc Hf E2).
      destruct (Qle_bool 80 (cobertura_porcentaje st2) && _); cbn; lia. }
    destruct (Qle_bool 40 (cobertura_porcentaje st1) && _) eqn:E1.
    { rewrite (nivel_mono _ _ _ _ _ _ Hc Hf E1).
      destruct (Qle_bool 80 (cobertura_porcentaje st2) && _);
        [cbn; lia|].
      destruct (Qle_bool 60 (cobertura_porcentaje st2) && _); cbn; lia. }
    cbn. lia.
  - intros Hnil. unfold obtener_estadisticas_busqueda,
      ReportGenerator._determinar_estado_general.
    cbn [cobertura_porcentaje confianza_promedio].
    rewrite confianzas_list, Hnil. cbn [map].
    change (Qle_bool (9 # 10) 0) with false.
    change (Qle_bool (8 # 10) 0) with false.
    change (Qle_bool (7 # 10) 0) with false.
    by rewrite !andb_false_r.
Qed.

Lemma estado_general_monotono_witness :
  let hallado (v : string) (c : Q) :=
    {| variable := v;
       resultado := {| encontrada := true; columna := Some v; confianza := c;
                       sinonimo_match := Some v; umbral_usado := Some (3 # 5);
                       notas := None; detalles := None |} |} in
  let st1 := obtener_estadisticas_busqueda (init None)
               [hallado "edad" (8 # 10)] in
  let st2 := obtener_estadisticas_busqueda (init None)
               [hallado "edad" (9 # 10)] in
  rango_estado (ReportGenerator._determinar_estado_general st1)
  ≤ rango_estado (ReportGenerator._determinar_estado_general st2).
Proof.
  cbn zeta.
  apply (proj1 (estado_general_monotono _ _ (init None) [])); by vm_compute.
Defined.

(** X20: in the summary the three confidence classes split the found
    results: their sizes add up to the number of found variables of the
    statistics; and when no variable occurs twice among the results, the
    critical variables found are at most the four critical variables. *)
Theorem resumen_clasificacion (float_str : Q → string)
    (self : SimilarityEngine) (resultados : list Resultado)
    (estadisticas : SearchStatistics) :
  let resumen :=
    ReportGenerator._generar_resumen float_str resultados estadisticas in
  let clases := ReportGenerator.clasificacion_confianza resumen in
  ReportGenerator.alta clases + ReportGenerator.media clases
  + ReportGenerator.baja clases
  = variables_encontradas (obtener_estadisticas_busqueda self resultados)
  ∧ ReportGenerator.total_variables_criticas resumen = 4
  ∧ (NoDup (map variable resultados) →
     ReportGenerator.variables_criticas_encontradas resumen
     ≤ ReportGenerator.total_variables_criticas resumen).
Proof.
  cbn zeta. unfold ReportGenerator._generar_resumen.
  cbn [ReportGenerator.clasificacion_confianza ReportGenerator.alta
       ReportGenerator.media ReportGenerator.baja
       ReportGenerator.total_variables_criticas
       ReportGenerator.variables_criticas_encontradas].
  split; [|split].
  - rewrite clasificacion_suma. unfold obtener_estadisticas_busqueda.
    cbn [variables_encontradas]. by rewrite encontradas_count.
  - reflexivity.
  - intros Hnd. rewrite length_map. by apply criticas_acotadas.
Qed.

Lemma resumen_clasificacion_witness :
  let resultados :=
    buscar_todas_variables (init None)
      [("edad", ["age"]); ("bmi", ["imc"])]%string ["Age"; "ID"]%string in
  ReportGenerator.variables_criticas_encontradas
    (ReportGenerator._generar_resumen (λ _, EmptyString) resultados
       (obtener_estadisticas_busqueda (init None) resultados))
  ≤ 4.
Proof.
  cbn zeta.
  apply (resumen_clasificacion (λ _, EmptyString) (init None)
           (buscar_todas_variables (init None)
              [("edad", ["age"]); ("bmi", ["imc"])]%string
              ["Age"; "ID"]%string)).
  by apply (bool_decide_unpack _).
Defined.



(** ** models/variable_manager.py *)

Section GestorDeVariables.
Import VariableManager.

(** X22: [crear_variable] stores a variable exactly when the name,
    lower-cased and stripped, is not empty and not yet a key and some
    synonym is not blank.  Then the new variable comes last, under that
    key and with the stripped non-blank synonyms, the other variables
    stay as they are and the returned flag is the outcome of writing the
    file: if the file cannot be written the call returns False and the
    variable exists all the same.  Otherwise nothing changes and the
    call returns False. *)
Theorem crear_variable_efecto (m : Mundo) (nombre : string)
    (sinonimos : list string) (guardado : bool) :
  bien_formado m →
  let clave := Py.strip (Py.lower nombre) in
  let limpios := sinonimos_limpios sinonimos in
  let r := crear_variable m nombre sinonimos guardado in
  (clave ≠ EmptyString → existe_variable m (Py.strip nombre) = false →
   limpios ≠ [] →
   r.2 = guardado
   ∧ obtener_variable r.1 (Py.strip nombre) = Some limpios
   ∧ obtener_todas_variables r.1
     = obtener_todas_variables m ++ [(clave, limpios)])
  ∧ (clave = EmptyString ∨ existe_variable m (Py.strip nombre) = true
     ∨ limpios = [] →
     r = (m, false)).
Proof.
  intros Hm. cbn zeta. split.
  - intros H1 H2 H3.
    destruct (crear_variable_ok m nombre sinonimos guardado Hm H1 H2 H3)
      as (Hr & _ & Ho & Ht & _).
    done.
  - apply crear_variable_no.
Qed.

Lemma crear_variable_efecto_witness :
  let m := init mundo_inicial None in
  let r := crear_variable m " Peso " [" kg "; " "; "weight"]%string false in
  r.2 = false
  ∧ obtener_variable r.1 "Peso" = Some ["kg"; "weight"]%string
  ∧ obtener_todas_variables r.1
    = obtener_todas_variables m ++ [("peso", ["kg"; "weight"])]%string.
Proof.
  cbn zeta.
  apply (proj1 (crear_variable_efecto (init mundo_inicial None) " Peso "
                  [" kg "; " "; "weight"]%string false
                  (cargar_variables_ok _ None bien_formado_inicial)));
    by vm_compute.
Defined.

(** X23: [actualizar_variable] replaces the synonyms of a variable that
    exists by the stripped non-blank ones of a list that has some; the
    variable keeps its place, the other variables stay as they are, and
    the flag is the outcome of writing the file.  For an unknown
    variable or only blank synonyms nothing changes and the call returns
    False. *)
Theorem actualizar_variable_efecto (m : Mundo) (nombre : string)
    (sinonimos : list string) (guardado : bool) :
  bien_formado m →
  let limpios := sinonimos_limpios sinonimos in
  let r := actualizar_variable m nombre sinonimos guardado in
  (existe_variable m nombre = true → limpios ≠ [] →
   r.2 = guardado
   ∧ obtener_variable r.1 nombre = Some limpios
   ∧ obtener_nombres_variables r.1 = obtener_nombres_variables m
   ∧ ∀ n, Py.lower n ≠ Py.lower nombre →
          obtener_variable r.1 n = obtener_variable m n)
  ∧ (existe_variable m nombre = false ∨ limpios = [] → r = (m, false)).
Proof.
  intros Hm. cbn zeta. split.
  - intros H1 H2.
    destruct (actualizar_variable_ok m nombre sinonimos guardado Hm H1 H2)
      as (Hr & _ & Ho & Hn & Hot & _).
    done.
  - apply actualizar_variable_no.
Qed.

Lemma actualizar_variable_efecto_witness :
  let m := init mundo_inicial None in
  let r := actualizar_variable m "BMI" [" imc "; ""]%string true in
  r.2 = true
  ∧ obtener_variable r.1 "BMI" = Some ["imc"%string]
  ∧ obtener_nombres_variables r.1 = obtener_nombres_variables m.
Proof.
  cbn zeta.
  destruct (proj1 (actualizar_variable_efecto (init mundo_inicial None) "BMI"
                     [" imc "; ""]%string true
                     (cargar_variables_ok _ None bien_formado_inicial)))
    as (H1 & H2 & H3 & _); [by vm_compute.. |].
  done.
Defined.

(** X24: [eliminar_variable] removes a variable that exists: afterwards
    it does not exist, there is one variable less and the others are as
    before; the flag is the outcome of writing the file.  For an unknown
    variable nothing changes and the call returns False. *)
Theorem eliminar_variable_efecto (m : Mundo) (nombre : string)
    (guardado : bool) :
  bien_formado m →
  let r := eliminar_variable m nombre guardado in
  (existe_variable m nombre = true →
   r.2 = guardado
   ∧ existe_variable r.1 nombre = false
   ∧ contar_variables r.1 + 1 = contar_variables m
   ∧ ∀ n, Py.lower n ≠ Py.lower nombre →
          obtener_variable r.1 n = obtener_variable m n)
  ∧ (existe_variable m nombre = false → r = (m, false)).
Proof.
  intros Hm. cbn zeta. split.
  - intros H1.
    destruct (eliminar_variable_ok m nombre guardado Hm H1)
      as (Hr & _ & He & Hc & Hot & _).
    done.
  - apply eliminar_variable_no.
Qed.

Lemma eliminar_variable_efecto_witness :
  let m := init mundo_inicial None in
  let r := eliminar_variable m "Dieta" true in
  r.2 = true ∧ existe_variable r.1 "Dieta" = false
  ∧ contar_variables r.1 + 1 = contar_variables m.
Proof.
  cbn zeta.
  destruct (proj1 (eliminar_variable_efecto (init mundo_inicial None) "Dieta"
                     true (cargar_variables_ok _ None bien_formado_inicial)))
    as (H1 & H2 & H3 & _); [by vm_compute |].
  done.
Defined.

(** X25: [agregar_sinonimo] appends the stripped synonym to the list of
    a variable that exists when it is not in the list yet, and leaves
    the other variables as they are; when it is in the list already the
    call changes nothing and returns True, so that a second call with
    the same synonym always returns True. *)
Theorem agregar_sinonimo_efecto (m : Mundo) (nombre s : string)
    (xs : list string) (guardado guardado' : bool) :
  bien_formado m → obtener_variable m nombre = Some xs →
  Py.strip s ≠ EmptyString →
  let r := agregar_sinonimo m nombre s guardado in
  (Py.strip s ∉ xs →
   r.2 = guardado
   ∧ obtener_variable r.1 nombre = Some (xs ++ [Py.strip s])
   ∧ ∀ n, Py.lower n ≠ Py.lower nombre →
          obtener_variable r.1 n = obtener_variable m n)
  ∧ (Py.strip s ∈ xs → r = (m, true))
  ∧ agregar_sinonimo r.1 nombre s guardado' = (r.1, true).
Proof.
  intros Hm Hxs Hs. cbn zeta.
  destruct (decide (Py.strip s ∈ xs)) as [Hin|Hin].
  - rewrite (agregar_sinonimo_repetido m nombre s xs guardado Hxs Hs Hin).
    split; [done|]. split; [done|].
    by apply (agregar_sinonimo_repetido m nombre s xs).
  - destruct (agregar_sinonimo_ok m nombre s xs guardado Hm Hxs Hs Hin)
      as (Hr & _ & Ho & Hot & _).
    split; [done|]. split; [done|].
    apply (agregar_sinonimo_repetido _ nombre s (xs ++ [Py.strip s]));
      [done | done |].
    apply elem_of_app. right. apply list_elem_of_here.
Qed.

Lemma agregar_sinonimo_efecto_witness :
  let m := init mundo_inicial None in
  let r := agregar_sinonimo m "EDAD" " edad (a) " true in
  obtener_variable r.1 "edad"
  = Some ["edad"; "age"; "years"; "anios";
          String "a" (String "241" (String "o" (String "s" EmptyString)));
          "edad_paciente"; "patient_age"; "Age"; "edad (a)"]%string
  ∧ agregar_sinonimo r.1 "EDAD" " edad (a) " false = (r.1, true).
Proof.
  cbn zeta.
  destruct (agregar_sinonimo_efecto (init mundo_inicial None) "EDAD"
              " edad (a) "
              ["edad"; "age"; "years"; "anios";
               String "a" (String "241" (String "o" (String "s" EmptyString)));
               "edad_paciente"; "patient_age"; "Age"]%string true false
              (cargar_variables_ok _ None bien_formado_inicial))
    as (H1 & _ & H3); [by vm_compute | by vm_compute |].
  split; [|exact H3].
  destruct H1 as (_ & H1 & _); [by apply (bool_decide_unpack _) | exact H1].
Defined.

(** X26: [remover_sinonimo] takes the first occurrence of the synonym,
    as it is given, out of the list of a variable that exists; when the
    list becomes empty the call returns False although the variable is
    left without synonyms, and otherwise the flag is the outcome of
    writing the file.  When the synonym is not in the list nothing
    changes and the call returns False. *)
Theorem remover_sinonimo_efecto (m : Mundo) (nombre s : string)
    (xs : list string) (guardado : bool) :
  bien_formado m → obtener_variable m nombre = Some xs →
  let r := remover_sinonimo m nombre s guardado in
  (s ∈ xs →
   ∃ resto, Py.list_remove s xs = Some resto
     ∧ obtener_variable r.1 nombre = Some resto
     ∧ r.2 = match resto with [] => false | _ => guardado end)
  ∧ (xs = [s] →
     r.2 = false ∧ obtener_variable r.1 nombre = Some []
     ∧ existe_variable r.1 nombre = true)
  ∧ (s ∉ xs → r = (m, false)).
Proof.
  intros Hm Hxs. cbn zeta. split; [|split].
  - intros Hin.
    destruct (remover_sinonimo_ok m nombre s xs guardado Hm Hxs Hin)
      as (resto & Hr & _ & Ho & Hf).
    by exists resto.
  - intros ->.
    destruct (remover_sinonimo_ok m nombre s [s] guardado Hm Hxs)
      as (resto & Hr & _ & Ho & Hf); [apply list_elem_of_here|].
    cbn in Hr. rewrite String.eqb_refl in Hr. injection Hr as <-.
    split; [done|]. split; [done|].
    apply existe_variable_obtener. by eexists.
  - by apply remover_sinonimo_no.
Qed.

Lemma remover_sinonimo_efecto_witness :
  let m := (crear_variable (init mundo_inicial None) "peso" ["kg"%string]
              true).1 in
  let r := remover_sinonimo m "peso" "kg" true in
  r.2 = false ∧ obtener_variable r.1 "peso" = Some []
  ∧ existe_variable r.1 "peso" = true.
Proof.
  cbn zeta.
  apply (remover_sinonimo_efecto
           (crear_variable (init mundo_inicial None) "peso" ["kg"%string]
              true).1 "peso" "kg" ["kg"%string] true).
  - destruct (crear_variable_ok (init mundo_inicial None) "peso"
                ["kg"%string] true
                (cargar_variables_ok _ None bien_formado_inicial))
      as (_ & Hbf & _); [by vm_compute..|].
    exact Hbf.
  - by vm_compute.
  - reflexivity.
Defined.

(** X27: a manager that starts from the defaults holds the very lists
    of DEFAULT_VARIABLES.  So [resetear_a_predeterminadas] undoes a call
    of [actualizar_variable], which stores a new list, but it does not
    undo a call of [agregar_sinonimo], which changes the shared list:
    after the reset the added synonym is still there. *)
Theorem resetear_y_listas_compartidas (m : Mundo) (nombre s : string)
    (sinonimos xs : list string) (g1 g2 : bool) :
  bien_formado m →
  let m0 := init m None in
  obtener_variable m0 nombre = Some xs →
  let tras_agregar :=
    (resetear_a_predeterminadas (agregar_sinonimo m0 nombre s g1).1 g2).1 in
  let tras_actualizar :=
    (resetear_a_predeterminadas
       (actualizar_variable m0 nombre sinonimos g1).1 g2).1 in
  (Py.strip s ≠ EmptyString → Py.strip s ∉ xs →
   obtener_variable tras_agregar nombre = Some (xs ++ [Py.strip s]))
  ∧ obtener_variable tras_actualizar nombre = Some xs.
Proof.
  intros Hm. cbn zeta. intros Hxs.
  pose proof (cargar_variables_ok m None Hm) as Hm0.
  set (m0 := init m None) in *.
  assert (Hv0 : _variables m0 = default_variables m0) by done.
  apply obtener_variable_get in Hxs as Hxs'.
  destruct Hxs' as (l & Hl & Hd).
  split.
  - intros Hs Hnew.
    destruct (agregar_sinonimo_ok m0 nombre s xs g1 Hm0 Hxs Hs Hnew)
      as (_ & _ & _ & _ & Hv & Hdef & Hder & _).
    apply obtener_variable_get. exists l. cbn [fst].
    unfold resetear_a_predeterminadas. cbn [fst _variables con_variables].
    rewrite Hdef, <- Hv0. split; [done|].
    unfold deref. cbn [listas con_variables]. by apply Hder.
  - destruct (actualizar_variable_casos m0 nombre sinonimos g1)
      as [(Hex & Hlimpios & _) | (_ & ->)].
    + destruct (actualizar_variable_ok m0 nombre sinonimos g1 Hm0 Hex
                  Hlimpios) as (_ & _ & _ & _ & _ & Hdef & Hold & _).
      apply obtener_variable_get. exists l.
      unfold resetear_a_predeterminadas. cbn [fst _variables con_variables].
      rewrite Hdef, <- Hv0. split; [done|].
      unfold deref. cbn [listas con_variables]. rewrite <- Hd.
      apply Hold. destruct Hm0 as [_ Hv]. by apply (dict_ok_get m0 _ _ _ Hv Hl).
    + apply obtener_variable_get. exists l.
      unfold resetear_a_predeterminadas. cbn [fst _variables con_variables].
      by rewrite <- Hv0.
Qed.

Lemma resetear_y_listas_compartidas_witness :
  let m0 := init mundo_inicial None in
  obtener_variable
    (resetear_a_predeterminadas (agregar_sinonimo m0 "bmi" "masa" true).1
       true).1 "bmi"
  = Some ["bmi"; "imc"; "indice de masa corporal"; "body mass index";
          "bmi_calculado"; "BMI"; "masa"]%string
  ∧ obtener_variable
      (resetear_a_predeterminadas
         (actualizar_variable m0 "bmi" ["masa"%string] true).1 true).1 "bmi"
    = Some ["bmi"; "imc"; "indice de masa corporal"; "body mass index";
            "bmi_calculado"; "BMI"]%string.
Proof.
  cbn zeta.
  destruct (resetear_y_listas_compartidas mundo_inicial "bmi" "masa"
              ["masa"%string]
              ["bmi"; "imc"; "indice de masa corporal"; "body mass index";
               "bmi_calculado"; "BMI"]%string true true
              bien_formado_inicial)
    as [H1 H2]; [by vm_compute|].
  split; [|exact H2].
  apply H1; [done | by apply (bool_decide_unpack _)].
Defined.

(** X28: every operation of the manager keeps the state well formed (no
    key twice, no list under two keys, no dangling list);
    [crear_variable], [actualizar_variable], [eliminar_variable] and
    [agregar_sinonimo] also keep every variable with at least one
    synonym. *)
Theorem gestor_invariantes (m : Mundo)
    (archivo : option (list (string * list string))) (nombre s : string)
    (sinonimos : list string) (guardado : bool) :
  bien_formado m →
  (bien_formado (init m archivo)
   ∧ bien_formado (crear_variable m nombre sinonimos guardado).1
   ∧ bien_formado (actualizar_variable m nombre sinonimos guardado).1
   ∧ bien_formado (eliminar_variable m nombre guardado).1
   ∧ bien_formado (resetear_a_predeterminadas m guardado).1
   ∧ bien_formado (agregar_sinonimo m nombre s guardado).1
   ∧ bien_formado (remover_sinonimo m nombre s guardado).1)
  ∧ (con_sinonimos m →
     con_sinonimos (crear_variable m nombre sinonimos guardado).1
     ∧ con_sinonimos (actualizar_variable m nombre sinonimos guardado).1
     ∧ con_sinonimos (eliminar_variable m nombre guardado).1
     ∧ con_sinonimos (agregar_sinonimo m nombre s guardado).1).
Proof.
  intros Hm.
  assert (Hcrear : bien_formado (crear_variable m nombre sinonimos guardado).1
                   ∧ (con_sinonimos m →
                      con_sinonimos
                        (crear_variable m nombre sinonimos guardado).1)).
  { destruct (crear_variable_casos m nombre sinonimos guardado)
      as [(H1 & H2 & H3 & _) | (_ & ->)]; [|done].
    destruct (crear_variable_ok m nombre sinonimos guardado Hm H1 H2 H3)
      as (_ & Hbf & _ & _ & Hcs). done. }
  assert (Hact : bien_formado
                   (actualizar_variable m nombre sinonimos guardado).1
                 ∧ (con_sinonimos m →
                    con_sinonimos
                      (actualizar_variable m nombre sinonimos guardado).1)).
  { destruct (actualizar_variable_casos m nombre sinonimos guardado)
      as [(H1 & H2 & _) | (_ & ->)]; [|done].
    destruct (actualizar_variable_ok m nombre sinonimos guardado Hm H1 H2)
      as (_ & Hbf & _ & _ & _ & _ & _ & Hcs). done. }
  assert (Heli : bien_formado (eliminar_variable m nombre guardado).1
                 ∧ (con_sinonimos m →
                    con_sinonimos (eliminar_variable m nombre guardado).1)).
  { destruct (existe_variable m nombre) eqn:Hex.
    - destruct (eliminar_variable_ok m nombre guardado Hm Hex)
        as (_ & Hbf & _ & _ & _ & Hcs). done.
    - by rewrite (eliminar_variable_no m nombre guardado Hex). }
  pose proof (agregar_sinonimo_invariantes m nombre s guardado Hm) as Hagr.
  split.
  - split; [by apply cargar_variables_ok|]. split; [apply Hcrear|].
    split; [apply Hact|]. split; [apply Heli|].
    split; [by destruct Hm|]. split; [apply Hagr|].
    by apply remover_sinonimo_bien_formado.
  - intros Hcs. split; [by apply Hcrear|]. split; [by apply Hact|].
    split; [by apply Heli | by apply Hagr].
Qed.

Lemma gestor_invariantes_witness :
  bien_formado
    (crear_variable (init mundo_inicial None) "peso" ["kg"%string] true).1
  ∧ con_sinonimos
      (crear_variable (init mundo_inicial None) "peso" ["kg"%string] true).1.
Proof.
  destruct (gestor_invariantes (init mundo_inicial None) None "peso" "kg"
              ["kg"%string] true
              (cargar_variables_ok _ None bien_formado_inicial))
    as [(_ & Hbf & _) Hcs].
  split; [exact Hbf|]. apply Hcs. by apply (bool_decide_unpack _).
Defined.

(** X29: the synonyms [limpiar_lista_sinonimos] returns are stored by
    [crear_variable] as they are, and in the next analysis the new
    variable is searched last, with these synonyms, after the variables
    there were before. *)
Theorem crear_variable_y_analisis (m : Mundo) (nombre sinonimos_texto : string)
    (guardado : bool) (self : SimilarityEngine) (columnas : list string) :
  bien_formado m →
  let clave := Py.strip (Py.lower nombre) in
  let sinonimos := limpiar_lista_sinonimos sinonimos_texto in
  clave ≠ EmptyString → existe_variable m (Py.strip nombre) = false →
  sinonimos ≠ [] →
  let m' := (crear_variable m nombre sinonimos guardado).1 in
  obtener_variable m' (Py.strip nombre) = Some sinonimos
  ∧ buscar_todas_variables self (obtener_todas_variables m') columnas
    = buscar_todas_variables self (obtener_todas_variables m) columnas
      ++ [{| variable := clave;
             resultado := buscar_variable self clave sinonimos columnas |}].
Proof.
  intros Hm. cbn zeta. intros Hclave Hex Hsin.
  assert (Hfijo : sinonimos_limpios (limpiar_lista_sinonimos sinonimos_texto)
                  = limpiar_lista_sinonimos sinonimos_texto).
  { apply sinonimos_limpios_fijo, Forall_forall. intros x.
    apply limpiar_elem. }
  destruct (crear_variable_ok m nombre
              (limpiar_lista_sinonimos sinonimos_texto) guardado Hm Hclave Hex)
    as (_ & _ & Ho & Ht & _); [by rewrite Hfijo|].
  rewrite Hfijo in Ho, Ht. split; [done|].
  rewrite !buscar_todas_variables_map, Ht, map_app. reflexivity.
Qed.

Lemma crear_variable_y_analisis_witness :
  let m := init mundo_inicial None in
  let m' := (crear_variable m "Peso" (limpiar_lista_sinonimos "kg, weight")
               true).1 in
  obtener_variable m' "Peso" = Some ["kg"; "weight"]%string.
Proof.
  cbn zeta.
  apply (crear_variable_y_analisis (init mundo_inicial None) "Peso"
           "kg, weight" true {| umbral_similitud := 3 # 5 |} []
           (cargar_variables_ok _ None bien_formado_inicial));
    by vm_compute.
Defined.
End GestorDeVariables.
